(** * rabbithole: the research-window lifecycle tracker and the selection
      capture resolver of [main.go], embedded and verified.

    The development has three layers.
    - [Go]: the functions of Go's standard library that [main.go] calls on
      strings and integers ([strings.Fields], [strings.TrimSpace],
      [strconv.Atoi], the ["%08x"] verb of [fmt.Sprintf], ...), on byte
      strings.
    - [Sys]: the world the program runs in: the external tools ([wmctrl],
      [xdotool], [xsel], [xdpyinfo], [firefox]), the SQLite table
      [research_windows], the clock and the log, with a small state monad.
    - [Rabbithole]: the functions of [main.go], one definition per function,
      under the source's names. *)

From Stdlib Require Import ZArith NArith Ascii String List Lia Bool.
From stdpp Require Import base tactics option list sorting strings gmap pretty.


(* ================================================================== *)
(** * Go's library functions on byte strings *)
(* ================================================================== *)

Module Go.

(** A Go [string] is a sequence of bytes: [string] of [ascii]. *)
Definition byte (c : ascii) : N := N_of_ascii c.

Definition newline : ascii := "010"%char.

(** [error]: [nil] or a value with a message ([err.Error()]). *)
Definition error : Type := option string.

(** [asciiSpace] of package strings: tab, newline, vertical tab, form feed,
    carriage return and space. *)
Definition isAsciiSpace (c : ascii) : bool :=
  ((9 <=? byte c) && (byte c <=? 13))%N || (byte c =? 32)%N.

(** Number of bytes of the white-space rune ([unicode.IsSpace]) whose UTF-8
    encoding is at the head of [s]; 0 when [s] does not start with one.
    Beyond ASCII these are U+0085, U+00A0, U+1680, U+2000..U+200A, U+2028,
    U+2029, U+202F, U+205F and U+3000. *)
Definition spaceWidth (s : string) : nat :=
  match s with
  | String c0 r0 =>
    if isAsciiSpace c0 then 1
    else match r0 with
    | String c1 r1 =>
      if ((byte c0 =? 194) && ((byte c1 =? 133) || (byte c1 =? 160)))%N then 2
      else match r1 with
      | String c2 _ =>
        let b0 := byte c0 in
        let b1 := byte c1 in
        let b2 := byte c2 in
        if ((b0 =? 225) && (b1 =? 154) && (b2 =? 128))%N then 3
        else if ((b0 =? 226) && (b1 =? 128) &&
                 (((128 <=? b2) && (b2 <=? 138))
                  || (b2 =? 168) || (b2 =? 169) || (b2 =? 175)))%N then 3
        else if ((b0 =? 226) && (b1 =? 129) && (b2 =? 159))%N then 3
        else if ((b0 =? 227) && (b1 =? 128) && (b2 =? 128))%N then 3
        else 0
      | EmptyString => 0
      end
    | EmptyString => 0
    end
  | EmptyString => 0
  end.

(** The same on the reversed string: the width of the white-space rune the
    string ends with ([utf8.DecodeLastRuneInString] followed by
    [unicode.IsSpace]). *)
Definition spaceWidthRev (s : string) : nat :=
  match s with
  | String c0 r0 =>
    if isAsciiSpace c0 then 1
    else match r0 with
    | String c1 r1 =>
      if ((byte c1 =? 194) && ((byte c0 =? 133) || (byte c0 =? 160)))%N then 2
      else match r1 with
      | String c2 _ =>
        let b0 := byte c2 in
        let b1 := byte c1 in
        let b2 := byte c0 in
        if ((b0 =? 225) && (b1 =? 154) && (b2 =? 128))%N then 3
        else if ((b0 =? 226) && (b1 =? 128) &&
                 (((128 <=? b2) && (b2 <=? 138))
                  || (b2 =? 168) || (b2 =? 169) || (b2 =? 175)))%N then 3
        else if ((b0 =? 226) && (b1 =? 129) && (b2 =? 159))%N then 3
        else if ((b0 =? 227) && (b1 =? 128) && (b2 =? 128))%N then 3
        else 0
      | EmptyString => 0
      end
    | EmptyString => 0
    end
  | EmptyString => 0
  end.

Fixpoint revOnto (s acc : string) : string :=
  match s with
  | EmptyString => acc
  | String c r => revOnto r (String c acc)
  end.

Definition revString (s : string) : string := revOnto s "".

(** [strings.HasPrefix(s, prefix)]. *)
Fixpoint HasPrefix (s prefix : string) {struct prefix} : bool :=
  match prefix, s with
  | EmptyString, _ => true
  | String p ps, String c cs => Ascii.eqb c p && HasPrefix cs ps
  | String _ _, EmptyString => false
  end.

(** [strings.Contains(s, substr)]. *)
Fixpoint Contains (s substr : string) : bool :=
  HasPrefix s substr ||
  match s with
  | EmptyString => false
  | String _ r => Contains r substr
  end.

(** [strings.Split(s, "\n")]: the pieces between the newlines, at least one
    piece. *)
Fixpoint SplitLines (s : string) : list string :=
  match s with
  | EmptyString => [""]
  | String c r =>
    if Ascii.eqb c newline then "" :: SplitLines r
    else match SplitLines r with
         | piece :: pieces => String c piece :: pieces
         | [] => [String c ""]
         end
  end.

Definition closeField (cur : string) (fields : list string) : list string :=
  match cur with
  | EmptyString => fields
  | _ => cur :: fields
  end.

(** [strings.Fields(s)]: the maximal runs of bytes between white-space
    runes.  [skip] counts the bytes still to pass of the white-space rune
    being read, [cur] is the field being read. *)
Fixpoint fieldsFrom (skip : nat) (cur : string) (s : string) : list string :=
  match s with
  | EmptyString => closeField cur []
  | String c r =>
    match skip with
    | S k => fieldsFrom k cur r
    | O =>
      match spaceWidth s with
      | O => fieldsFrom 0 (cur +:+ String c "") r
      | S k => closeField cur (fieldsFrom k "" r)
      end
    end
  end.

Definition Fields (s : string) : list string := fieldsFrom 0 "" s.

Fixpoint trimLeftFrom (width : string -> nat) (skip : nat) (s : string) : string :=
  match s with
  | EmptyString => ""
  | String _ r =>
    match skip with
    | S k => trimLeftFrom width k r
    | O =>
      match width s with
      | O => s
      | S k => trimLeftFrom width k r
      end
    end
  end.

(** [strings.TrimSpace(s)]: leading white-space runes are cut, then
    trailing ones. *)
Definition TrimSpace (s : string) : string :=
  revString (trimLeftFrom spaceWidthRev 0 (revString (trimLeftFrom spaceWidth 0 s))).

(** [strings.ToUpper] on ASCII letters.  [main.go] applies it to the
    selection type only, which is ["primary"] or ["clipboard"] wherever the
    call is reached. *)
Definition upperByte (c : ascii) : ascii :=
  if ((97 <=? byte c) && (byte c <=? 122))%N then ascii_of_N (byte c - 32) else c.

Fixpoint ToUpper (s : string) : string :=
  match s with
  | EmptyString => ""
  | String c r => String (upperByte c) (ToUpper r)
  end.

(** [strings.ReplaceAll(s, "%s", new)]. *)
Fixpoint ReplaceAllPercentS (s new : string) : string :=
  match s with
  | String "%" (String "s" r) => new +:+ ReplaceAllPercentS r new
  | String c r => String c (ReplaceAllPercentS r new)
  | EmptyString => ""
  end.

Definition hexDigitUpper (d : N) : ascii :=
  if (d <? 10)%N then ascii_of_N (48 + d) else ascii_of_N (55 + d).

Definition isUnreserved (c : ascii) : bool :=
  let b := byte c in
  (((48 <=? b) && (b <=? 57)) || ((65 <=? b) && (b <=? 90))
   || ((97 <=? b) && (b <=? 122))
   || (b =? 45) || (b =? 95) || (b =? 46) || (b =? 126))%N.

(** [url.QueryEscape(s)]: letters, digits and [-_.~] stay, a space becomes
    [+], every other byte becomes [%XX]. *)
Fixpoint QueryEscape (s : string) : string :=
  match s with
  | EmptyString => ""
  | String c r =>
    if isUnreserved c then String c (QueryEscape r)
    else if (byte c =? 32)%N then String "+" (QueryEscape r)
    else String "%" (String (hexDigitUpper (byte c / 16))
                       (String (hexDigitUpper (byte c mod 16)) (QueryEscape r)))
  end.

(** ** Integers: [strconv.Atoi] and the verbs of [fmt] *)

Definition isDigit (c : ascii) : bool := ((48 <=? byte c) && (byte c <=? 57))%N.

Fixpoint allDigits (s : string) : bool :=
  match s with
  | EmptyString => true
  | String c r => isDigit c && allDigits r
  end.

(** Value of a digit string, most significant digit first. *)
Fixpoint digitsValue (acc : N) (s : string) : N :=
  match s with
  | EmptyString => acc
  | String c r => digitsValue (10 * acc + (byte c - 48)) r
  end.

Definition minInt : Z := - 2 ^ 63.
Definition maxInt : Z := 2 ^ 63 - 1.

(** [strconv.Atoi(s)] with the 64-bit [int] of the amd64 build: an optional
    sign, then one or more decimal digits, and the value in the range of
    [int]; [None] is a non-nil error. *)
Definition Atoi (s : string) : option Z :=
  let '(neg, ds) :=
    match s with
    | String c r =>
      if Ascii.eqb c "-" then (true, r)
      else if Ascii.eqb c "+" then (false, r)
      else (false, s)
    | EmptyString => (false, s)
    end in
  match ds with
  | EmptyString => None
  | _ =>
    if allDigits ds then
      let v := Z.of_N (digitsValue 0 ds) in
      let z := if neg then (- v)%Z else v in
      if ((minInt <=? z) && (z <=? maxInt))%Z then Some z else None
    else None
  end.

Definition hexDigit (d : N) : ascii :=
  if (d <? 10)%N then ascii_of_N (48 + d) else ascii_of_N (87 + d).

(** The hexadecimal digits of [n], lower case, without leading zeros
    (["0"] for 0); [fuel] bounds the number of digits. *)
Fixpoint hexDigitsOnto (fuel : nat) (n : N) (acc : string) : string :=
  match fuel with
  | O => acc
  | S f =>
    let acc' := String (hexDigit (n mod 16)) acc in
    if (n / 16 =? 0)%N then acc' else hexDigitsOnto f (n / 16) acc'
  end.

Definition FormatHex (n : N) : string := hexDigitsOnto (S (N.to_nat (N.log2 n))) n "".

Fixpoint zeros (k : nat) : string :=
  match k with
  | O => ""
  | S k' => String "0" (zeros k')
  end.

Definition padZeros (width : nat) (s : string) : string :=
  zeros (width - String.length s) +:+ s.

(** The verb [%08x] of [fmt.Sprintf] on an [int]: the magnitude in lower-case
    hexadecimal, padded with zeros to 8 digits, or to 7 digits after the
    sign of a negative value. *)
Definition Sprintf_08x (v : Z) : string :=
  if (v <? 0)%Z then String "-" (padZeros 7 (FormatHex (Z.to_N (- v))))
  else padZeros 8 (FormatHex (Z.to_N v)).

(** The verb [%d]. *)
Definition Sprintf_d (v : Z) : string := pretty v.

(** 64-bit wrap-around of [int] arithmetic. *)
Definition wrapInt (z : Z) : Z := ((z + 2 ^ 63) mod 2 ^ 64 - 2 ^ 63)%Z.

End Go.

(* ================================================================== *)
(** * The WindowID normalizer *)
(* ================================================================== *)

Module Normalizer.
Import Go.

(** [normalizeWindowID] of [main.go]. *)
Definition normalizeWindowID (wid : string) : string :=
  if HasPrefix wid "0x" then wid
  else match Atoi wid with
       | Some val => "0x" +:+ Sprintf_08x val
       | None => wid
       end.

End Normalizer.

(* ================================================================== *)
(** * The world: external tools, the registry table, clock and log *)
(* ================================================================== *)

Module Sys.
Import Go.

(** The four SQL statements [main.go] runs on the table
    [research_windows (window_id TEXT PRIMARY KEY, created_at DATETIME)]. *)
Inductive Stmt : Type :=
| SelectWindowIDs
| CountWindowID (wid : string)
| InsertOrReplace (wid : string) (created_at : Z)
| DeleteWindowID (wid : string).

(** What the program did to the world, oldest first. *)
Inductive Event : Type :=
| Ran (argv : list string)
| Started (argv : list string)
| Sql (s : Stmt)
| Slept (ms : Z)
| Logged (msg : string).

(** A finished external command: the time it took in milliseconds, its
    standard output and the error of [Output()] or [Run()]. *)
Record Exit : Type := mkExit { elapsed : N; stdout : string; failure : error }.

(** The environment decides, from what happened so far, how an external
    command ends ([None]: it never exits, and [Output()] never returns),
    whether a process starts, and whether a statement fails in the store. *)
Record Env : Type := mkEnv {
  run : list Event -> list string -> option Exit;
  start : list Event -> list string -> error;
  sqlFault : list Event -> Stmt -> error
}.

(** [db] is the global handle ([None]: [db == nil]) with the rows of
    [research_windows] keyed by [window_id]; [clock] is [time.Now()] in
    milliseconds. *)
Record World : Type := mkWorld {
  db : option (gmap string Z);
  clock : Z;
  events : list Event
}.

(** Computations: a state monad on the world; [None] is a call that never
    returns. *)
Definition M (A : Type) : Type := World -> option (A * World).

#[global] Instance M_ret : MRet M := fun A a w => Some (a, w).
#[global] Instance M_bind : MBind M := fun A B f m w =>
  match m w with
  | Some (a, w') => f a w'
  | None => None
  end.

Definition record (e : Event) (w : World) : World :=
  {| db := db w; clock := clock w; events := events w ++ [e] |}.

Definition advance (ms : Z) (w : World) : World :=
  {| db := db w; clock := clock w + ms; events := events w |}.

(** The order in which the store returns the rows of [research_windows]
    to a [SELECT window_id] without [ORDER BY]: SQLite reads them off the
    index of the primary key, in ascending order of the bytes of
    [window_id]. *)
Definition keyBefore (a b : string) : Prop := String.leb a b = true.

#[global] Instance keyBefore_dec (a b : string) : Decision (keyBefore a b) :=
  decide (String.leb a b = true).

Definition storedOrder (rows : gmap string Z) : list string :=
  merge_sort keyBefore (elements (dom rows)).

Definition applyStmt (s : Stmt) (rows : gmap string Z) : gmap string Z :=
  match s with
  | InsertOrReplace wid created_at => <[wid := created_at]> rows
  | DeleteWindowID wid => delete wid rows
  | SelectWindowIDs | CountWindowID _ => rows
  end.

Section Primitives.
Variable E : Env.

(** [exec.Command(argv...).Output()]. *)
Definition Output (argv : list string) : M Exit := fun w =>
  match run E (events w) argv with
  | Some x => Some (x, record (Ran argv) (advance (Z.of_N (elapsed x)) w))
  | None => None
  end.

(** [exec.Command(argv...).Run()]. *)
Definition Run (argv : list string) : M error :=
  x ← Output argv; mret (failure x).

(** [exec.Command(argv...).Start()]. *)
Definition Start (argv : list string) : M error := fun w =>
  Some (start E (events w) argv, record (Started argv) w).

Definition Now : M Z := fun w => Some (clock w, w).

Definition Sleep (ms : Z) : M unit := fun w =>
  Some (tt, record (Slept ms) (advance ms w)).

Definition logPrintf (msg : string) : M unit := fun w =>
  Some (tt, record (Logged msg) w).

(** [db == nil]. *)
Definition dbIsNil : M bool := fun w =>
  Some (match db w with None => true | Some _ => false end, w).

(** [db.Exec(stmt)]: the statement changes the table unless the store
    fails. *)
Definition Exec (s : Stmt) : M error := fun w =>
  let err := sqlFault E (events w) s in
  Some (err,
        record (Sql s)
          {| db := match err with
                   | None => applyStmt s <$> db w
                   | Some _ => db w
                   end;
             clock := clock w; events := events w |}).

(** [db.Query("SELECT window_id FROM research_windows")] and the scan of its
    rows, which come in the order of the primary key ([storedOrder]). *)
Definition QueryWindowIDs : M (list string * error) := fun w =>
  let err := sqlFault E (events w) SelectWindowIDs in
  Some ((match err, db w with
         | None, Some rows => storedOrder rows
         | _, _ => []
         end, err),
        record (Sql SelectWindowIDs) w).

(** [db.QueryRow("SELECT COUNT( * ) ... WHERE window_id = ?", wid).Scan(&count)]. *)
Definition QueryCount (wid : string) : M (Z * error) := fun w =>
  let err := sqlFault E (events w) (CountWindowID wid) in
  Some ((match err, db w with
         | None, Some rows =>
           match rows !! wid with
           | Some _ => 1%Z
           | None => 0%Z
           end
         | _, _ => 0%Z
         end, err),
        record (Sql (CountWindowID wid)) w).

(** [for _, x := range l { body }]. *)
Fixpoint forEach {A : Type} (l : list A) (body : A -> M unit) : M unit :=
  match l with
  | [] => mret tt
  | x :: rest => body x;; forEach rest body
  end.

End Primitives.
End Sys.

(* ================================================================== *)
(** * The functions of main.go *)
(* ================================================================== *)

Module Rabbithole.
Import Go Normalizer Sys.

(** [Config.Behavior]. *)
Record Config : Type := mkConfig {
  AutoCopyDelayMs : Z;
  MaxWindows : Z;
  WindowWidth : Z;
  WindowHeight : Z;
  FirefoxProfile : string;
  SelectionMethod : string;
  SelectionTimeoutMs : Z;
  LogSelections : bool
}.

Definition defaultAutoDelayMs : Z := 500.
Definition defaultMaxWindows : Z := 5.
Definition defaultWindowWidth : Z := 650.
Definition defaultWindowHeight : Z := 900.

(** [min]. *)
Definition min (a b : Z) : Z := if (a <? b)%Z then a else b.

(** The defaults [loadConfig] sets on the parsed configuration. *)
Definition loadConfig_defaults (c : Config) : Config :=
  {| AutoCopyDelayMs := if (AutoCopyDelayMs c =? 0)%Z then defaultAutoDelayMs else AutoCopyDelayMs c;
     MaxWindows := if (MaxWindows c =? 0)%Z then defaultMaxWindows else MaxWindows c;
     WindowWidth := if (WindowWidth c =? 0)%Z then defaultWindowWidth else WindowWidth c;
     WindowHeight := if (WindowHeight c =? 0)%Z then defaultWindowHeight else WindowHeight c;
     FirefoxProfile := FirefoxProfile c;
     SelectionMethod := if bool_decide (SelectionMethod c = "") then "auto" else SelectionMethod c;
     SelectionTimeoutMs := if (SelectionTimeoutMs c =? 0)%Z then 1000 else SelectionTimeoutMs c;
     LogSelections := LogSelections c |}.

(** [main]: a command that returns an error ends the process with status 1. *)
Definition exitStatus (err : error) : Z :=
  match err with
  | Some _ => 1
  | None => 0
  end.

(** The IDs of the Firefox windows of a listing, as [openBrowserInSideWindow]
    collects them in [beforeWIDs]. *)
Fixpoint firefoxWIDs (lines : list string) : gset string :=
  match lines with
  | [] => ∅
  | line :: rest =>
    (if Contains line "Mozilla Firefox" then
       match Fields line with
       | part :: _ => {[ normalizeWindowID part ]}
       | [] => ∅
       end
     else ∅) ∪ firefoxWIDs rest
  end.

(** The inner loop of [waitForNewFirefoxWindow]: the first Firefox window of
    the listing that is not in [beforeWIDs]. *)
Fixpoint newFirefoxWID (beforeWIDs : gset string) (lines : list string) : option string :=
  match lines with
  | [] => None
  | line :: rest =>
    if Contains line "Mozilla Firefox" then
      match Fields line with
      | part :: _ =>
        let wid := normalizeWindowID part in
        if bool_decide (wid ∈ beforeWIDs) then newFirefoxWID beforeWIDs rest
        else Some wid
      | [] => newFirefoxWID beforeWIDs rest
      end
    else newFirefoxWID beforeWIDs rest
  end.

(** The first fields of the non-empty lines of a listing, as
    [cleanupDeadWindows] collects them in [currentWIDs]. *)
Fixpoint currentWIDs (lines : list string) : gset string :=
  match lines with
  | [] => ∅
  | line :: rest =>
    (if bool_decide (line = "") then ∅
     else match Fields line with
          | part :: _ => {[ part ]}
          | [] => ∅
          end) ∪ currentWIDs rest
  end.

Section Program.
Variable E : Env.
Variable config : Config.
(** What [fmt.Sscanf(line, "  dimensions:    %dx%d", &width, &height)]
    leaves in [width] and [height]. *)
Variable Sscanf_dimensions : string -> Z * Z.

(** The loop of [waitForNewFirefoxWindow].  Every turn that does not return
    sleeps 100 ms, so that the 5 s deadline ends the loop within 50 turns;
    [turns] bounds them. *)
Fixpoint waitLoop (turns : nat) (timeout : Z) (beforeWIDs : gset string)
  : M (string * error) :=
  match turns with
  | O => mret ("", Some "timeout waiting for new Firefox window")
  | S turns' =>
    now ← Now;
    if (now <? timeout)%Z then
      x ← Output E ["wmctrl"; "-l"];
      match failure x with
      | Some _ => Sleep 100;; waitLoop turns' timeout beforeWIDs
      | None =>
        match newFirefoxWID beforeWIDs (SplitLines (stdout x)) with
        | Some wid => mret (wid, None)
        | None => Sleep 100;; waitLoop turns' timeout beforeWIDs
        end
      end
    else mret ("", Some "timeout waiting for new Firefox window")
  end.

Definition waitForNewFirefoxWindow (beforeWIDs : gset string) : M (string * error) :=
  now ← Now;
  waitLoop 50 (now + 5000) beforeWIDs.

Definition readXSelection (selectionType : string) : M (string * error) :=
  if bool_decide (selectionType = "primary" ∨ selectionType = "clipboard") then
    let args := if bool_decide (selectionType = "primary") then ["-p"] else ["-c"] in
    x ← Output E ("xsel" :: args);
    match failure x with
    | Some err => mret ("", Some ("xsel failed: " +:+ err))
    | None => mret (stdout x, None)
    end
  else mret ("", Some ("invalid selection type: " +:+ selectionType)).

Definition captureFromSelection (selectionType : string) : M (string * error) :=
  '(text, err) ← readXSelection selectionType;
  match err with
  | Some _ => mret ("", err)
  | None =>
    let trimmed := TrimSpace text in
    if bool_decide (trimmed = "") then
      mret ("", Some (selectionType +:+ " selection is empty"))
    else
      let len := Z.of_nat (String.length trimmed) in
      (if LogSelections config then
         logPrintf ("Auto-captured from " +:+ ToUpper selectionType +:+ " selection ("
                    +:+ Sprintf_d len +:+ " chars): "
                    +:+ substring 0 (Z.to_nat (min 30 len)) trimmed +:+ "...")
       else
         logPrintf ("Auto-captured from " +:+ ToUpper selectionType +:+ " selection ("
                    +:+ Sprintf_d len +:+ " chars)"));;
      mret (trimmed, None)
  end.

Definition captureSelectionSafely : M (string * error) :=
  let method := SelectionMethod config in
  if bool_decide (method = "manual") then
    mret ("", Some "selection method set to manual")
  else if bool_decide (method = "primary") then captureFromSelection "primary"
  else if bool_decide (method = "clipboard") then captureFromSelection "clipboard"
  else
    '(text, err) ← captureFromSelection "primary";
    match err with
    | None => mret (text, None)
    | Some _ =>
      '(text, err) ← captureFromSelection "clipboard";
      match err with
      | None => mret (text, None)
      | Some _ => mret ("", Some "no text in PRIMARY or CLIPBOARD selections")
      end
    end.

Definition getScreenDimensions : M (Z * Z) :=
  x ← Output E ["xdpyinfo"];
  match failure x with
  | Some _ => mret (1920, 1080)%Z
  | None =>
    match List.find (fun line => Contains line "dimensions:") (SplitLines (stdout x)) with
    | Some line => mret (Sscanf_dimensions line)
    | None => mret (1920, 1080)%Z
    end
  end.

Definition addResearchWindow (wid : string) : M error :=
  isNil ← dbIsNil;
  if isNil : bool then mret (Some "database not initialized")
  else
    let normalizedWID := normalizeWindowID wid in
    now ← Now;
    Exec E (InsertOrReplace normalizedWID now).

Definition getResearchWindows : M (list string * error) :=
  isNil ← dbIsNil;
  if isNil : bool then mret ([], Some "database not initialized")
  else
    '(wids, err) ← QueryWindowIDs E;
    match err with
    | Some _ => mret ([], err)
    | None => mret (wids, None)
    end.

Definition removeResearchWindow (wid : string) : M error :=
  isNil ← dbIsNil;
  if isNil : bool then mret (Some "database not initialized")
  else
    let normalizedWID := normalizeWindowID wid in
    Exec E (DeleteWindowID normalizedWID).

(** The body of the last loop of [cleanupDeadWindows]: a stored ID that is
    not in [current] is removed from the registry. *)
Definition removeIfDead (current : gset string) (wid : string) : M unit :=
  if bool_decide (wid ∈ current) then mret tt
  else
    err ← removeResearchWindow wid;
    match err with
    | Some err =>
      logPrintf ("Warning: couldn't remove dead window " +:+ wid +:+ ": " +:+ err)
    | None => logPrintf ("Cleaned up dead research window: " +:+ wid)
    end.

Definition cleanupDeadWindows : M error :=
  isNil ← dbIsNil;
  if isNil : bool then mret (Some "database not initialized")
  else
    '(storedWIDs, err) ← QueryWindowIDs E;
    match err with
    | Some _ => mret err
    | None =>
      x ← Output E ["wmctrl"; "-l"];
      match failure x with
      | Some err => mret (Some ("couldn't get window list: " +:+ err))
      | None =>
        forEach storedWIDs (removeIfDead (currentWIDs (SplitLines (stdout x))));;
        mret None
      end
    end.

Definition closeActiveResearchWindow : M error :=
  x ← Output E ["xdotool"; "getactivewindow"];
  match failure x with
  | Some err =>
    logPrintf ("Failed to get active window with xdotool: " +:+ err);;
    mret (Some ("couldn't get active window (no active window or xdotool failed): " +:+ err))
  | None =>
    let activeWID := TrimSpace (stdout x) in
    let normalizedActiveWID := normalizeWindowID activeWID in
    err ← cleanupDeadWindows;
    match err with
    | Some err => logPrintf ("Warning: couldn't cleanup dead windows: " +:+ err)
    | None => mret tt
    end;;
    isNil ← dbIsNil;
    if isNil : bool then mret (Some "database not initialized")
    else
      '(count, err) ← QueryCount E normalizedActiveWID;
      match err with
      | Some err => mret (Some ("couldn't check research window status: " +:+ err))
      | None =>
        if (count =? 0)%Z then mret None
        else
          nameOut ← Output E ["xdotool"; "getwindowname"; activeWID];
          let windowName := TrimSpace (stdout nameOut) in
          err ← Run E ["xdotool"; "windowclose"; activeWID];
          match err with
          | Some err => mret (Some ("failed to close window: " +:+ err))
          | None =>
            err ← removeResearchWindow activeWID;
            match err with
            | Some err =>
              logPrintf ("Warning: couldn't remove window from tracking: " +:+ err)
            | None => mret tt
            end;;
            logPrintf ("Closed research window: " +:+ normalizedActiveWID
                       +:+ " (" +:+ windowName +:+ ")");;
            mret None
          end
      end
  end.

Definition openBrowserInSideWindow (searchURL query : string) : M error :=
  let encodedQuery := QueryEscape query in
  let finalURL := ReplaceAllPercentS searchURL encodedQuery in
  x ← Output E ["wmctrl"; "-l"];
  let beforeWIDs :=
    match failure x with
    | None => firefoxWIDs (SplitLines (stdout x))
    | Some _ => ∅
    end in
  let firefoxArgs :=
    if bool_decide (FirefoxProfile config = "") then ["--new-window"; finalURL]
    else ["--new-window"; "--profile"; FirefoxProfile config; finalURL] in
  err ← Start E ("firefox" :: firefoxArgs);
  match err with
  | Some err => mret (Some ("failed to start firefox (is it installed?): " +:+ err))
  | None =>
    '(firefoxWID, err) ← waitForNewFirefoxWindow beforeWIDs;
    match err with
    | Some err => mret (Some ("failed to detect new Firefox window: " +:+ err))
    | None =>
      logPrintf ("Detected new Firefox window: " +:+ firefoxWID);;
      '(screenWidth, _) ← getScreenDimensions;
      let rightMargin := 120%Z in
      let topMargin := 80%Z in
      let xPos := wrapInt (wrapInt (screenWidth - WindowWidth config) - rightMargin) in
      let yPos := topMargin in
      err ← Run E ["wmctrl"; "-i"; "-r"; firefoxWID; "-b";
                   "remove,maximized_vert,maximized_horz"];
      match err with
      | Some err =>
        logPrintf ("Failed to un-maximize window " +:+ firefoxWID +:+ ": " +:+ err)
      | None => mret tt
      end;;
      Sleep 100;;
      err ← Run E ["wmctrl"; "-i"; "-r"; firefoxWID; "-e";
                   "0," +:+ Sprintf_d xPos +:+ "," +:+ Sprintf_d yPos +:+ ","
                   +:+ Sprintf_d (WindowWidth config) +:+ ","
                   +:+ Sprintf_d (WindowHeight config)];
      match err with
      | Some err =>
        logPrintf ("Failed to position window " +:+ firefoxWID +:+ ": " +:+ err)
      | None =>
        logPrintf ("Successfully positioned Firefox window at " +:+ Sprintf_d xPos
                   +:+ "," +:+ Sprintf_d yPos +:+ " with size "
                   +:+ Sprintf_d (WindowWidth config) +:+ "x"
                   +:+ Sprintf_d (WindowHeight config))
      end;;
      err ← addResearchWindow firefoxWID;
      match err with
      | Some err => logPrintf ("Warning: couldn't track research window: " +:+ err)
      | None => mret tt
      end;;
      mret None
    end
  end.

End Program.
End Rabbithole.

(* ================================================================== *)
(** * What the textual forms of a window ID denote *)
(* ================================================================== *)

Module WindowIDSpec.
Import Go.

(** Value of a string of digits in a base, most significant digit first. *)
Fixpoint positional (base : N) (digitOf : ascii -> N) (s : string) : N :=
  match s with
  | EmptyString => 0
  | String c r =>
    digitOf c * base ^ N.of_nat (String.length r) + positional base digitOf r
  end.

Fixpoint allOf (p : ascii -> bool) (s : string) : bool :=
  match s with
  | EmptyString => true
  | String c r => p c && allOf p r
  end.

Definition isDecimalDigit (c : ascii) : bool := ((48 <=? byte c) && (byte c <=? 57))%N.
Definition decimalDigitValue (c : ascii) : N := (byte c - 48)%N.

Definition isLowerHexDigit (c : ascii) : bool :=
  isDecimalDigit c || ((97 <=? byte c) && (byte c <=? 102))%N.
Definition hexDigitValue (c : ascii) : N :=
  if isDecimalDigit c then (byte c - 48)%N else (byte c - 87)%N.

(** A decimal string: one or more decimal digits. *)
Definition isDecimalString (d : string) : bool :=
  negb (bool_decide (d = "")) && allOf isDecimalDigit d.

Definition decimalValue (d : string) : N := positional 10 decimalDigitValue d.

(** The canonical form of a window ID: the prefix [0x] and exactly eight
    lower-case hexadecimal digits. *)
Definition isCanonicalHex (h : string) : bool :=
  match h with
  | String "0" (String "x" ds) => (String.length ds =? 8)%nat && allOf isLowerHexDigit ds
  | _ => false
  end.

(** The integer a hex-prefixed string denotes. *)
Definition hexValue (h : string) : N :=
  match h with
  | String _ (String _ ds) => positional 16 hexDigitValue ds
  | _ => 0%N
  end.

(** The [k] least significant hexadecimal digits of [n], most significant
    first, put in front of [acc]. *)
Fixpoint fixedOnto (k : nat) (n : N) (acc : string) : string :=
  match k with
  | O => acc
  | S k' => fixedOnto k' (n / 16) (String (hexDigit (n mod 16)) acc)
  end.

End WindowIDSpec.

(* ================================================================== *)
(** * Vocabulary of the statements *)
(* ================================================================== *)

Module Props.
Import Go Normalizer Sys Rabbithole.

(** [m] run [n] times in a row. *)
Fixpoint times {A : Type} (n : nat) (m : M A) : M unit :=
  match n with
  | O => mret tt
  | S k => m;; times k m
  end.

(** A selection read succeeds when the tool exits without error and its
    text is not only white space; the text is then the trimmed output. *)
Definition usableText (x : Exit) : option string :=
  match failure x with
  | Some _ => None
  | None => if bool_decide (TrimSpace (stdout x) = "") then None
            else Some (TrimSpace (stdout x))
  end.

(** The external close call: [xdotool windowclose <id>]. *)
Definition isCloseCall (e : Event) : bool :=
  match e with
  | Ran argv => bool_decide (take 2 argv = ["xdotool"; "windowclose"])
  | _ => false
  end.

(** The events of the reconciler: statements on the store, log lines and
    the window listing. *)
Definition isCleanupEvent (e : Event) : bool :=
  match e with
  | Sql _ | Logged _ => true
  | Ran argv => bool_decide (argv = ["wmctrl"; "-l"])
  | Started _ | Slept _ => false
  end.

(** A store in which some entries of [rows] were deleted: every key of
    [rows'] is as in [rows], or is gone after a [DELETE] that the store
    carried out. *)
Definition pruned (E : Env) (rows rows' : gmap string Z) : Prop :=
  forall k, rows' !! k = rows !! k
    \/ (rows' !! k = None /\ exists h, sqlFault E h (DeleteWindowID k) = None).

(** The number of rows of the registry. *)
Definition tracked (w : World) : nat :=
  match db w with
  | Some rows => size rows
  | None => 0
  end.

(** What a step of the reconciler may do: the store is left as it is, or
    loses entries; only statements and log lines are added to the events. *)
Definition cleanupStep (E : Env) (w w' : World) : Prop :=
  exists evs, events w' = events w ++ evs
    /\ Forall (fun e => isCleanupEvent e = true) evs
    /\ match db w with
      | None => db w' = None
      | Some rows => exists rows', db w' = Some rows' /\ pruned E rows rows'
      end.

(** The events of the removal of one dead entry. *)
Definition cleanedUp (wid : string) : list Event :=
  [Sql (DeleteWindowID wid); Logged ("Cleaned up dead research window: " +:+ wid)].

(** The events of one wait for a new window: listings and sleeps. *)
Definition isPollEvent (e : Event) : bool :=
  match e with
  | Ran argv => bool_decide (argv = ["wmctrl"; "-l"])
  | Slept ms => bool_decide (ms = 100%Z)
  | Started _ | Sql _ | Logged _ => false
  end.

End Props.

(* ================================================================== *)
(** * What a window listing shows, in the words of the specification *)
(* ================================================================== *)

Module Listing.
Import Go Normalizer.

(** [raw] is the window ID at the head of a line of the listing [out], as
    the window manager prints it. *)
Definition listed (out raw : string) : Prop :=
  exists l parts, l ∈ SplitLines out /\ Fields l = raw :: parts.

(** The window with the canonical ID [wid] is in the live window set that
    the listing [out] shows. *)
Definition live (out wid : string) : Prop :=
  exists raw, listed out raw /\ normalizeWindowID raw = wid.

(** The listing [out] shows a Firefox window with the canonical ID [wid]. *)
Definition showsFirefox (out wid : string) : Prop :=
  exists l raw parts,
    l ∈ SplitLines out /\ Contains l "Mozilla Firefox" = true
    /\ Fields l = raw :: parts /\ normalizeWindowID raw = wid.

End Listing.

(* ================================================================== *)
(** * Concrete worlds and environments *)
(* ================================================================== *)

Module Scenarios.
Import Go Normalizer Sys Rabbithole Props.

Definition line (s : string) : string := s +:+ String newline "".

(** The world an invocation starts in, with an empty registry. *)
Definition worldEmpty : World := {| db := Some ∅; clock := 0; events := [] |}.

(** The configuration [loadConfig] yields from an empty [behavior] object. *)
Definition configDefault : Config :=
  loadConfig_defaults
    {| AutoCopyDelayMs := 0; MaxWindows := 0; WindowWidth := 0; WindowHeight := 0;
       FirefoxProfile := ""; SelectionMethod := ""; SelectionTimeoutMs := 0;
       LogSelections := false |}.

Definition setSelectionTimeoutMs (ms : Z) (c : Config) : Config :=
  {| AutoCopyDelayMs := AutoCopyDelayMs c; MaxWindows := MaxWindows c;
     WindowWidth := WindowWidth c; WindowHeight := WindowHeight c;
     FirefoxProfile := FirefoxProfile c; SelectionMethod := SelectionMethod c;
     SelectionTimeoutMs := ms; LogSelections := LogSelections c |}.

Definition sscanfFullHD (_ : string) : Z * Z := (1920, 1080)%Z.

(** The world a computation leaves. *)
Definition after {A : Type} (m : M A) (w : World) : World :=
  match m w with
  | Some (_, w') => w'
  | None => w
  end.

(** An environment given by the answer of each command; processes start
    and the store does not fail. *)
Definition envOf (answer : list string -> option Exit) : Env :=
  {| run := fun _ argv => answer argv;
     start := fun _ _ => None;
     sqlFault := fun _ _ => None |}.

Definition ok (ms : N) (out : string) : option Exit :=
  Some {| elapsed := ms; stdout := out; failure := None |}.

Definition isCmd (argv expected : list string) : bool := bool_decide (argv = expected).

(** Every tool exits at once with no output. *)
Definition envQuiet : Env := envOf (fun _ => ok 0 "").

(** Firefox shows the page in a window that is already there: the listing
    never changes. *)
Definition envWindowReused : Env :=
  envOf (fun argv =>
    if isCmd argv ["wmctrl"; "-l"]
    then ok 20 (line "0x03400003  0 host Mozilla Firefox")
    else ok 0 "").

(** The registry [{A, B, C}] and the live windows [{B, D}]. *)
Definition idA : string := "0x00000001".
Definition idB : string := "0x00000002".
Definition idC : string := "0x00000003".
Definition idD : string := "0x00000004".

Definition rowsABC : gmap string Z := <[idA := 1%Z]> (<[idB := 2%Z]> (<[idC := 3%Z]> ∅)).

Definition worldABC : World := {| db := Some rowsABC; clock := 100; events := [] |}.

Definition listingBD : Exit :=
  {| elapsed := 20;
     stdout := line (idB +:+ "  0 host notes") +:+ line (idD +:+ "  0 host terminal");
     failure := None |}.

Definition worldB : World :=
  {| db := Some (<[idB := 2%Z]> ∅); clock := 100; events := [] |}.

Definition envLiveBD : Env :=
  envOf (fun argv => if isCmd argv ["wmctrl"; "-l"] then Some listingBD else ok 0 "").

(** A listing that shows the research window under its decimal ID. *)
Definition envDecimalListing : Env :=
  envOf (fun argv =>
    if isCmd argv ["wmctrl"; "-l"]
    then ok 20 (line "123  0 host kagi - Mozilla Firefox")
    else if isCmd argv ["xdotool"; "getactivewindow"] then ok 5 (line "123")
    else ok 0 "").

(** [xsel -p] answers after five seconds. *)
Definition envSlowXsel : Env :=
  envOf (fun argv => if isCmd argv ["xsel"; "-p"] then ok 5000 "foo" else ok 0 "").

(** [xsel] never exits. *)
Definition envStuckXsel : Env :=
  envOf (fun argv => if isCmd (take 1 argv) ["xsel"] then None else ok 0 "").

(** PRIMARY holds white space only, CLIPBOARD holds ["foo"]. *)
Definition envClipboardFoo : Env :=
  envOf (fun argv =>
    if isCmd argv ["xsel"; "-p"] then ok 3 (line "  ")
    else if isCmd argv ["xsel"; "-c"] then ok 3 "foo"
    else ok 0 "").

(** The active window is the tracked window 123 and is listed; every
    [DELETE] fails in the store. *)
Definition worldTracked : World :=
  {| db := Some (<["0x0000007b" := 1%Z]> ∅); clock := 100; events := [] |}.

Definition envDeleteFails : Env :=
  {| run := fun _ argv =>
       if isCmd argv ["xdotool"; "getactivewindow"] then ok 5 (line "123")
       else if isCmd argv ["wmctrl"; "-l"] then ok 20 (line "0x0000007b  0 host kagi - Mozilla Firefox")
       else if isCmd argv ["xdotool"; "getwindowname"; "123"] then ok 5 (line "kagi - Mozilla Firefox")
       else ok 0 "";
     start := fun _ _ => None;
     sqlFault := fun _ s =>
       match s with
       | DeleteWindowID _ => Some "database is locked"
       | _ => None
       end |}.

(** The active window 77 is not tracked. *)
Definition envUntrackedActive : Env :=
  envOf (fun argv =>
    if isCmd argv ["xdotool"; "getactivewindow"] then ok 5 (line "77")
    else if isCmd argv ["wmctrl"; "-l"] then ok 20 (line "0x0000007b  0 host kagi - Mozilla Firefox")
    else ok 0 "").

(** What [xdotool getactivewindow] prints for the windows 77 and 123. *)
Definition activeIs77 : Exit := {| elapsed := 5; stdout := line "77"; failure := None |}.
Definition activeIs123 : Exit := {| elapsed := 5; stdout := line "123"; failure := None |}.

(** The listing of [envWindowReused]. *)
Definition listingReused : Exit :=
  {| elapsed := 20; stdout := line "0x03400003  0 host Mozilla Firefox"; failure := None |}.

(** Firefox shows the page in the window that was already there: from the
    second listing after the launch on the window has the title of the page,
    and the listings take longer. *)
Definition listingRetitled : Exit :=
  {| elapsed := 35;
     stdout := line "0x03400003  0 host rocq prover - Kagi - Mozilla Firefox";
     failure := None |}.

Definition envTitleChanges : Env :=
  {| run := fun h argv =>
       if isCmd argv ["wmctrl"; "-l"]
       then Some (if (length h <? 5)%nat then listingReused else listingRetitled)
       else ok 0 "";
     start := fun _ _ => None;
     sqlFault := fun _ _ => None |}.

End Scenarios.


(* ================================================================== *)
(** * More vocabulary and concrete environments *)
(* ================================================================== *)

Module MoreScenarios.
Import Go Normalizer Sys Rabbithole Props Scenarios.

(** [n] turns of the wait that found nothing: a listing and a sleep each. *)
Definition pollsOf (n : nat) : list Event :=
  concat (replicate n [Ran ["wmctrl"; "-l"]; Slept 100%Z]).

(** The new Firefox window 0x03400010 is listed from the third listing after
    the launch on; each listing takes 20 ms. *)
Definition listingNew : Exit :=
  {| elapsed := 20;
     stdout := line "0x03400003  0 host Mozilla Firefox"
               +:+ line "54525968  0 host kagi - Mozilla Firefox";
     failure := None |}.

Definition envNewWindow : Env :=
  {| run := fun h argv =>
       if isCmd argv ["wmctrl"; "-l"]
       then Some (if (length h <? 6)%nat then listingReused else listingNew)
       else ok 0 "";
     start := fun _ _ => None;
     sqlFault := fun _ _ => None |}.

Definition beforeLaunch : gset string := {[ "0x03400003" ]}.

(** The store after some removals of IDs that are not in [current]. *)
Definition keepsListed (current : gset string) (rows rows' : gmap string Z) : Prop :=
  forall k, rows' !! k = rows !! k \/ (rows' !! k = None /\ k ∉ current).

(** The listing shows no window at all. *)
Definition listingEmpty : Exit := {| elapsed := 20; stdout := ""; failure := None |}.

Definition envNoWindows : Env :=
  envOf (fun argv => if isCmd argv ["wmctrl"; "-l"] then Some listingEmpty else ok 0 "").

(** The tracked window 123 is active and listed, every tool and the store
    work. *)
Definition listingTracked : Exit :=
  {| elapsed := 20; stdout := line "0x0000007b  0 host kagi - Mozilla Firefox";
     failure := None |}.

Definition envCloseWorks : Env :=
  envOf (fun argv =>
    if isCmd argv ["xdotool"; "getactivewindow"] then Some activeIs123
    else if isCmd argv ["wmctrl"; "-l"] then Some listingTracked
    else if isCmd argv ["xdotool"; "getwindowname"; "123"] then ok 5 (line "kagi - Mozilla Firefox")
    else ok 0 "").

(** The same, but [xdotool windowclose] fails. *)
Definition envWindowCloseFails : Env :=
  envOf (fun argv =>
    if isCmd argv ["xdotool"; "getactivewindow"] then Some activeIs123
    else if isCmd argv ["wmctrl"; "-l"] then Some listingTracked
    else if isCmd argv ["xdotool"; "windowclose"; "123"]
    then Some {| elapsed := 5; stdout := ""; failure := Some "exit status 1" |}
    else ok 0 "").

End MoreScenarios.

(* ================================================================== *)
(** * The search engines and the engine commands *)
(* ================================================================== *)

Module Engines.
Import Go.

(** [type SearchEngine struct]. *)
Record SearchEngine : Type := mkSearchEngine { Name : string; URL : string; Key : string }.

(** The mark the commands print before a success message, byte by byte as
    it stands in [main.go]. *)
Definition checkMark : string :=
  String "195" (String "162" (String "197" (String "147"
    (String "226" (String "128" (String "166" "")))))).

(** ** A string on its way through the configuration file *)

Definition isContinuation (c : ascii) : bool := ((128 <=? byte c) && (byte c <=? 191))%N.

(** [utf8.DecodeRuneInString]: the number of bytes of the UTF-8 encoding at
    the head of [s]; 0 when [s] is empty or its first byte starts no valid
    encoding (Go then decodes [RuneError] of width 1).  Overlong encodings,
    surrogates and values beyond U+10FFFF are not valid. *)
Definition runeWidth (s : string) : nat :=
  match s with
  | EmptyString => 0
  | String c0 r0 =>
    let b0 := byte c0 in
    if (b0 <? 128)%N then 1
    else if ((194 <=? b0) && (b0 <=? 223))%N then
      match r0 with
      | String c1 _ => if isContinuation c1 then 2 else 0
      | EmptyString => 0
      end
    else if ((224 <=? b0) && (b0 <=? 239))%N then
      match r0 with
      | String c1 (String c2 _) =>
        let lo := if (b0 =? 224)%N then 160%N else 128%N in
        let hi := if (b0 =? 237)%N then 159%N else 191%N in
        if ((lo <=? byte c1) && (byte c1 <=? hi))%N && isContinuation c2 then 3 else 0
      | _ => 0
      end
    else if ((240 <=? b0) && (b0 <=? 244))%N then
      match r0 with
      | String c1 (String c2 (String c3 _)) =>
        let lo := if (b0 =? 240)%N then 144%N else 128%N in
        let hi := if (b0 =? 244)%N then 143%N else 191%N in
        if ((lo <=? byte c1) && (byte c1 <=? hi))%N && isContinuation c2
           && isContinuation c3
        then 4 else 0
      | _ => 0
      end
    else 0
  end.

(** U+FFFD in UTF-8. *)
Definition replacementChar : string := String "239" (String "191" (String "189" "")).

Fixpoint jsonStringFrom (skip : nat) (s : string) : string :=
  match s with
  | EmptyString => ""
  | String c r =>
    match skip with
    | S k => String c (jsonStringFrom k r)
    | O =>
      match runeWidth s with
      | O => replacementChar +:+ jsonStringFrom 0 r
      | S k => String c (jsonStringFrom k r)
      end
    end
  end.

(** The string [json.Unmarshal] reads back from what [json.MarshalIndent]
    has written for [s]: the encoder writes every byte that starts no valid
    UTF-8 encoding as the escape of U+FFFD; all its other escapes are undone
    by the decoder. *)
Definition jsonString (s : string) : string := jsonStringFrom 0 s.

Definition readBack (engine : SearchEngine) : SearchEngine :=
  {| Name := jsonString (Name engine); URL := jsonString (URL engine);
     Key := jsonString (Key engine) |}.

(** ** The configuration file and [saveConfig] *)

(** The configuration file after a command, as far as its engines go: as
    the command found it; opened by [os.WriteFile], which empties it, and
    not written to the end; or rewritten, [engines] being what [loadConfig]
    will read from it. *)
Inductive ConfigFile : Type :=
| Untouched
| Truncated
| Holds (engines : list SearchEngine).

(** How [saveConfig] fails: the text of its error, and whether
    [os.WriteFile] had opened the file before it failed. *)
Record SaveFault : Type := mkSaveFault { message : string; opened : bool }.

(** What the [RunE] closure of an engine command leaves once [loadConfig]
    has succeeded: the error it returns, [config.SearchEngines], the
    configuration file, and what was printed. *)
Record Outcome : Type := mkOutcome {
  result : error;
  engines : list SearchEngine;
  file : ConfigFile;
  printed : list string
}.

Definition failed (msg : string) (engines : list SearchEngine) (file : ConfigFile)
    : Outcome :=
  {| result := Some msg; engines := engines; file := file; printed := [] |}.

Section Commands.

(** Whether and how [saveConfig] fails for the engines it is to write. *)
Variable saveFault : list SearchEngine -> option SaveFault.

Definition saveConfig (engines : list SearchEngine) : error * ConfigFile :=
  match saveFault engines with
  | Some fault => (Some (message fault), if opened fault then Truncated else Untouched)
  | None => (None, Holds (readBack <$> engines))
  end.

(** [add-engine name url key], after [loadConfig]. *)
Definition addEngine (loaded : list SearchEngine) (name url key : string) : Outcome :=
  if negb (String.length key =? 1)%nat
  then failed ("key must be a single character, got: " +:+ key) loaded Untouched
  else if negb (Contains url "%s")
  then failed "URL must contain %s placeholder for query substitution" loaded Untouched
  else
    match find (fun engine => String.eqb (Key engine) key) loaded with
    | Some engine =>
      failed ("key '" +:+ key +:+ "' already exists for engine '" +:+ Name engine +:+ "'")
             loaded Untouched
    | None =>
      let newEngine := {| Name := name; URL := url; Key := key |} in
      let engines' := loaded ++ [newEngine] in
      match saveConfig engines' with
      | (Some e, file) => failed ("failed to save config: " +:+ e) engines' file
      | (None, file) =>
        {| result := None; engines := engines'; file := file;
           printed := [checkMark +:+ " Added search engine: " +:+ name +:+ " (" +:+ key
                       +:+ ") -> " +:+ url +:+ String newline ""] |}
      end
    end.

(** One turn of the loop of [remove-engine] on [found], [newEngines] and
    [removedEngine]. *)
Definition removeStep (key : string) (st : bool * list SearchEngine * SearchEngine)
    (engine : SearchEngine) : bool * list SearchEngine * SearchEngine :=
  let '(found, newEngines, removedEngine) := st in
  if String.eqb (Key engine) key then (true, newEngines, engine)
  else (found, newEngines ++ [engine], removedEngine).

(** [remove-engine key], after [loadConfig]. *)
Definition removeEngine (loaded : list SearchEngine) (key : string) : Outcome :=
  let '(found, newEngines, removedEngine) :=
    fold_left (removeStep key) loaded
              (false, [], {| Name := ""; URL := ""; Key := "" |}) in
  if negb found
  then failed ("no search engine found with key '" +:+ key +:+ "'") loaded Untouched
  else
    match saveConfig newEngines with
    | (Some e, file) => failed ("failed to save config: " +:+ e) newEngines file
    | (None, file) =>
      {| result := None; engines := newEngines; file := file;
         printed := [checkMark +:+ " Removed search engine: " +:+ Name removedEngine
                     +:+ " (" +:+ key +:+ ")" +:+ String newline ""] |}
    end.

(** The loop of [edit-engine] from index [i] on, [rest] being the engines
    from there. *)
Fixpoint editLoop (all : list SearchEngine) (i : nat) (rest : list SearchEngine)
    (oldKey newName newURL newKey : string) : Outcome :=
  match rest with
  | [] => failed ("no search engine found with key '" +:+ oldKey +:+ "'") all Untouched
  | engine :: rest' =>
    if String.eqb (Key engine) oldKey
    then
      match (if negb (String.eqb newKey oldKey)
             then find (fun otherEngine =>
                          String.eqb (Key otherEngine) newKey
                          && negb (String.eqb (Key otherEngine) oldKey)) all
             else None) with
      | Some otherEngine =>
        failed ("key '" +:+ newKey +:+ "' already exists for engine '"
                +:+ Name otherEngine +:+ "'") all Untouched
      | None =>
        let engines' := <[i := {| Name := newName; URL := newURL; Key := newKey |}]> all in
        match saveConfig engines' with
        | (Some e, file) => failed ("failed to save config: " +:+ e) engines' file
        | (None, file) =>
          {| result := None; engines := engines'; file := file;
             printed :=
               [checkMark +:+ " Updated search engine:" +:+ String newline "";
                "   Old: " +:+ Name engine +:+ " (" +:+ Key engine +:+ ") -> "
                  +:+ URL engine +:+ String newline "";
                "   New: " +:+ newName +:+ " (" +:+ newKey +:+ ") -> "
                  +:+ newURL +:+ String newline ""] |}
        end
      end
    else editLoop all (S i) rest' oldKey newName newURL newKey
  end.

(** [edit-engine key name url new-key], after [loadConfig]. *)
Definition editEngine (loaded : list SearchEngine) (oldKey newName newURL newKey : string)
    : Outcome :=
  if negb (String.length newKey =? 1)%nat
  then failed ("key must be a single character, got: " +:+ newKey) loaded Untouched
  else if negb (Contains newURL "%s")
  then failed "URL must contain %s placeholder for query substitution" loaded Untouched
  else editLoop loaded 0 loaded oldKey newName newURL newKey.

End Commands.
End Engines.

(* ================================================================== *)
(** * The search command: menu, prompt, log and open *)
(* ================================================================== *)

Module Search.
Import Go Normalizer Sys Rabbithole Engines.

(** [strings.Join(elems, sep)]. *)
Fixpoint Join (elems : list string) (sep : string) : string :=
  match elems with
  | [] => ""
  | [x] => x
  | x :: rest => x +:+ sep +:+ Join rest sep
  end.

(** [strings.SplitN(s, sep, 2)] for a separator of one byte: the text
    before the first separator and the text after it, or [s] alone. *)
Fixpoint SplitN2 (s : string) (sep : ascii) : list string :=
  match s with
  | EmptyString => [""]
  | String c r =>
    if Ascii.eqb c sep then [""; r]
    else match SplitN2 r sep with
         | piece :: pieces => String c piece :: pieces
         | [] => [String c ""]
         end
  end.

(** A row of the table [searches], without the columns the store fills
    in. *)
Record SearchRow : Type := mkSearchRow {
  query : string;
  engine_name : string;
  engine_url : string;
  trigger_method : string;
  session_id : string
}.

(** The desktop of a search: the world of the window code, the rows of
    [searches] in the same database, and what each [dmenu] was given: its
    arguments and its standard input. *)
Record Desk : Type := mkDesk {
  world : World;
  searches : list SearchRow;
  menus : list (list string * string)
}.

Definition DM (A : Type) : Type := Desk -> option (A * Desk).

#[global] Instance DM_ret : MRet DM := fun A a d => Some (a, d).
#[global] Instance DM_bind : MBind DM := fun A B f m d =>
  match m d with
  | Some (a, d') => f a d'
  | None => None
  end.

(** A computation of the window code, run on the desktop. *)
Definition lift {A : Type} (m : M A) : DM A := fun d =>
  match m (world d) with
  | Some (a, w') => Some (a, {| world := w'; searches := searches d; menus := menus d |})
  | None => None
  end.

Section Program.
Variable E : Env.
Variable config : Config.
Variable Sscanf_dimensions : string -> Z * Z.

(** [config.SearchEngines] and [config.Interface.DmenuArgs]. *)
Variable SearchEngines : list SearchEngine.
Variable DmenuArgs : list string.

(** How a [dmenu] ends that is given these arguments and this standard
    input ([None]: it never exits), whether the insert into [searches]
    fails, and [time.Format("2006-01-02")] of a time in milliseconds. *)
Variable dmenu : list Event -> list string -> string -> option Exit.
Variable insertFault : list Event -> SearchRow -> error.
Variable Format_date : Z -> string.

(** [cmd := exec.Command("dmenu", args...); cmd.Stdin = strings.NewReader(input);
    cmd.Output()]. *)
Definition dmenuOutput (args : list string) (input : string) : DM Exit := fun d =>
  match dmenu (events (world d)) args input with
  | Some x =>
    Some (x, {| world := record (Ran ("dmenu" :: args))
                                (advance (Z.of_N (elapsed x)) (world d));
                searches := searches d;
                menus := menus d ++ [(args, input)] |})
  | None => None
  end.

Definition noEngine : SearchEngine := {| Name := ""; URL := ""; Key := "" |}.

Definition showSearchMenu (query : string) : DM (SearchEngine * string * error) :=
  let options := (fun engine => Key engine +:+ ": " +:+ Name engine) <$> SearchEngines in
  let engineMap : gmap string SearchEngine :=
    foldl (fun m engine => <[Key engine := engine]> m) ∅ SearchEngines in
  let prompt := "Search with:" in
  let dmenuArgs := ["-i"; "-p"; prompt] ++ DmenuArgs in
  let input := Join options (String newline "") in
  x ← dmenuOutput dmenuArgs input;
  match failure x with
  | Some err => mret (noEngine, "", Some ("dmenu failed: " +:+ err))
  | None =>
    let selected := TrimSpace (stdout x) in
    if String.eqb selected "" then mret (noEngine, "", Some "no selection made")
    else
      let parts := SplitN2 selected ":" in
      let key := TrimSpace (hd "" parts) in
      match engineMap !! key with
      | None => mret (noEngine, "", Some ("invalid selection: " +:+ selected))
      | Some engine => mret (engine, selected, None)
      end
  end.

Definition logSearch (query engineName engineURL triggerMethod : string) : DM error :=
  fun d =>
  match db (world d) with
  | None => Some (Some "database not initialized", d)
  | Some _ =>
    let sessionID := Format_date (clock (world d)) in
    let row := {| query := query; engine_name := engineName; engine_url := engineURL;
                  trigger_method := triggerMethod; session_id := sessionID |} in
    let err := insertFault (events (world d)) row in
    Some (err,
          {| world := world d;
             searches := match err with
                         | None => searches d ++ [row]
                         | Some _ => searches d
                         end;
             menus := menus d |})
  end.

Definition isPromptArg (arg : string) : bool :=
  negb (String.eqb arg "-i") && negb (String.eqb arg "-p")
  && negb (String.eqb arg "Search with:").

Definition handleSearch (query triggerMethod : string) : DM error :=
  '(engine, _, err) ← showSearchMenu query;
  match err with
  | Some err => mret (Some ("menu selection failed: " +:+ err))
  | None =>
    r ← (if String.eqb query ""
         then
           let dmenuInputArgs :=
             ["-i"; "-p"; "Enter search query:"] ++ List.filter isPromptArg DmenuArgs in
           x ← dmenuOutput dmenuInputArgs "";
           match failure x with
           | Some err => mret (inr ("query input failed: " +:+ err))
           | None =>
             let query := TrimSpace (stdout x) in
             if String.eqb query "" then mret (inr "empty query, aborting")
             else mret (inl query)
           end
         else mret (inl query));
    match r with
    | inr err => mret (Some err)
    | inl query =>
      err ← logSearch query (Name engine) (URL engine) triggerMethod;
      match err with
      | Some err => lift (logPrintf ("Failed to log search: " +:+ err))
      | None => mret tt
      end;;
      err ← lift (openBrowserInSideWindow E config Sscanf_dimensions (URL engine) query);
      match err with
      | Some err => mret (Some ("failed to open browser: " +:+ err))
      | None => mret None
      end
    end
  end.

(** The [RunE] closure of the command [search], once [ensureConfigAndDB]
    has succeeded; [empty] is the flag [--empty]. *)
Definition searchRun (empty : bool) : DM error :=
  '(query, triggerMethod) ←
    (if empty then mret ("", "manual")
     else
       '(query, err) ← lift (captureSelectionSafely E config);
       match err with
       | Some err =>
         lift (logPrintf ("Selection capture failed, falling back to manual entry: "
                          +:+ err));;
         mret ("", "manual")
       | None => mret (query, "selection")
       end);
  handleSearch query triggerMethod.

End Program.
End Search.

(* ================================================================== *)
(** * Vocabulary and concrete environments for the search command *)
(* ================================================================== *)

Module SearchProps.
Import Go Normalizer WindowIDSpec Sys Rabbithole Engines Search Scenarios MoreScenarios.

(** The arguments and the standard input of the engine menu, and the
    arguments of the prompt for the query. *)
Definition menuArgs (DmenuArgs : list string) : list string :=
  ["-i"; "-p"; "Search with:"] ++ DmenuArgs.

Definition menuInput (SearchEngines : list SearchEngine) : string :=
  Join ((fun engine => Key engine +:+ ": " +:+ Name engine) <$> SearchEngines)
       (String newline "").

Definition promptArgs (DmenuArgs : list string) : list string :=
  ["-i"; "-p"; "Enter search query:"] ++ List.filter isPromptArg DmenuArgs.

(** The desktop after a [dmenu] that ended with [x]. *)
Definition asked (args : list string) (input : string) (x : Exit) (d : Desk) : Desk :=
  {| world := record (Ran ("dmenu" :: args)) (advance (Z.of_N (elapsed x)) (world d));
     searches := searches d;
     menus := menus d ++ [(args, input)] |}.

Definition isDmenuRun (e : Event) : Prop := exists args, e = Ran ("dmenu" :: args).

Definition isStarted (e : Event) : bool :=
  match e with
  | Started _ => true
  | _ => false
  end.

(** [w'] comes from [w] by events that start no process. *)
Definition startsNothing (w w' : World) : Prop :=
  exists rest, events w' = events w ++ rest /\ Forall (fun e => isStarted e = false) rest.

(** The bytes [url.QueryEscape] lets through or produces. *)
Definition isEscaped (c : ascii) : bool :=
  isUnreserved c || Ascii.eqb c "+" || Ascii.eqb c "%".

(** The arguments [openBrowserInSideWindow] gives to Firefox. *)
Definition firefoxArgsOf (config : Config) (searchURL query : string) : list string :=
  let finalURL := ReplaceAllPercentS searchURL (QueryEscape query) in
  if bool_decide (FirefoxProfile config = "") then ["--new-window"; finalURL]
  else ["--new-window"; "--profile"; FirefoxProfile config; finalURL].

(** Between [w] and [w'] the program has called [Start] once, for Firefox
    at the address [url] with the query [query], and has started no other
    process; [outcome] is what that call of [Start] returned, [None] when
    Firefox has started. *)
Definition launchedWith (E : Env) (config : Config) (url query : string)
    (outcome : error) (w w' : World) : Prop :=
  exists pre rest,
    events w' = events w ++ pre
                ++ [Started ("firefox" :: firefoxArgsOf config url query)] ++ rest
    /\ Forall (fun e => isStarted e = false) pre
    /\ Forall (fun e => isStarted e = false) rest
    /\ start E (events w ++ pre) ("firefox" :: firefoxArgsOf config url query) = outcome.

(** The desktop a computation leaves. *)
Definition afterDesk {A : Type} (m : DM A) (d : Desk) : Desk :=
  match m d with
  | Some (_, d') => d'
  | None => d
  end.

(** The key [showSearchMenu] reads from the output of the menu. *)
Definition chosenKey (out : string) : string :=
  TrimSpace (hd "" (SplitN2 (TrimSpace out) ":")).

(** The row [logSearch] inserts on the desktop [d]. *)
Definition rowOf (Format_date : Z -> string) (engine : SearchEngine)
    (query triggerMethod : string) (d : Desk) : SearchRow :=
  {| query := query; engine_name := Name engine; engine_url := URL engine;
     trigger_method := triggerMethod; session_id := Format_date (clock (world d)) |}.

(** The desktop [d3] after the search was logged on [d2], or was not and
    the failure was written to the log file. *)
Definition logStep (insertFault : list Event -> SearchRow -> error)
    (Format_date : Z -> string) (engine : SearchEngine) (query triggerMethod : string)
    (d2 d3 : Desk) : Prop :=
  menus d3 = menus d2
  /\ ((db (world d2) <> None
       /\ insertFault (events (world d2)) (rowOf Format_date engine query triggerMethod d2)
          = None
       /\ world d3 = world d2
       /\ searches d3 = searches d2 ++ [rowOf Format_date engine query triggerMethod d2])
      \/ (exists e,
            (match db (world d2) with
             | None => e = "database not initialized"
             | Some _ =>
               insertFault (events (world d2))
                           (rowOf Format_date engine query triggerMethod d2) = Some e
             end)
            /\ world d3 = record (Logged ("Failed to log search: " +:+ e)) (world d2)
            /\ searches d3 = searches d2)).

(** The second half of [handleSearch]: from the desktop [d2], the search
    is logged and the browser opened; [r] is what [handleSearch] returns. *)
Definition launched (E : Env) (config : Config) (Sscanf_dimensions : string -> Z * Z)
    (insertFault : list Event -> SearchRow -> error) (Format_date : Z -> string)
    (engine : SearchEngine) (query triggerMethod : string)
    (d2 : Desk) (r : error) (d' : Desk) : Prop :=
  exists d3 ro w',
    logStep insertFault Format_date engine query triggerMethod d2 d3
    /\ openBrowserInSideWindow E config Sscanf_dimensions (URL engine) query (world d3)
       = Some (ro, w')
    /\ d' = {| world := w'; searches := searches d3; menus := menus d3 |}
    /\ r = match ro with
           | Some e => Some ("failed to open browser: " +:+ e)
           | None => None
           end.

(** The engines of the default configuration file of the repository's
    kind: three engines with distinct keys. *)
Definition enginesThree : list SearchEngine :=
  [ {| Name := "Kagi"; URL := "https://kagi.com/search?q=%s"; Key := "k" |};
    {| Name := "Wikipedia"; URL := "https://en.wikipedia.org/wiki/Special:Search?search=%s";
       Key := "w" |};
    {| Name := "GitHub"; URL := "https://github.com/search?q=%s"; Key := "g" |} ].

Definition saveWorks (_ : list SearchEngine) : option SaveFault := None.

Definition deskEmpty : Desk := {| world := worldEmpty; searches := []; menus := [] |}.

Definition dateFixed (_ : Z) : string := "2024-05-01".

Definition insertWorks (_ : list Event) (_ : SearchRow) : error := None.

(** The user picks Wikipedia in the menu and types a query at the prompt. *)
Definition dmenuPicksW (h : list Event) (args : list string) (input : string)
    : option Exit :=
  if isCmd args (menuArgs []) then ok 900 (line "w: Wikipedia")
  else ok 2500 (line "  coq proof assistant ").

(** The user picks Wikipedia and leaves the prompt empty. *)
Definition dmenuEmptyQuery (h : list Event) (args : list string) (input : string)
    : option Exit :=
  if isCmd args (menuArgs []) then ok 900 (line "w: Wikipedia")
  else ok 300 "".

(** The user leaves the menu with Escape. *)
Definition dmenuEscape (h : list Event) (args : list string) (input : string)
    : option Exit :=
  Some {| elapsed := 400; stdout := ""; failure := Some "exit status 1" |}.

(** An engine with the key [:], as [add-engine] accepts it, and its line
    picked in the menu. *)
Definition enginesColon : list SearchEngine :=
  [ {| Name := "Kagi"; URL := "https://kagi.com/search?q=%s"; Key := "k" |};
    {| Name := "Colon"; URL := "https://example.org/?q=%s"; Key := ":" |} ].

Definition pickedColon : Exit :=
  {| elapsed := 900; stdout := line ":: Colon"; failure := None |}.

Definition dmenuPicksColon (h : list Event) (args : list string) (input : string)
    : option Exit := Some pickedColon.

Definition pickedW : Exit :=
  {| elapsed := 900; stdout := line "w: Wikipedia"; failure := None |}.

Definition wikipedia : SearchEngine :=
  {| Name := "Wikipedia"; URL := "https://en.wikipedia.org/wiki/Special:Search?search=%s";
     Key := "w" |}.

Definition rowMonads : SearchRow :=
  {| query := "monads"; engine_name := "Wikipedia";
     engine_url := "https://en.wikipedia.org/wiki/Special:Search?search=%s";
     trigger_method := "selection"; session_id := "2024-05-01" |}.

(** The selection holds a text; [xsel] prints it. *)
Definition envSelection : Env :=
  {| run := fun h argv =>
       if isCmd argv ["xsel"; "-p"] then ok 3 (line "monads")
       else if isCmd argv ["wmctrl"; "-l"]
       then Some (if (length h <? 7)%nat then listingReused else listingNew)
       else ok 0 "";
     start := fun _ _ => None;
     sqlFault := fun _ _ => None |}.

End SearchProps.

(* ================================================================== *)
(** * Proofs *)
(* ================================================================== *)

Import Go Normalizer WindowIDSpec Sys Rabbithole Props Listing Scenarios.




Lemma byte_bound c : (byte c < 256)%N.
Proof. apply N_ascii_bounded. Qed.

Lemma ascii_of_byte c : ascii_of_N (byte c) = c.
Proof. apply ascii_N_embedding. Qed.

Lemma append_nil s : "" +:+ s = s.
Proof. reflexivity. Qed.

Lemma append_cons c s t : String c s +:+ t = String c (s +:+ t).
Proof. reflexivity. Qed.

Ltac sapp := rewrite ?append_cons, ?append_nil.

Lemma HasPrefix_app p s : HasPrefix (p +:+ s) p = true.
Proof.
  induction p as [|c p IH]; sapp; simpl; [done|].
  rewrite IH, Ascii.eqb_refl. done.
Qed.

Lemma app_nil_r_string s : s +:+ "" = s.
Proof. induction s; sapp; congruence. Qed.

Lemma app_assoc_string a b c : (a +:+ b) +:+ c = a +:+ (b +:+ c).
Proof. induction a; sapp; congruence. Qed.

Lemma length_app_string a b : String.length (a +:+ b) = (String.length a + String.length b)%nat.
Proof. induction a; sapp; simpl; congruence. Qed.

(** Strings grow at the right end too. *)
Lemma string_snoc_inv s :
  s = "" ∨ ∃ s' c, s = s' +:+ String c "" .
Proof.
  induction s as [|a s IH]; [by left|right].
  destruct IH as [->|(s' & c & ->)].
  - by exists "", a.
  - by exists (String a s'), c.
Qed.

Lemma string_snoc_ind (P : string → Prop) :
  P "" → (∀ s c, P s → P (s +:+ String c "")) → ∀ s, P s.
Proof.
  intros H0 Hs s.
  remember (String.length s) as n eqn:Hn.
  revert s Hn. induction n as [|n IH]; intros s Hn.
  - destruct s; [done|discriminate].
  - destruct (string_snoc_inv s) as [->|(s' & c & ->)]; [done|].
    apply Hs, IH. rewrite length_app_string in Hn. simpl in Hn. lia.
Qed.

Lemma positional_snoc base digitOf s c :
  positional base digitOf (s +:+ String c "") =
  (base * positional base digitOf s + digitOf c)%N.
Proof.
  induction s as [|a s IH]; sapp; simpl.
  - lia.
  - rewrite IH, length_app_string. simpl.
    replace (N.of_nat (String.length s + 1)) with (N.succ (N.of_nat (String.length s))) by lia.
    rewrite N.pow_succ_r'. lia.
Qed.

Lemma allOf_snoc p s c : allOf p (s +:+ String c "") = allOf p s && p c.
Proof.
  induction s as [|a s IH]; sapp; simpl.
  - by rewrite andb_true_r.
  - rewrite IH. by rewrite andb_assoc.
Qed.

Lemma hexDigitValue_bound c : isLowerHexDigit c = true → (hexDigitValue c < 16)%N.
Proof.
  unfold isLowerHexDigit, hexDigitValue, isDecimalDigit.
  destruct ((48 <=? byte c)%N && (byte c <=? 57)%N) eqn:Hd; simpl; intros H.
  - apply andb_true_iff in Hd as [H1 H2].
    apply N.leb_le in H1. apply N.leb_le in H2. lia.
  - apply andb_true_iff in H as [H1 H2].
    apply N.leb_le in H1. apply N.leb_le in H2. lia.
Qed.

Lemma hexDigit_value c : isLowerHexDigit c = true → hexDigit (hexDigitValue c) = c.
Proof.
  unfold isLowerHexDigit, hexDigitValue, isDecimalDigit, hexDigit.
  destruct ((48 <=? byte c)%N && (byte c <=? 57)%N) eqn:Hd; simpl; intros H.
  - apply andb_true_iff in Hd as [H1 H2].
    apply N.leb_le in H1. apply N.leb_le in H2.
    replace (byte c - 48 <? 10)%N with true by (symmetry; apply N.ltb_lt; lia).
    replace (48 + (byte c - 48))%N with (byte c) by lia. apply ascii_of_byte.
  - apply andb_true_iff in H as [H1 H2].
    apply N.leb_le in H1. apply N.leb_le in H2.
    replace (byte c - 87 <? 10)%N with false by (symmetry; apply N.ltb_ge; lia).
    replace (87 + (byte c - 87))%N with (byte c) by lia. apply ascii_of_byte.
Qed.

Lemma positional_hex_bound ds :
  allOf isLowerHexDigit ds = true →
  (positional 16 hexDigitValue ds < 16 ^ N.of_nat (String.length ds))%N.
Proof.
  induction ds as [|c ds IH]; cbn [positional allOf String.length]; intros H.
  - simpl. lia.
  - apply andb_true_iff in H as [Hc Hds].
    specialize (IH Hds). apply hexDigitValue_bound in Hc.
    rewrite Nat2N.inj_succ, N.pow_succ_r'. nia.
Qed.


Lemma fixedOnto_positional ds acc :
  allOf isLowerHexDigit ds = true →
  fixedOnto (String.length ds) (positional 16 hexDigitValue ds) acc = ds +:+ acc.
Proof.
  revert acc. induction ds as [|ds c IH] using string_snoc_ind; intros acc H; [done|].
  rewrite allOf_snoc in H. apply andb_true_iff in H as [Hds Hc].
  rewrite positional_snoc, length_app_string. simpl.
  replace (String.length ds + 1)%nat with (S (String.length ds)) by lia. simpl.
  pose proof (hexDigitValue_bound c Hc) as Hb.
  replace ((16 * positional 16 hexDigitValue ds + hexDigitValue c) / 16)%N
    with (positional 16 hexDigitValue ds).
  2:{ symmetry. rewrite N.mul_comm, N.div_add_l by lia. rewrite N.div_small by lia. lia. }
  replace ((16 * positional 16 hexDigitValue ds + hexDigitValue c) mod 16)%N
    with (hexDigitValue c).
  2:{ symmetry. rewrite N.add_comm, N.mul_comm, N.Div0.mod_add. apply N.mod_small; lia. }
  rewrite hexDigit_value by done. rewrite IH by done.
  by rewrite app_assoc_string.
Qed.

Lemma zeros_snoc k acc : zeros k +:+ String "0" acc = String "0" (zeros k +:+ acc).
Proof. induction k as [|k IH]; simpl; sapp; [done|]. by rewrite IH. Qed.

Lemma fixedOnto_zero k acc : fixedOnto k 0 acc = zeros k +:+ acc.
Proof.
  revert acc. induction k as [|k IH]; intros acc; simpl; [done|].
  change (0 / 16)%N with 0%N. change (0 mod 16)%N with 0%N.
  rewrite IH. change (hexDigit 0) with "0"%char. apply zeros_snoc.
Qed.

Lemma length_fixedOnto k n acc :
  String.length (fixedOnto k n acc) = (k + String.length acc)%nat.
Proof.
  revert n acc. induction k as [|k IH]; intros n acc; simpl; [done|].
  rewrite IH. simpl. lia.
Qed.

(** Go's digit loop writes the digits of [n] up to its leading digit; a
    fixed width [k] that holds [n] pads them with zeros. *)
Lemma hexDigitsOnto_fixed fuel : ∀ n acc k,
  (n < 16 ^ N.of_nat fuel)%N → (1 ≤ fuel)%nat → (n < 16 ^ N.of_nat k)%N → (1 ≤ k)%nat →
  ∃ j, (1 ≤ j ≤ k)%nat ∧
       hexDigitsOnto fuel n acc = fixedOnto j n acc ∧
       fixedOnto k n acc = zeros (k - j) +:+ fixedOnto j n acc.
Proof.
  induction fuel as [|fuel IH]; intros n acc k Hfuel Hfuel1 Hk Hk1; [lia|].
  simpl. destruct (n / 16 =? 0)%N eqn:Hq.
  + apply N.eqb_eq in Hq. exists 1%nat. split; [lia|]. split; [done|].
      destruct k as [|k]; [lia|]. simpl. rewrite Hq, fixedOnto_zero.
      by replace (k - 0)%nat with k by lia.
    + apply N.eqb_neq in Hq.
      destruct k as [|k]; [lia|].
      assert (16 ≤ n)%N as Hn16.
      { destruct (N.lt_ge_cases n 16) as [Hlt|]; [|done].
        apply N.div_small in Hlt. contradiction. }
      assert (1 ≤ k)%nat as Hk1'.
      { destruct k; [|lia]. simpl in Hk. lia. }
      assert (1 ≤ fuel)%nat as Hf1'.
      { destruct fuel; [|lia]. simpl in Hfuel. lia. }
      destruct (IH (n / 16)%N (String (hexDigit (n mod 16)) acc) k) as (j & Hj & He & Hf).
      * apply N.Div0.div_lt_upper_bound.
        replace (N.of_nat (S fuel)) with (N.succ (N.of_nat fuel)) in Hfuel by lia.
        by rewrite N.pow_succ_r' in Hfuel.
      * done.
      * apply N.Div0.div_lt_upper_bound.
        replace (N.of_nat (S k)) with (N.succ (N.of_nat k)) in Hk by lia.
        by rewrite N.pow_succ_r' in Hk.
      * done.
      * exists (S j). split; [lia|]. simpl. split; [done|].
        rewrite Hf. by replace (S k - S j)%nat with (k - j)%nat by lia.
Qed.

Lemma digitsValue_positional s : ∀ acc,
  digitsValue acc s =
  (acc * 10 ^ N.of_nat (String.length s) + positional 10 decimalDigitValue s)%N.
Proof.
  induction s as [|c s IH]; intros acc; cbn [digitsValue positional String.length].
  - simpl. lia.
  - rewrite IH, Nat2N.inj_succ, N.pow_succ_r'. unfold decimalDigitValue. lia.
Qed.

Lemma allDigits_allOf s : allDigits s = allOf isDecimalDigit s.
Proof. induction s as [|c s IH]; simpl; [done|]. by rewrite IH. Qed.

Lemma decimalDigit_not_sign c :
  isDecimalDigit c = true → Ascii.eqb c "-" = false ∧ Ascii.eqb c "+" = false ∧ Ascii.eqb c "x" = false.
Proof.
  intros H. repeat split.
  all: destruct (Ascii.eqb_spec c "-"), (Ascii.eqb_spec c "+"), (Ascii.eqb_spec c "x");
    subst; try done; vm_compute in H; discriminate.
Qed.

(** A decimal string parses: [Atoi] gives its value when that fits [int]. *)
Lemma Atoi_decimal d :
  isDecimalString d = true → (Z.of_N (decimalValue d) <= maxInt)%Z →
  Atoi d = Some (Z.of_N (decimalValue d)).
Proof.
  unfold isDecimalString. intros Hd Hmax.
  apply andb_true_iff in Hd as [Hne Hall].
  destruct d as [|c r]; [done|].
  pose proof Hall as Hall'. cbn [allOf] in Hall'.
  apply andb_true_iff in Hall' as [Hc _].
  destruct (decimalDigit_not_sign c Hc) as (Hm & Hp & _).
  unfold Atoi. rewrite Hm, Hp.
  rewrite allDigits_allOf, Hall.
  rewrite digitsValue_positional. rewrite N.mul_0_l, N.add_0_l.
  fold (decimalValue (String c r)).
  replace (minInt <=? Z.of_N (decimalValue (String c r)))%Z with true
    by (symmetry; apply Z.leb_le; unfold minInt; lia).
  replace (Z.of_N (decimalValue (String c r)) <=? maxInt)%Z with true
    by (symmetry; by apply Z.leb_le).
  done.
Qed.

Lemma decimal_not_hex_prefixed d : isDecimalString d = true → HasPrefix d "0x" = false.
Proof.
  unfold isDecimalString. intros Hd.
  apply andb_true_iff in Hd as [_ Hall].
  destruct d as [|c [|c' r]]; simpl; [done|by rewrite andb_false_r|].
  cbn [allOf] in Hall.
  apply andb_true_iff in Hall as [_ Hall]. apply andb_true_iff in Hall as [Hc' _].
  destruct (decimalDigit_not_sign c' Hc') as (_ & _ & ->).
  by rewrite andb_false_r.
Qed.

Lemma FormatHex_padded n ds :
  String.length ds = 8%nat → allOf isLowerHexDigit ds = true →
  positional 16 hexDigitValue ds = n →
  padZeros 8 (FormatHex n) = ds.
Proof.
  intros Hlen Hall Hval.
  pose proof (positional_hex_bound ds Hall) as Hb. rewrite Hlen, Hval in Hb.
  assert (n < 16 ^ N.of_nat (S (N.to_nat (N.log2 n))))%N as Hfuel.
  { destruct (N.eq_dec n 0%N) as [->|Hn0]; [done|].
    pose proof (N.log2_spec n ltac:(lia)) as [_ Hlt].
    eapply N.lt_le_trans; [exact Hlt|].
    rewrite Nat2N.inj_succ, N2Nat.id.
    apply N.pow_le_mono_l. lia. }
  destruct (hexDigitsOnto_fixed _ n "" 8 Hfuel ltac:(lia) Hb ltac:(lia))
    as (j & Hj & He & Hf).
  unfold padZeros, FormatHex. rewrite He, length_fixedOnto. simpl String.length.
  replace (8 - (j + 0))%nat with (8 - j)%nat by lia.
  rewrite <- Hf, <- Hval, <- Hlen.
  rewrite fixedOnto_positional by done. apply app_nil_r_string.
Qed.

Lemma isCanonicalHex_inv h :
  isCanonicalHex h = true →
  ∃ ds, h = "0x" +:+ ds ∧ String.length ds = 8%nat ∧ allOf isLowerHexDigit ds = true.
Proof.
  intros Hh. destruct h as [|c0 h']; [done|].
  destruct c0 as [[] [] [] [] [] [] [] []]; try done.
  destruct h' as [|c1 ds]; [done|].
  destruct c1 as [[] [] [] [] [] [] [] []]; try done.
  simpl in Hh. apply andb_true_iff in Hh as [Hl Ha].
  apply Nat.eqb_eq in Hl. by exists ds.
Qed.

(** C6: a decimal string and the canonical hex string (prefix [0x], eight
    lower-case hex digits) that denote the same integer have the same
    normal form: [normalizeWindowID] turns the decimal string into that hex
    string and returns the hex string as it is. *)
Theorem normalize_decimal_equals_hex_C6 (d h : string) :
  isDecimalString d = true →
  isCanonicalHex h = true →
  decimalValue d = hexValue h →
  normalizeWindowID d = normalizeWindowID h
  ∧ normalizeWindowID d = h
  ∧ normalizeWindowID h = h.
Proof.
  intros Hd Hh Hv.
  destruct (isCanonicalHex_inv h Hh) as (ds & -> & Hlen & Hall).
  assert (normalizeWindowID ("0x" +:+ ds) = "0x" +:+ ds) as Hnh.
  { unfold normalizeWindowID. by rewrite HasPrefix_app. }
  assert (normalizeWindowID d = "0x" +:+ ds) as Hnd.
  { unfold normalizeWindowID. rewrite decimal_not_hex_prefixed by done.
    change (hexValue ("0x" +:+ ds)) with (positional 16 hexDigitValue ds) in Hv.
    pose proof (positional_hex_bound ds Hall) as Hb. rewrite Hlen, <- Hv in Hb.
    rewrite Atoi_decimal; [|done|unfold maxInt; simpl in Hb; lia].
    unfold Sprintf_08x.
    replace (Z.of_N (decimalValue d) <? 0)%Z with false by (symmetry; apply Z.ltb_ge; lia).
    rewrite N2Z.id. by rewrite (FormatHex_padded _ ds). }
  by rewrite Hnd, Hnh.
Qed.

Lemma normalize_decimal_equals_hex_C6_witness :
  normalizeWindowID "54525955" = normalizeWindowID "0x03400003"
  ∧ normalizeWindowID "54525955" = "0x03400003"
  ∧ normalizeWindowID "0x03400003" = "0x03400003".
Proof.
  apply normalize_decimal_equals_hex_C6; reflexivity.
Defined.

(** C10: an input that already carries the prefix [0x] is returned as it is,
    without padding, so that ["0x7b"] and ["123"], which denote the same
    window, get normal forms that differ. *)
Theorem normalize_keeps_hex_prefixed_C10 :
  (∀ s, normalizeWindowID ("0x" +:+ s) = "0x" +:+ s)
  ∧ normalizeWindowID "0x7b" = "0x7b"
  ∧ normalizeWindowID "123" = "0x0000007b"
  ∧ normalizeWindowID "0x7b" ≠ normalizeWindowID "123"
  ∧ hexValue "0x7b" = decimalValue "123".
Proof.
  split; [|repeat split; done].
  intros s. unfold normalizeWindowID. by rewrite HasPrefix_app.
Qed.

(** ** Running computations *)

Lemma bind_run {A B} (m : M A) (f : A → M B) w :
  (m ≫= f) w = match m w with Some (a, w') => f a w' | None => None end.
Proof. reflexivity. Qed.

Lemma ret_run {A} (a : A) w : (mret a : M A) w = Some (a, w).
Proof. reflexivity. Qed.

Lemma dbIsNil_run w :
  dbIsNil w = Some (match db w with None => true | Some _ => false end, w).
Proof. reflexivity. Qed.

Lemma events_record e w : events (record e w) = events w ++ [e].
Proof. reflexivity. Qed.

Lemma db_record e w : db (record e w) = db w.
Proof. reflexivity. Qed.

Lemma clock_record e w : clock (record e w) = clock w.
Proof. reflexivity. Qed.

(** The store returns every row once, in ascending order of the keys. *)
Lemma storedOrder_perm (rows : gmap string Z) : storedOrder rows ≡ₚ elements (dom rows).
Proof. apply merge_sort_Permutation. Qed.

Lemma elem_of_storedOrder (rows : gmap string Z) (k : string) :
  k ∈ storedOrder rows ↔ is_Some (rows !! k).
Proof. by rewrite storedOrder_perm, elem_of_elements, elem_of_dom. Qed.

Lemma NoDup_storedOrder (rows : gmap string Z) : NoDup (storedOrder rows).
Proof. rewrite storedOrder_perm. apply NoDup_elements. Qed.

Lemma length_storedOrder (rows : gmap string Z) : length (storedOrder rows) = size rows.
Proof. by rewrite storedOrder_perm, <- size_dom. Qed.

Lemma Sorted_storedOrder (rows : gmap string Z) : Sorted keyBefore (storedOrder rows).
Proof. apply Sorted_merge_sort. intros a b. apply String.leb_total. Qed.

(** Closed goals: the conjuncts are evaluated. *)
Ltac evaluated :=
  repeat match goal with
         | |- _ ∧ _ => split
         end;
  vm_compute; reflexivity.

Ltac mrun :=
  repeat first
    [ rewrite bind_run
    | rewrite ret_run
    | rewrite dbIsNil_run
    | progress cbv beta iota zeta ].

(** ** The registry *)

Section Registry.
Variable E : Env.

Lemma addResearchWindow_run wid w :
  addResearchWindow E wid w =
  match db w with
  | None => Some (Some "database not initialized", w)
  | Some _ => Exec E (InsertOrReplace (normalizeWindowID wid) (clock w)) w
  end.
Proof. unfold addResearchWindow. mrun. destruct (db w); by mrun. Qed.

Lemma removeResearchWindow_run wid w :
  removeResearchWindow E wid w =
  match db w with
  | None => Some (Some "database not initialized", w)
  | Some _ => Exec E (DeleteWindowID (normalizeWindowID wid)) w
  end.
Proof. unfold removeResearchWindow. mrun. destruct (db w); by mrun. Qed.

Lemma getResearchWindows_ok w l q :
  getResearchWindows E w = Some ((l, None), q) →
  ∃ rows, db w = Some rows ∧ l = storedOrder rows.
Proof.
  unfold getResearchWindows. mrun. destruct (db w) as [rows|] eqn:Hdb; mrun; [|done].
  unfold QueryWindowIDs. rewrite Hdb.
  destruct (sqlFault E (events w) SelectWindowIDs); mrun; [done|].
  intros [= <- <-]. by exists rows.
Qed.

End Registry.


Section Upsert.
Variable E : Env.

Lemma Exec_run s w :
  Exec E s w =
  Some (sqlFault E (events w) s,
        record (Sql s)
          {| db := match sqlFault E (events w) s with
                   | None => applyStmt s <$> db w
                   | Some _ => db w
                   end;
             clock := clock w; events := events w |}).
Proof. reflexivity. Qed.

(** An upsert of a tracked ID keeps the set of tracked IDs. *)
Lemma addResearchWindow_tracked wid w r w' rows :
  db w = Some rows → normalizeWindowID wid ∈ dom rows →
  addResearchWindow E wid w = Some (r, w') →
  ∃ rows', db w' = Some rows' ∧ dom rows' = dom rows.
Proof.
  intros Hdb Hin. rewrite addResearchWindow_run, Hdb, Exec_run.
  intros Hrun. injection Hrun as <- <-. rewrite db_record. cbn [db]. rewrite Hdb.
  destruct (sqlFault E (events w) _); [by exists rows|].
  eexists; split; [done|]. cbn [applyStmt]. rewrite dom_insert_L. set_solver.
Qed.

Lemma times_addResearchWindow_tracked wid n : ∀ w w' rows,
  db w = Some rows → normalizeWindowID wid ∈ dom rows →
  times n (addResearchWindow E wid) w = Some (tt, w') →
  ∃ rows', db w' = Some rows' ∧ dom rows' = dom rows.
Proof.
  induction n as [|n IH]; intros w w' rows Hdb Hin; cbn [times]; mrun.
  - intros [= <-]. by exists rows.
  - destruct (addResearchWindow E wid w) as [[r w1]|] eqn:Hadd; [|done].
    destruct (addResearchWindow_tracked _ _ _ _ _ Hdb Hin Hadd) as (rows1 & Hdb1 & Hdom1).
    intros Hrest.
    destruct (IH w1 w' rows1 Hdb1 ltac:(by rewrite Hdom1) Hrest) as (rows' & ? & ?).
    exists rows'. split; [done|congruence].
Qed.

Lemma addResearchWindow_ok wid w w1 :
  addResearchWindow E wid w = Some (None, w1) →
  ∃ rows, db w = Some rows
          ∧ db w1 = Some (<[normalizeWindowID wid := clock w]> rows).
Proof.
  rewrite addResearchWindow_run. destruct (db w) as [rows|] eqn:Hdb; [|done].
  rewrite Exec_run.
  destruct (sqlFault E (events w) _) eqn:Hf; [done|].
  intros [= <-]. exists rows. split; [done|]. rewrite db_record. cbn [db]. by rewrite Hdb.
Qed.

(** C7: once an ID is registered, registering it again, any number of
    times, leaves the listing of the registry as it is: the same IDs, each
    once; a further successful registration only sets the timestamp of the
    ID to the time of the call. *)
Theorem upsert_idempotent_C7 (wid : string) (n : nat) (w w1 w2 q1 q2 : World)
    (l1 l2 : list string) :
  addResearchWindow E wid w = Some (None, w1) →
  times n (addResearchWindow E wid) w1 = Some (tt, w2) →
  getResearchWindows E w1 = Some ((l1, None), q1) →
  getResearchWindows E w2 = Some ((l2, None), q2) →
  l2 = l1 ∧ length l2 = length l1 ∧ NoDup l2 ∧ normalizeWindowID wid ∈ l2
  ∧ ∀ w3, addResearchWindow E wid w2 = Some (None, w3) →
      ∃ rows2, db w2 = Some rows2
        ∧ db w3 = Some (<[normalizeWindowID wid := clock w2]> rows2)
        ∧ dom (<[normalizeWindowID wid := clock w2]> rows2) = dom rows2.
Proof.
  intros Hfirst Hagain Hl1 Hl2.
  destruct (addResearchWindow_ok _ _ _ Hfirst) as (rows & Hdb & Hdb1).
  assert (normalizeWindowID wid ∈ dom (<[normalizeWindowID wid := clock w]> rows)) as Hin
    by (rewrite dom_insert_L; set_solver).
  destruct (times_addResearchWindow_tracked _ _ _ _ _ Hdb1 Hin Hagain) as (rows2 & Hdb2 & Hdom).
  destruct (getResearchWindows_ok _ _ _ _ Hl1) as (r1 & Hr1 & ->).
  destruct (getResearchWindows_ok _ _ _ _ Hl2) as (r2 & Hr2 & ->).
  rewrite Hdb1 in Hr1. rewrite Hdb2 in Hr2.
  injection Hr1 as <-. injection Hr2 as <-.
  unfold storedOrder. rewrite Hdom. repeat split.
  - apply (NoDup_storedOrder (<[normalizeWindowID wid := clock w]> rows)).
  - apply (elem_of_storedOrder (<[normalizeWindowID wid := clock w]> rows)).
    by apply elem_of_dom.
  - intros w3 H3. destruct (addResearchWindow_ok _ _ _ H3) as (rows3 & Hdb3 & Hdb3').
    rewrite Hdb2 in Hdb3. injection Hdb3 as <-.
    exists rows2. repeat split; [done..|].
    rewrite <- Hdom in Hin. rewrite dom_insert_L. set_solver.
Qed.

End Upsert.

(** Window 123 is registered in an empty registry, then three more times. *)
Lemma upsert_idempotent_C7_witness :
  let add := addResearchWindow envQuiet "123" in
  let w1 := after add worldEmpty in
  let w2 := after (times 3 add) w1 in
  let l := ["0x0000007b"] in
  l = l ∧ length l = length l ∧ NoDup l ∧ normalizeWindowID "123" ∈ l
  ∧ ∀ w3, add w2 = Some (None, w3) →
      ∃ rows2, db w2 = Some rows2
        ∧ db w3 = Some (<[normalizeWindowID "123" := clock w2]> rows2)
        ∧ dom (<[normalizeWindowID "123" := clock w2]> rows2) = dom rows2.
Proof.
  intros add w1 w2 l.
  apply (upsert_idempotent_C7 envQuiet "123" 3 worldEmpty w1 w2
           (after (getResearchWindows envQuiet) w1)
           (after (getResearchWindows envQuiet) w2) l l);
    vm_compute; reflexivity.
Defined.


Section Selection.
Variable E : Env.
Variable config : Config.

Lemma Output_run argv w x :
  run E (events w) argv = Some x →
  Output E argv w = Some (x, record (Ran argv) (advance (Z.of_N (elapsed x)) w)).
Proof. unfold Output. by intros ->. Qed.

Lemma Output_blocked argv w :
  run E (events w) argv = None → Output E argv w = None.
Proof. unfold Output. by intros ->. Qed.

Lemma events_advance ms w : events (advance ms w) = events w.
Proof. reflexivity. Qed.

(** One read of a selection, by what [xsel] answers. *)
Lemma captureFromSelection_run sel flag w x :
  (sel = "primary" ∧ flag = "-p") ∨ (sel = "clipboard" ∧ flag = "-c") →
  run E (events w) ["xsel"; flag] = Some x →
  let w1 := record (Ran ["xsel"; flag]) (advance (Z.of_N (elapsed x)) w) in
  match usableText x with
  | Some t =>
    ∃ msg, captureFromSelection E config sel w = Some ((t, None), record (Logged msg) w1)
           ∧ HasPrefix msg ("Auto-captured from " +:+ ToUpper sel +:+ " selection") = true
  | None =>
    ∃ err, captureFromSelection E config sel w = Some (("", Some err), w1)
  end.
Proof.
  intros Hsel Hrun w1. unfold captureFromSelection, readXSelection.
  rewrite (bool_decide_eq_true_2 (sel = "primary" ∨ sel = "clipboard"))
    by (destruct Hsel as [[-> _]|[-> _]]; auto).
  mrun.
  assert (Output E ("xsel" :: (if bool_decide (sel = "primary") then ["-p"] else ["-c"])) w
          = Some (x, w1)) as ->.
  { destruct Hsel as [[-> ->]|[-> ->]].
    - rewrite bool_decide_eq_true_2 by done. by apply Output_run.
    - rewrite bool_decide_eq_false_2 by done. by apply Output_run. }
  mrun. unfold usableText.
  destruct (failure x) as [e|]; mrun; [by eexists|].
  case_bool_decide; mrun; [by eexists|].
  assert (∀ a b c, HasPrefix ("Auto-captured from " +:+ a +:+ " selection (" +:+ b +:+ c)
                             ("Auto-captured from " +:+ a +:+ " selection") = true) as Hpre.
  { intros a b c.
    replace ("Auto-captured from " +:+ a +:+ " selection (" +:+ b +:+ c)
      with (("Auto-captured from " +:+ a +:+ " selection") +:+ " (" +:+ b +:+ c).
    - apply HasPrefix_app.
    - by rewrite !app_assoc_string. }
  destruct (LogSelections config); mrun; unfold logPrintf; eexists; (split; [done|]); apply Hpre.
Qed.

End Selection.

Section Capture.
Variable E : Env.
Variable config : Config.

Lemma captureSelectionSafely_auto w :
  SelectionMethod config = "auto" →
  captureSelectionSafely E config w =
  match captureFromSelection E config "primary" w with
  | Some ((text, None), w1) => Some ((text, None), w1)
  | Some ((_, Some _), w1) =>
    match captureFromSelection E config "clipboard" w1 with
    | Some ((text, None), w2) => Some ((text, None), w2)
    | Some ((_, Some _), w2) =>
      Some (("", Some "no text in PRIMARY or CLIPBOARD selections"), w2)
    | None => None
    end
  | None => None
  end.
Proof.
  intros Hauto. unfold captureSelectionSafely. rewrite Hauto.
  rewrite !bool_decide_eq_false_2 by done. mrun.
  destruct (captureFromSelection E config "primary" w) as [[[t [e|]] w1]|]; mrun; try done.
  destruct (captureFromSelection E config "clipboard" w1) as [[[t' [e'|]] w2]|]; by mrun.
Qed.

(** C5: under the [auto] policy the resolver reads PRIMARY first and
    returns its text when that read succeeds; otherwise it reads CLIPBOARD
    next and returns its text when that read succeeds; when both reads fail
    it fails with "no text in PRIMARY or CLIPBOARD selections". *)
Theorem capture_auto_order_C5 (w : World) (p : Exit) :
  SelectionMethod config = "auto" →
  run E (events w) ["xsel"; "-p"] = Some p →
  (∀ t, usableText p = Some t →
     ∃ w' msg,
       captureSelectionSafely E config w = Some ((t, None), w')
       ∧ events w' = events w ++ [Ran ["xsel"; "-p"]; Logged msg]
       ∧ HasPrefix msg "Auto-captured from PRIMARY selection" = true)
  ∧ (usableText p = None →
     ∀ c, run E (events w ++ [Ran ["xsel"; "-p"]]) ["xsel"; "-c"] = Some c →
       (∀ t, usableText c = Some t →
          ∃ w' msg,
            captureSelectionSafely E config w = Some ((t, None), w')
            ∧ events w' =
                events w ++ [Ran ["xsel"; "-p"]; Ran ["xsel"; "-c"]; Logged msg]
            ∧ HasPrefix msg "Auto-captured from CLIPBOARD selection" = true)
       ∧ (usableText c = None →
          ∃ w',
            captureSelectionSafely E config w =
              Some (("", Some "no text in PRIMARY or CLIPBOARD selections"), w')
            ∧ events w' = events w ++ [Ran ["xsel"; "-p"]; Ran ["xsel"; "-c"]])).
Proof.
  intros Hauto Hp. rewrite captureSelectionSafely_auto by done.
  pose proof (captureFromSelection_run E config "primary" "-p" w p ltac:(auto) Hp) as H1.
  cbv zeta in H1. split.
  - intros t Ht. rewrite Ht in H1. destruct H1 as (msg & -> & Hmsg).
    eexists _, msg. split; [done|]. split; [|exact Hmsg].
    rewrite !events_record, events_advance, <- app_assoc. done.
  - intros Hnone c Hc. rewrite Hnone in H1. destruct H1 as (err & ->).
    set (w1 := record (Ran ["xsel"; "-p"]) (advance (Z.of_N (elapsed p)) w)).
    assert (events w1 = events w ++ [Ran ["xsel"; "-p"]]) as Hev1 by done.
    rewrite <- Hev1 in Hc.
    pose proof (captureFromSelection_run E config "clipboard" "-c" w1 c ltac:(auto) Hc) as H2.
    cbv zeta in H2. split.
    + intros t Ht. rewrite Ht in H2. destruct H2 as (msg & -> & Hmsg).
      eexists _, msg. split; [done|]. split; [|exact Hmsg].
      rewrite !events_record, events_advance, Hev1, <- !app_assoc. done.
    + intros Hnone2. rewrite Hnone2 in H2. destruct H2 as (err2 & ->).
      eexists. split; [done|].
      rewrite !events_record, events_advance, Hev1, <- !app_assoc. done.
Qed.

End Capture.

(** The example of the specification: PRIMARY holds white space only and
    CLIPBOARD holds ["foo"]; the result is ["foo"], read from CLIPBOARD. *)
Lemma capture_auto_order_C5_witness :
  ∃ w' msg,
    captureSelectionSafely envClipboardFoo configDefault worldEmpty
      = Some (("foo", None), w')
    ∧ events w' = [Ran ["xsel"; "-p"]; Ran ["xsel"; "-c"]; Logged msg]
    ∧ HasPrefix msg "Auto-captured from CLIPBOARD selection" = true.
Proof.
  refine (proj1 (proj2 (capture_auto_order_C5 envClipboardFoo configDefault worldEmpty
            {| elapsed := 3; stdout := line "  "; failure := None |} _ _) _
            {| elapsed := 3; stdout := "foo"; failure := None |} _) "foo" _);
    reflexivity.
Defined.

(** C4: the resolver never consults [selection_timeout_ms].  With the
    default timeout of 1000 ms a read of PRIMARY that takes 5000 ms is
    waited for and its text returned, and a read that never ends blocks the
    resolver; the outcome is the same under every timeout. *)
Theorem selection_read_ignores_timeout_C4 :
  SelectionTimeoutMs configDefault = 1000%Z
  ∧ (∃ w', captureSelectionSafely envSlowXsel configDefault worldEmpty
             = Some (("foo", None), w')
           ∧ clock w' = (clock worldEmpty + 5000)%Z)
  ∧ captureSelectionSafely envStuckXsel configDefault worldEmpty = None
  ∧ ∀ E config ms w,
      captureSelectionSafely E (setSelectionTimeoutMs ms config) w
      = captureSelectionSafely E config w.
Proof.
  split; [reflexivity|]. split; [eexists; split; reflexivity|].
  split; [reflexivity|]. intros E config ms w. reflexivity.
Qed.

(** ** The reconciler *)

Section Cleanup.
Variable E : Env.

Lemma pruned_refl rows : pruned E rows rows.
Proof. intros k. by left. Qed.

Lemma pruned_trans a b c : pruned E a b → pruned E b c → pruned E a c.
Proof.
  intros Hab Hbc k. destruct (Hbc k) as [Hk|[Hk Hh]]; [|by right].
  rewrite Hk. apply Hab.
Qed.

Lemma pruned_delete rows k h :
  sqlFault E h (DeleteWindowID k) = None → pruned E rows (delete k rows).
Proof.
  intros Hh k'. destruct (decide (k' = k)) as [->|Hne].
  - right. rewrite lookup_delete_eq. eauto.
  - left. by rewrite lookup_delete_ne.
Qed.

Lemma pruned_absent rows rows' k : pruned E rows rows' → rows !! k = None → rows' !! k = None.
Proof. intros Hp Hk. destruct (Hp k) as [->|[? _]]; done. Qed.

Lemma pruned_kept rows rows' k :
  pruned E rows rows' → (∀ h, sqlFault E h (DeleteWindowID k) ≠ None) →
  rows' !! k = rows !! k.
Proof. intros Hp Hk. destruct (Hp k) as [|[_ [h Hh]]]; [done|]. by destruct (Hk h). Qed.

Lemma cleanupStep_refl w : cleanupStep E w w.
Proof.
  exists []. rewrite app_nil_r. split; [done|]. split; [done|].
  destruct (db w) as [rows|]; [|done]. exists rows. split; [done|apply pruned_refl].
Qed.

Lemma cleanupStep_trans w1 w2 w3 : cleanupStep E w1 w2 → cleanupStep E w2 w3 → cleanupStep E w1 w3.
Proof.
  intros (evs1 & He1 & Hf1 & Hd1) (evs2 & He2 & Hf2 & Hd2).
  exists (evs1 ++ evs2). split; [by rewrite He2, He1, app_assoc|].
  split; [by apply Forall_app|].
  destruct (db w1) as [rows|].
  - destruct Hd1 as (rows2 & Hdb2 & Hp1). rewrite Hdb2 in Hd2.
    destruct Hd2 as (rows3 & Hdb3 & Hp2). exists rows3. split; [done|].
    by eapply pruned_trans.
  - by rewrite Hd1 in Hd2.
Qed.

Lemma cleanupStep_record e w : isCleanupEvent e = true → cleanupStep E w (record e w).
Proof.
  intros He. exists [e]. split; [done|]. split; [by constructor|].
  rewrite db_record. destruct (db w) as [rows|]; [|done].
  exists rows. split; [done|apply pruned_refl].
Qed.

Lemma removeResearchWindow_step wid w :
  ∃ err w', removeResearchWindow E wid w = Some (err, w') ∧ cleanupStep E w w'.
Proof.
  rewrite removeResearchWindow_run. destruct (db w) as [rows|] eqn:Hdb.
  - rewrite Exec_run. eexists _, _. split; [done|].
    exists [Sql (DeleteWindowID (normalizeWindowID wid))].
    split; [done|]. split; [by constructor|].
    rewrite Hdb, db_record. cbn [db].
    destruct (sqlFault E (events w) _) eqn:Hf.
    + exists rows. split; [done|apply pruned_refl].
    + eexists. split; [done|]. cbn [applyStmt]. by eapply pruned_delete.
  - eexists _, _. split; [done|]. apply cleanupStep_refl.
Qed.

Lemma removeIfDead_step current wid w :
  ∃ w', removeIfDead E current wid w = Some (tt, w') ∧ cleanupStep E w w'.
Proof.
  unfold removeIfDead. case_bool_decide; mrun.
  - eexists. split; [done|]. apply cleanupStep_refl.
  - destruct (removeResearchWindow_step wid w) as (err & w1 & -> & Hstep). mrun.
    destruct err as [err|]; unfold logPrintf; (eexists; split; [done|]);
      (eapply cleanupStep_trans; [exact Hstep|by apply cleanupStep_record]).
Qed.

Lemma forEach_removeIfDead_step current l : ∀ w,
  ∃ w', forEach l (removeIfDead E current) w = Some (tt, w') ∧ cleanupStep E w w'.
Proof.
  induction l as [|wid l IH]; intros w; cbn [forEach]; mrun.
  - eexists. split; [done|]. apply cleanupStep_refl.
  - destruct (removeIfDead_step current wid w) as (w1 & -> & H1). mrun.
    destruct (IH w1) as (w2 & -> & H2). eexists. split; [done|].
    by eapply cleanupStep_trans.
Qed.

Lemma cleanupStep_Output argv w x :
  argv = ["wmctrl"; "-l"] →
  cleanupStep E w (record (Ran argv) (advance (Z.of_N (elapsed x)) w)).
Proof.
  intros ->. exists [Ran ["wmctrl"; "-l"]]. split; [done|]. split; [by constructor|].
  rewrite db_record. cbn [advance db]. destruct (db w) as [rows|]; [|done].
  exists rows. split; [done|apply pruned_refl].
Qed.

(** The reconciler returns unless the window listing never ends, and then
    it has only pruned the registry. *)
Lemma cleanupDeadWindows_step w :
  cleanupDeadWindows E w = None
  ∨ ∃ err w', cleanupDeadWindows E w = Some (err, w') ∧ cleanupStep E w w'.
Proof.
  unfold cleanupDeadWindows. mrun. destruct (db w) as [rows|] eqn:Hdb; mrun.
  2:{ right. eexists _, _. split; [done|]. apply cleanupStep_refl. }
  unfold QueryWindowIDs. rewrite Hdb. mrun.
  assert (cleanupStep E w (record (Sql SelectWindowIDs) w)) as H0
    by by apply cleanupStep_record.
  destruct (sqlFault E (events w) SelectWindowIDs) as [e|]; mrun.
  { right. by eexists _, _. }
  destruct (run E (events (record (Sql SelectWindowIDs) w)) ["wmctrl"; "-l"])
    as [x|] eqn:Hrun; [|left; by rewrite (Output_blocked _ _ _ Hrun)].
  right. rewrite (Output_run _ _ _ _ Hrun). mrun.
  assert (cleanupStep E w (record (Ran ["wmctrl"; "-l"])
            (advance (Z.of_N (elapsed x)) (record (Sql SelectWindowIDs) w)))) as H1.
  { eapply cleanupStep_trans; [exact H0|]. by apply cleanupStep_Output. }
  destruct (failure x) as [e|]; mrun.
  { by eexists _, _. }
  destruct (forEach_removeIfDead_step (currentWIDs (SplitLines (stdout x)))
              (storedOrder rows)
              (record (Ran ["wmctrl"; "-l"])
                 (advance (Z.of_N (elapsed x)) (record (Sql SelectWindowIDs) w))))
    as (w2 & -> & H2).
  mrun. eexists _, _. split; [done|]. by eapply cleanupStep_trans.
Qed.

Lemma cleanupDeadWindows_returns w :
  (∀ h, run E h ["wmctrl"; "-l"] ≠ None) →
  ∃ err w', cleanupDeadWindows E w = Some (err, w') ∧ cleanupStep E w w'.
Proof.
  intros Hlist. destruct (cleanupDeadWindows_step w) as [Hnone|]; [|done].
  exfalso. revert Hnone. unfold cleanupDeadWindows. mrun.
  destruct (db w) as [rows|] eqn:Hdb; mrun; [|done].
  unfold QueryWindowIDs. rewrite Hdb. mrun.
  destruct (sqlFault E (events w) SelectWindowIDs) as [e|]; mrun; [done|].
  destruct (run E (events (record (Sql SelectWindowIDs) w)) ["wmctrl"; "-l"])
    as [x|] eqn:Hrun; [|by destruct (Hlist _ Hrun)].
  rewrite (Output_run _ _ _ _ Hrun). mrun.
  destruct (failure x) as [e|]; mrun; [done|].
  destruct (forEach_removeIfDead_step (currentWIDs (SplitLines (stdout x)))
              (storedOrder rows)
              (record (Ran ["wmctrl"; "-l"])
                 (advance (Z.of_N (elapsed x)) (record (Sql SelectWindowIDs) w))))
    as (w2 & -> & H2).
  by mrun.
Qed.

End Cleanup.

Section CleanupExact.
Variable E : Env.
Hypothesis store_works : ∀ h s, sqlFault E h s = None.

Lemma removeIfDead_dead current wid w rows :
  db w = Some rows → normalizeWindowID wid = wid → wid ∉ current →
  ∃ w', removeIfDead E current wid w = Some (tt, w')
    ∧ db w' = Some (delete wid rows) ∧ clock w' = clock w
    ∧ events w' = events w ++ cleanedUp wid.
Proof.
  intros Hdb Hnorm Hdead. unfold removeIfDead.
  rewrite bool_decide_eq_false_2 by done. mrun.
  rewrite removeResearchWindow_run, Hdb, Exec_run, store_works, Hnorm. mrun.
  unfold logPrintf. eexists. split; [done|].
  rewrite !db_record, !clock_record, !events_record. cbn [db clock events].
  rewrite Hdb, <- app_assoc. done.
Qed.

Lemma forEach_removeIfDead_exact current l : ∀ w rows,
  db w = Some rows → Forall (λ k, normalizeWindowID k = k) l →
  ∃ w', forEach l (removeIfDead E current) w = Some (tt, w')
    ∧ db w' = Some (foldl (λ m k, delete k m) rows (filter (λ k, k ∉ current) l))
    ∧ clock w' = clock w
    ∧ events w' = events w ++ concat (cleanedUp <$> filter (λ k, k ∉ current) l).
Proof.
  induction l as [|wid l IH]; intros w rows Hdb Hnorm; cbn [forEach]; mrun.
  - eexists. split; [done|]. by rewrite app_nil_r.
  - apply Forall_cons in Hnorm as [Hwid Hl].
    destruct (decide (wid ∈ current)) as [Hlive|Hdead].
    + rewrite filter_cons_False by (by intros ?).
      unfold removeIfDead at 1. rewrite bool_decide_eq_true_2 by done. mrun.
      by apply IH.
    + rewrite filter_cons_True by done.
      destruct (removeIfDead_dead current wid w rows Hdb Hwid Hdead)
        as (w1 & -> & Hdb1 & Hclock1 & Hev1). mrun.
      destruct (IH w1 _ Hdb1 Hl) as (w2 & -> & Hdb2 & Hclock2 & Hev2).
      eexists. split; [done|]. split; [done|]. split; [congruence|].
      rewrite Hev2, Hev1, <- app_assoc. done.
Qed.

End CleanupExact.

Lemma foldl_delete_lookup (l : list string) : ∀ (m : gmap string Z) k,
  foldl (λ m k, delete k m) m l !! k = if decide (k ∈ l) then None else m !! k.
Proof.
  induction l as [|a l IH]; intros m k; cbn [foldl].
  - rewrite decide_False; [done|]. by intros ?%elem_of_nil.
  - rewrite IH. destruct (decide (k ∈ l)) as [Hin|Hnin].
    + rewrite decide_True; [done|]. by apply elem_of_cons; right.
    + destruct (decide (k = a)) as [->|Hne].
      * rewrite decide_True by (apply elem_of_cons; by left). apply lookup_delete_eq.
      * rewrite decide_False.
        -- by apply lookup_delete_ne.
        -- intros [?|?]%elem_of_cons; done.
Qed.

Lemma foldl_delete_size (l : list string) : ∀ (m : gmap string Z),
  NoDup l → (∀ k, k ∈ l → is_Some (m !! k)) →
  size (foldl (λ m k, delete k m) m l) + length l = size m.
Proof.
  induction l as [|a l IH]; intros m Hnd Hin; cbn [foldl length]; [lia|].
  apply NoDup_cons in Hnd as [Ha Hnd].
  assert (is_Some (m !! a)) as [v Hv] by (apply Hin, elem_of_cons; by left).
  assert (size m ≠ 0) by (by eapply map_size_ne_0_lookup_2).
  assert (size (delete a m) = pred (size m)) as Hsize by (by apply map_size_delete_Some).
  assert (∀ k, k ∈ l → is_Some (delete a m !! k)) as Hin'.
  { intros k Hk. rewrite lookup_delete_ne by (intros ->; done).
    apply Hin, elem_of_cons. by right. }
  specialize (IH (delete a m) Hnd Hin'). lia.
Qed.

Lemma prune_dead_filter (rows : gmap string Z) (live : gset string) :
  foldl (λ m k, delete k m) rows (filter (λ k, k ∉ live) (storedOrder rows))
  = filter (λ kv, kv.1 ∈ live) rows.
Proof.
  apply map_eq. intros k. rewrite foldl_delete_lookup.
  destruct (filter (λ kv, kv.1 ∈ live) rows !! k) as [v|] eqn:Hf.
  - apply map_lookup_filter_Some in Hf as [Hk Hlive]. cbn in Hlive.
    rewrite decide_False; [done|]. by intros [? _]%list_elem_of_filter.
  - apply map_lookup_filter_None in Hf.
    destruct (rows !! k) as [v|] eqn:Hk.
    + destruct Hf as [?|Hf]; [done|].
      rewrite decide_True; [done|]. apply list_elem_of_filter. split.
      * exact (Hf v eq_refl).
      * apply elem_of_storedOrder. eauto.
    + by case_decide.
Qed.

(** What [currentWIDs] collects is what the listing starts its lines
    with. *)
Lemma currentWIDs_listed (out raw : string) :
  raw ∈ currentWIDs (SplitLines out) ↔ listed out raw.
Proof.
  unfold listed. induction (SplitLines out) as [|l lines IH]; cbn [currentWIDs].
  - split; [set_solver|]. intros (l & parts & Hl & _). inversion Hl.
  - rewrite elem_of_union, IH. split.
    + intros [Hhere|(l' & parts & Hl' & H)].
      * case_bool_decide as Hempty; [set_solver|].
        destruct (Fields l) as [|raw' parts] eqn:Hf; [set_solver|].
        apply elem_of_singleton in Hhere as ->.
        exists l, parts. split; [left|done].
      * exists l', parts. split; [by right|done].
    + intros (l' & parts & Hl' & Hf).
      apply elem_of_cons in Hl' as [->|Hl'].
      * left. case_bool_decide as Hempty; [by rewrite Hempty in Hf|].
        rewrite Hf. set_solver.
      * right. by exists l', parts.
Qed.

(** C2, as the code has it: with a working store and a listing that
    succeeds and prints its window IDs in their normal form, the reconciler
    removes from a registry of normalized IDs exactly the tracked IDs whose
    window is not in the live set, in the order in which the store returns
    them, keeps the other entries, and returns the nil error.  It returns no
    count: the number of removed entries is the number of "Cleaned up" lines
    it logs.  (For a listing that prints an ID in another form the removal
    goes wrong; that is C3.) *)
Theorem cleanup_prunes_dead_C2 (E : Env) (w : World) (rows : gmap string Z) (x : Exit) :
  db w = Some rows →
  map_Forall (λ k _, normalizeWindowID k = k) rows →
  (∀ h s, sqlFault E h s = None) →
  run E (events w ++ [Sql SelectWindowIDs]) ["wmctrl"; "-l"] = Some x →
  failure x = None →
  (∀ raw, listed (stdout x) raw → normalizeWindowID raw = raw) →
  ∃ w' rows' dead,
    cleanupDeadWindows E w = Some (None, w')
    ∧ db w' = Some rows'
    ∧ (∀ k, live (stdout x) k → rows' !! k = rows !! k)
    ∧ (∀ k, ¬ live (stdout x) k → rows' !! k = None)
    ∧ dead `sublist_of` storedOrder rows
    ∧ (∀ k, k ∈ dead ↔ is_Some (rows !! k) ∧ ¬ live (stdout x) k)
    ∧ events w' =
        events w ++ [Sql SelectWindowIDs; Ran ["wmctrl"; "-l"]] ++ concat (cleanedUp <$> dead)
    ∧ tracked w' + length dead = tracked w.
Proof.
  intros Hdb Hnorm Hstore Hrun Hok Hcanon.
  assert (Hlive : ∀ k, live (stdout x) k ↔ k ∈ currentWIDs (SplitLines (stdout x))).
  { intros k. rewrite currentWIDs_listed. split.
    - intros (raw & Hraw & <-). by rewrite (Hcanon raw Hraw).
    - intros Hk. exists k. split; [done|]. by apply Hcanon. }
  unfold cleanupDeadWindows. mrun. rewrite Hdb. mrun.
  unfold QueryWindowIDs. rewrite Hdb, Hstore. mrun.
  rewrite (Output_run E ["wmctrl"; "-l"] (record (Sql SelectWindowIDs) w) x Hrun).
  mrun. rewrite Hok. mrun.
  set (w1 := record (Ran ["wmctrl"; "-l"])
               (advance (Z.of_N (elapsed x)) (record (Sql SelectWindowIDs) w))).
  assert (db w1 = Some rows) as Hdb1 by done.
  assert (Forall (λ k, normalizeWindowID k = k) (storedOrder rows)) as Hall.
  { apply Forall_forall. intros k [v Hk]%elem_of_storedOrder.
    by apply (Hnorm k v). }
  destruct (forEach_removeIfDead_exact E Hstore (currentWIDs (SplitLines (stdout x)))
              _ w1 rows Hdb1 Hall) as (w2 & -> & Hdb2 & _ & Hev2).
  mrun. rewrite prune_dead_filter in Hdb2.
  eexists _, _, (filter (λ k, k ∉ currentWIDs (SplitLines (stdout x))) (storedOrder rows)).
  split; [done|]. split; [exact Hdb2|]. split; [|split; [|split; [|split; [|split]]]].
  - intros k Hk%Hlive. destruct (rows !! k) as [v|] eqn:Hrow.
    + by apply map_lookup_filter_Some.
    + apply map_lookup_filter_None. by left.
  - intros k Hk. apply map_lookup_filter_None. right. intros v _ Hin. by apply Hk, Hlive.
  - apply sublist_filter.
  - intros k. rewrite list_elem_of_filter, elem_of_storedOrder, Hlive. tauto.
  - rewrite Hev2. unfold w1. cbn [events record advance]. by rewrite <- !app_assoc.
  - unfold tracked. rewrite Hdb2, Hdb, <- prune_dead_filter.
    apply foldl_delete_size.
    + apply NoDup_filter, NoDup_storedOrder.
    + intros k [_ Hk%elem_of_storedOrder]%list_elem_of_filter. done.
Qed.

(** The example of the specification: the registry [{A, B, C}] and the live
    windows [{B, D}]. *)
Lemma cleanup_prunes_dead_C2_witness :
  ∃ w' rows' dead,
    cleanupDeadWindows envLiveBD worldABC = Some (None, w')
    ∧ db w' = Some rows'
    ∧ (∀ k, live (stdout listingBD) k → rows' !! k = rowsABC !! k)
    ∧ (∀ k, ¬ live (stdout listingBD) k → rows' !! k = None)
    ∧ dead `sublist_of` storedOrder rowsABC
    ∧ (∀ k, k ∈ dead ↔ is_Some (rowsABC !! k) ∧ ¬ live (stdout listingBD) k)
    ∧ events w' =
        events worldABC ++ [Sql SelectWindowIDs; Ran ["wmctrl"; "-l"]]
        ++ concat (cleanedUp <$> dead)
    ∧ tracked w' + length dead = tracked worldABC.
Proof.
  apply (cleanup_prunes_dead_C2 envLiveBD worldABC rowsABC listingBD).
  - reflexivity.
  - unfold rowsABC. repeat (apply map_Forall_insert_2; [reflexivity|]).
    apply map_Forall_empty.
  - reflexivity.
  - reflexivity.
  - reflexivity.
  - intros raw Hraw%currentWIDs_listed.
    assert (Hcur : currentWIDs (SplitLines (stdout listingBD)) = {[ idB; idD ]})
      by (apply set_eq; intros k; vm_compute; set_solver).
    rewrite Hcur in Hraw. apply elem_of_union in Hraw as [Hraw|Hraw];
      apply elem_of_singleton in Hraw as ->; reflexivity.
Defined.

(** At the example of the specification the reconciler returns the nil
    error, as it does when nothing is removed: its result does not tell the
    number of removed entries. *)
Lemma cleanup_returns_no_count_C2_counterexample :
  ∃ w1 w2,
    cleanupDeadWindows envLiveBD worldABC = Some (None, w1)
    ∧ tracked worldABC - tracked w1 = 2
    ∧ cleanupDeadWindows envLiveBD worldB = Some (None, w2)
    ∧ tracked worldB - tracked w2 = 0.
Proof.
  exists (after (cleanupDeadWindows envLiveBD) worldABC),
         (after (cleanupDeadWindows envLiveBD) worldB).
  evaluated.
Qed.

(** C3: the reconciler compares the stored, normalized IDs with the raw
    first fields of the listing.  The registry tracks window 123 under its
    normal form [0x0000007b]; a listing that shows the window as [123] makes
    the reconciler remove the entry of a window that is live, and the close
    command then finds the active window 123 untracked and leaves it open. *)
Theorem reconciler_compares_raw_ids_C3 :
  normalizeWindowID "123" = "0x0000007b"
  ∧ db worldTracked = Some {[ "0x0000007b" := 1%Z ]}
  ∧ currentWIDs (SplitLines (line "123  0 host kagi - Mozilla Firefox")) = {[ "123" ]}
  ∧ firefoxWIDs (SplitLines (line "123  0 host kagi - Mozilla Firefox")) = {[ "0x0000007b" ]}
  ∧ (∃ w', cleanupDeadWindows envDecimalListing worldTracked = Some (None, w')
           ∧ db w' = Some ∅
           ∧ events w' = [Sql SelectWindowIDs; Ran ["wmctrl"; "-l"]] ++ cleanedUp "0x0000007b")
  ∧ (∃ w', closeActiveResearchWindow envDecimalListing worldTracked = Some (None, w')
           ∧ db w' = Some ∅
           ∧ existsb isCloseCall (events w') = false).
Proof.
  split; [reflexivity|]. split; [reflexivity|]. split; [vm_compute; reflexivity|].
  split; [vm_compute; reflexivity|]. split.
  - exists (after (cleanupDeadWindows envDecimalListing) worldTracked).
    evaluated.
  - exists (after (closeActiveResearchWindow envDecimalListing) worldTracked).
    evaluated.
Qed.

(** ** The close flow *)

Section Close.
Variable E : Env.

Lemma cleanup_is_not_close e : isCleanupEvent e = true → isCloseCall e = false.
Proof.
  destruct e as [argv| | | |]; try done. cbn.
  intros Hargv%bool_decide_eq_true_1. by subst.
Qed.

Lemma warn_step (err : error) (msg : string → string) w :
  ∃ w', match err with
        | Some e => logPrintf (msg e)
        | None => mret tt
        end w = Some (tt, w')
    ∧ db w' = db w
    ∧ ∃ evs, events w' = events w ++ evs ∧ Forall (λ e, isCleanupEvent e = true) evs.
Proof.
  destruct err as [e|].
  - eexists. split; [done|]. split; [done|]. exists [Logged (msg e)]. split; [done|].
    by constructor.
  - eexists. split; [done|]. split; [done|]. exists []. by rewrite app_nil_r.
Qed.

(** The close flow up to the membership check, when the active window is
    known. *)
Lemma close_until_check w x :
  run E (events w) ["xdotool"; "getactivewindow"] = Some x →
  failure x = None →
  let activeWID := TrimSpace (stdout x) in
  let w1 := record (Ran ["xdotool"; "getactivewindow"]) (advance (Z.of_N (elapsed x)) w) in
  match cleanupDeadWindows E w1 with
  | None => closeActiveResearchWindow E w = None
  | Some (err, w2) =>
    ∃ w3 evs,
      db w3 = db w2
      ∧ events w3 = events w2 ++ evs ∧ Forall (λ e, isCleanupEvent e = true) evs
      ∧ closeActiveResearchWindow E w =
        match db w3 with
        | None => Some (Some "database not initialized", w3)
        | Some rows =>
          match sqlFault E (events w3) (CountWindowID (normalizeWindowID activeWID)) with
          | Some e =>
            Some (Some ("couldn't check research window status: " +:+ e),
                  record (Sql (CountWindowID (normalizeWindowID activeWID))) w3)
          | None =>
            match rows !! normalizeWindowID activeWID with
            | None =>
              Some (None, record (Sql (CountWindowID (normalizeWindowID activeWID))) w3)
            | Some _ =>
              (nameOut ← Output E ["xdotool"; "getwindowname"; activeWID];
               err ← Run E ["xdotool"; "windowclose"; activeWID];
               match err with
               | Some err => mret (Some ("failed to close window: " +:+ err))
               | None =>
                 err ← removeResearchWindow E activeWID;
                 match err with
                 | Some err =>
                   logPrintf ("Warning: couldn't remove window from tracking: " +:+ err)
                 | None => mret tt
                 end;;
                 logPrintf ("Closed research window: " +:+ normalizeWindowID activeWID
                            +:+ " (" +:+ TrimSpace (stdout nameOut) +:+ ")");;
                 mret None
               end)
                (record (Sql (CountWindowID (normalizeWindowID activeWID))) w3)
            end
          end
        end
  end.
Proof.
  intros Hx Hfail activeWID w1.
  unfold closeActiveResearchWindow. mrun.
  rewrite (Output_run _ _ _ _ Hx). mrun. rewrite Hfail. mrun. fold activeWID w1.
  destruct (cleanupDeadWindows E w1) as [[err w2]|]; [|done]. mrun.
  destruct (warn_step err (λ e, "Warning: couldn't cleanup dead windows: " +:+ e) w2)
    as (w3 & -> & Hdb3 & evs & Hev3 & Hevs).
  mrun. exists w3, evs. split; [done|]. split; [done|]. split; [done|].
  destruct (db w3) as [rows|] eqn:Hdb; mrun; [|done].
  unfold QueryCount. rewrite Hdb. mrun.
  destruct (sqlFault E (events w3) _) as [e|]; mrun; [done|].
  destruct (rows !! normalizeWindowID activeWID) as [t|]; mrun; done.
Qed.

End Close.

Section CloseClaims.
Variable E : Env.

(** C8: when the normalized ID of the active window is not in the
    registry, the close command issues no [xdotool windowclose], whatever
    the external tools and the store do; and when the window listing
    returns and the store answers the membership query, the command ends
    with the nil error. *)
Theorem close_untracked_is_noop_C8 (w : World) (x : Exit) (rows : gmap string Z) :
  run E (events w) ["xdotool"; "getactivewindow"] = Some x →
  failure x = None →
  db w = Some rows →
  rows !! normalizeWindowID (TrimSpace (stdout x)) = None →
  (∀ r w', closeActiveResearchWindow E w = Some (r, w') →
     ∃ evs, events w' = events w ++ evs ∧ Forall (λ e, isCloseCall e = false) evs)
  ∧ ((∀ h, run E h ["wmctrl"; "-l"] ≠ None) →
     (∀ h, sqlFault E h (CountWindowID (normalizeWindowID (TrimSpace (stdout x)))) = None) →
     ∃ w' evs,
       closeActiveResearchWindow E w = Some (None, w')
       ∧ exitStatus None = 0%Z
       ∧ events w' = events w ++ evs ∧ Forall (λ e, isCloseCall e = false) evs).
Proof.
  intros Hx Hfail Hdb Hk.
  pose proof (close_until_check E w x Hx Hfail) as Hclose. cbv zeta in Hclose.
  set (w1 := record (Ran ["xdotool"; "getactivewindow"]) (advance (Z.of_N (elapsed x)) w))
    in Hclose.
  set (k := normalizeWindowID (TrimSpace (stdout x))) in *.
  assert (∀ err w2, cleanupDeadWindows E w1 = Some (err, w2) → cleanupStep E w1 w2 →
            ∃ w3 evs,
              events w3 = events w ++ evs ∧ Forall (λ e, isCloseCall e = false) evs
              ∧ closeActiveResearchWindow E w =
                  Some (match sqlFault E (events w3) (CountWindowID k) with
                        | Some e => Some ("couldn't check research window status: " +:+ e)
                        | None => None
                        end, record (Sql (CountWindowID k)) w3)) as Hpath.
  { intros err w2 Heq (evs2 & Hev2 & Hevs2 & Hdb2). rewrite Heq in Hclose.
    destruct Hclose as (w3 & evs3 & Hdb3 & Hev3 & Hevs3 & ->).
    assert (db w1 = Some rows) as Hdb1 by done. rewrite Hdb1 in Hdb2.
    destruct Hdb2 as (rows' & Hdb2 & Hpruned). rewrite Hdb3, Hdb2.
    rewrite (pruned_absent E rows rows' k Hpruned Hk).
    exists w3, ([Ran ["xdotool"; "getactivewindow"]] ++ evs2 ++ evs3).
    split; [rewrite Hev3, Hev2; unfold w1; cbn [events record advance];
            by rewrite <- !app_assoc|].
    split.
    - apply Forall_app. split; [by constructor|].
      apply Forall_app. split; (eapply Forall_impl; [eassumption|]);
        intros e He; by apply cleanup_is_not_close.
    - by destruct (sqlFault E (events w3) (CountWindowID k)). }
  split.
  - intros r w' Hrun.
    destruct (cleanupDeadWindows_step E w1) as [Hnone|(err & w2 & Heq & Hstep)].
    { rewrite Hnone in Hclose. congruence. }
    destruct (Hpath err w2 Heq Hstep) as (w3 & evs & Hev & Hevs & Hrun').
    rewrite Hrun' in Hrun. injection Hrun as _ <-.
    exists (evs ++ [Sql (CountWindowID k)]). cbn [events record]. rewrite Hev.
    split; [by rewrite <- app_assoc|].
    apply Forall_app. split; [done|by constructor].
  - intros Hlist Hcount.
    destruct (cleanupDeadWindows_returns E w1 Hlist) as (err & w2 & Heq & Hstep).
    destruct (Hpath err w2 Heq Hstep) as (w3 & evs & Hev & Hevs & Hrun').
    rewrite Hcount in Hrun'.
    eexists _, (evs ++ [Sql (CountWindowID k)]). split; [exact Hrun'|]. split; [done|].
    cbn [events record]. rewrite Hev.
    split; [by rewrite <- app_assoc|].
    apply Forall_app. split; [done|by constructor].
Qed.

End CloseClaims.


Lemma close_untracked_is_noop_C8_witness :
  ∃ w' evs,
    closeActiveResearchWindow envUntrackedActive worldTracked = Some (None, w')
    ∧ exitStatus None = 0%Z
    ∧ events w' = events worldTracked ++ evs ∧ Forall (λ e, isCloseCall e = false) evs.
Proof.
  refine (proj2 (close_untracked_is_noop_C8 envUntrackedActive worldTracked activeIs77
                   (<["0x0000007b" := 1%Z]> ∅) _ _ _ _) _ _).
  - reflexivity.
  - reflexivity.
  - reflexivity.
  - reflexivity.
  - intros h. unfold envUntrackedActive, envOf, run. discriminate.
  - intros h. reflexivity.
Defined.

Section CloseStoreFailures.
Variable E : Env.

(** C9, as the code has it: in the close flow a store that was never
    opened, or a membership query that fails, ends the command with an
    error, hence with exit status 1; the failure of the registry delete
    after the external close is only logged as a warning, and the command
    ends with the nil error, exit status 0, the entry still in the
    registry. *)
Theorem close_store_failures_C9 (w : World) (x : Exit) :
  run E (events w) ["xdotool"; "getactivewindow"] = Some x →
  failure x = None →
  (∀ h argv, run E h argv ≠ None) →
  (db w = None →
     ∃ w', closeActiveResearchWindow E w = Some (Some "database not initialized", w')
           ∧ exitStatus (Some "database not initialized") = 1%Z)
  ∧ (∀ e, db w ≠ None →
       (∀ h, sqlFault E h (CountWindowID (normalizeWindowID (TrimSpace (stdout x))))
             = Some e) →
       ∃ w', closeActiveResearchWindow E w
               = Some (Some ("couldn't check research window status: " +:+ e), w')
             ∧ exitStatus (Some ("couldn't check research window status: " +:+ e)) = 1%Z)
  ∧ (∀ rows t e,
       db w = Some rows →
       rows !! normalizeWindowID (TrimSpace (stdout x)) = Some t →
       (∀ h, sqlFault E h (CountWindowID (normalizeWindowID (TrimSpace (stdout x))))
             = None) →
       (∀ h, sqlFault E h (DeleteWindowID (normalizeWindowID (TrimSpace (stdout x))))
             = Some e) →
       (∀ h x', run E h ["xdotool"; "windowclose"; TrimSpace (stdout x)] = Some x' →
                failure x' = None) →
       ∃ w' rows',
         closeActiveResearchWindow E w = Some (None, w')
         ∧ exitStatus None = 0%Z
         ∧ Ran ["xdotool"; "windowclose"; TrimSpace (stdout x)] ∈ events w'
         ∧ Logged ("Warning: couldn't remove window from tracking: " +:+ e) ∈ events w'
         ∧ db w' = Some rows'
         ∧ rows' !! normalizeWindowID (TrimSpace (stdout x)) = Some t).
Proof.
  intros Hx Hfail Hreturns.
  pose proof (close_until_check E w x Hx Hfail) as Hclose. cbv zeta in Hclose.
  set (w1 := record (Ran ["xdotool"; "getactivewindow"]) (advance (Z.of_N (elapsed x)) w))
    in Hclose.
  set (activeWID := TrimSpace (stdout x)) in *.
  set (k := normalizeWindowID activeWID) in *.
  destruct (cleanupDeadWindows_returns E w1 (λ h, Hreturns h _))
    as (err & w2 & Heq & (evs2 & Hev2 & Hevs2 & Hdb2)).
  rewrite Heq in Hclose. destruct Hclose as (w3 & evs3 & Hdb3 & Hev3 & Hevs3 & Hclose).
  assert (db w1 = db w) as Hdb1 by done. rewrite Hdb1 in Hdb2.
  split; [|split].
  - intros Hnil. rewrite Hnil in Hdb2. rewrite Hdb3, Hdb2 in Hclose. by exists w3.
  - intros e Hsome Hcount. destruct (db w) as [rows|]; [|done].
    destruct Hdb2 as (rows' & Hdb2 & _). rewrite Hdb3, Hdb2, Hcount in Hclose.
    by eexists.
  - intros rows t e Hdb Hk Hcount Hdelete Hclosed. rewrite Hdb in Hdb2.
    destruct Hdb2 as (rows' & Hdb2 & Hpruned).
    assert (rows' !! k = Some t) as Hk'.
    { rewrite (pruned_kept E rows rows' k Hpruned); [done|].
      intros h. by rewrite Hdelete. }
    rewrite Hdb3, Hdb2, Hcount, Hk' in Hclose.
    set (w4 := record (Sql (CountWindowID k)) w3) in Hclose.
    destruct (run E (events w4) ["xdotool"; "getwindowname"; activeWID]) as [nameOut|] eqn:Hname;
      [|by destruct (Hreturns _ _ Hname)].
    set (w5 := record (Ran ["xdotool"; "getwindowname"; activeWID])
                 (advance (Z.of_N (elapsed nameOut)) w4)).
    destruct (run E (events w5) ["xdotool"; "windowclose"; activeWID]) as [x'|] eqn:Hwc;
      [|by destruct (Hreturns _ _ Hwc)].
    pose proof (Hclosed _ _ Hwc) as Hx'.
    revert Hclose. mrun. rewrite (Output_run _ _ _ _ Hname). mrun. fold w5.
    unfold Run. mrun. rewrite (Output_run _ _ _ _ Hwc). mrun. rewrite Hx'. mrun.
    set (w6 := record (Ran ["xdotool"; "windowclose"; activeWID])
                 (advance (Z.of_N (elapsed x')) w5)).
    assert (db w6 = Some rows') as Hdb6 by (unfold w6, w5, w4; cbn [db record advance]; congruence).
    rewrite removeResearchWindow_run, Hdb6, Exec_run. fold k. rewrite Hdelete. mrun.
    unfold logPrintf. intros Hclose.
    eexists _, rows'. split; [exact Hclose|]. split; [done|].
    cbn [events db record advance]. unfold w6. cbn [events db record advance].
    repeat split.
    + rewrite !elem_of_app, !elem_of_cons. auto 10.
    + rewrite !elem_of_app, !elem_of_cons. auto 10.
    + unfold w5, w4. cbn [db record advance]. congruence.
    + done.
Qed.

End CloseStoreFailures.


Lemma close_store_failures_C9_witness :
  ∃ w' rows',
    closeActiveResearchWindow envDeleteFails worldTracked = Some (None, w')
    ∧ exitStatus None = 0%Z
    ∧ Ran ["xdotool"; "windowclose"; TrimSpace (stdout activeIs123)] ∈ events w'
    ∧ Logged ("Warning: couldn't remove window from tracking: " +:+ "database is locked")
        ∈ events w'
    ∧ db w' = Some rows'
    ∧ rows' !! normalizeWindowID (TrimSpace (stdout activeIs123)) = Some 1%Z.
Proof.
  refine (proj2 (proj2 (close_store_failures_C9 envDeleteFails worldTracked activeIs123 _ _ _))
            (<["0x0000007b" := 1%Z]> ∅) 1%Z "database is locked" _ _ _ _ _).
  - reflexivity.
  - reflexivity.
  - intros h argv. unfold envDeleteFails, run, ok. repeat case_match; discriminate.
  - reflexivity.
  - reflexivity.
  - intros h. reflexivity.
  - intros h. reflexivity.
  - intros h x'. unfold envDeleteFails, run, ok. intros Hrun. by injection Hrun as <-.
Defined.

(** The registry delete after the external close fails, and the command
    still ends with the nil error: the failure is only a line in the log. *)
Lemma close_delete_failure_is_logged_C9_counterexample :
  let w' := after (closeActiveResearchWindow envDeleteFails) worldTracked in
  closeActiveResearchWindow envDeleteFails worldTracked = Some (None, w')
  ∧ exitStatus None = 0%Z
  ∧ events w' =
      [Ran ["xdotool"; "getactivewindow"]; Sql SelectWindowIDs; Ran ["wmctrl"; "-l"];
       Sql (CountWindowID "0x0000007b");
       Ran ["xdotool"; "getwindowname"; "123"];
       Ran ["xdotool"; "windowclose"; "123"];
       Sql (DeleteWindowID "0x0000007b");
       Logged "Warning: couldn't remove window from tracking: database is locked";
       Logged "Closed research window: 0x0000007b (kagi - Mozilla Firefox)"]
  ∧ sqlFault envDeleteFails (events w') (DeleteWindowID "0x0000007b")
      = Some "database is locked"
  ∧ db w' = db worldTracked.
Proof. intros w'. evaluated. Qed.

(** ** The new-window detector *)

Section Detector.
Variable E : Env.

Lemma newFirefoxWID_none beforeWIDs lines :
  firefoxWIDs lines ⊆ beforeWIDs → newFirefoxWID beforeWIDs lines = None.
Proof.
  induction lines as [|l lines IH]; cbn [firefoxWIDs newFirefoxWID]; [done|].
  intros Hsub. destruct (Contains l "Mozilla Firefox").
  - destruct (Fields l) as [|part parts].
    + apply IH. set_solver.
    + rewrite bool_decide_eq_true_2 by set_solver. apply IH. set_solver.
  - apply IH. set_solver.
Qed.

Lemma Sleep_run ms w : Sleep ms w = Some (tt, record (Slept ms) (advance ms w)).
Proof. reflexivity. Qed.

Lemma Now_run w : Now w = Some (clock w, w).
Proof. reflexivity. Qed.

(** The bound on the turns of the loop is never what ends it: once the
    turns cover the time left to the deadline, more turns change nothing. *)
Lemma waitLoop_turns_enough n : ∀ m timeout beforeWIDs w,
  (timeout ≤ clock w + 100 * Z.of_nat n)%Z → n ≤ m →
  waitLoop E m timeout beforeWIDs w = waitLoop E n timeout beforeWIDs w.
Proof.
  induction n as [|n IH]; intros m timeout beforeWIDs w Htime Hle.
  - destruct m as [|m]; [done|]. cbn [waitLoop]. mrun. rewrite Now_run. mrun.
    replace (clock w <? timeout)%Z with false by (symmetry; apply Z.ltb_ge; lia). by mrun.
  - destruct m as [|m]; [lia|]. cbn [waitLoop]. mrun. rewrite Now_run. mrun.
    destruct (clock w <? timeout)%Z; mrun; [|done].
    unfold Output. destruct (run E (events w) ["wmctrl"; "-l"]) as [x|]; [|done]. mrun.
    assert (∀ w', clock w' = (clock w + Z.of_N (elapsed x))%Z →
              (Sleep 100;; waitLoop E m timeout beforeWIDs) w'
              = (Sleep 100;; waitLoop E n timeout beforeWIDs) w') as Hrest.
    { intros w' Hclock. mrun. rewrite Sleep_run. mrun. apply IH; [|lia].
      cbn [clock record advance]. lia. }
    destruct (failure x); mrun.
    + by apply Hrest.
    + destruct (newFirefoxWID beforeWIDs (SplitLines (stdout x))); mrun; [done|].
      by apply Hrest.
Qed.

(** What [firefoxWIDs] collects is what the listing shows of Firefox. *)
Lemma firefoxWIDs_shows (out wid : string) :
  wid ∈ firefoxWIDs (SplitLines out) ↔ showsFirefox out wid.
Proof.
  unfold showsFirefox. induction (SplitLines out) as [|l lines IH]; cbn [firefoxWIDs].
  - split; [set_solver|]. intros (l & raw & parts & Hl & _). inversion Hl.
  - rewrite elem_of_union, IH. split.
    + intros [Hhere|(l' & raw & parts & Hl' & H)].
      * destruct (Contains l "Mozilla Firefox") eqn:Hff; [|set_solver].
        destruct (Fields l) as [|raw parts] eqn:Hf; [set_solver|].
        apply elem_of_singleton in Hhere as ->.
        exists l, raw, parts. split; [left|done].
      * exists l', raw, parts. split; [by right|done].
    + intros (l' & raw & parts & Hl' & Hff & Hf & Hwid).
      apply elem_of_cons in Hl' as [->|Hl'].
      * left. rewrite Hff, Hf. set_solver.
      * right. by exists l', raw, parts.
Qed.

(** When every listing returns and none that succeeds shows a Firefox
    window outside [beforeWIDs], the wait ends with the timeout error, at
    the deadline or later, after listings and sleeps only. *)
Lemma waitLoop_times_out beforeWIDs timeout :
  (∀ h, run E h ["wmctrl"; "-l"] ≠ None) →
  (∀ h x, run E h ["wmctrl"; "-l"] = Some x → failure x = None →
          firefoxWIDs (SplitLines (stdout x)) ⊆ beforeWIDs) →
  ∀ turns w,
    (timeout ≤ clock w + 100 * Z.of_nat turns)%Z →
    ∃ w' polls,
      waitLoop E turns timeout beforeWIDs w
        = Some (("", Some "timeout waiting for new Firefox window"), w')
      ∧ db w' = db w
      ∧ events w' = events w ++ polls
      ∧ Forall (λ e, isPollEvent e = true) polls
      ∧ (timeout ≤ clock w')%Z.
Proof.
  intros Hlist Hbefore. induction turns as [|turns IH]; intros w Htime; cbn [waitLoop].
  - exists w, []. rewrite app_nil_r. repeat split; [done|lia].
  - mrun. rewrite Now_run. mrun.
    destruct (clock w <? timeout)%Z eqn:Hnow; mrun.
    2:{ exists w, []. rewrite app_nil_r. apply Z.ltb_ge in Hnow. by repeat split. }
    destruct (run E (events w) ["wmctrl"; "-l"]) as [listing|] eqn:Hrun0;
      [|by destruct (Hlist (events w))].
    rewrite (Output_run _ _ _ _ Hrun0). mrun.
    set (w1 := record (Slept 100) (advance 100
                 (record (Ran ["wmctrl"; "-l"]) (advance (Z.of_N (elapsed listing)) w)))).
    destruct (IH w1) as (w' & polls & Hrun & Hdb & Hev & Hpolls & Hclock).
    { unfold w1. cbn [clock record advance]. lia. }
    assert ((Sleep 100;; waitLoop E turns timeout beforeWIDs)
              (record (Ran ["wmctrl"; "-l"]) (advance (Z.of_N (elapsed listing)) w))
            = Some (("", Some "timeout waiting for new Firefox window"), w')) as Hrest.
    { mrun. rewrite Sleep_run. mrun. exact Hrun. }
    exists w', ([Ran ["wmctrl"; "-l"]; Slept 100] ++ polls).
    split.
    { destruct (failure listing) eqn:Hfail; mrun; [exact Hrest|].
      rewrite newFirefoxWID_none by eauto. exact Hrest. }
    split; [done|]. split.
    { rewrite Hev. unfold w1. cbn [events record advance]. by rewrite <- !app_assoc. }
    split; [|done]. by repeat constructor.
Qed.

End Detector.




Section OpenClaims.
Variable E : Env.
Variable config : Config.
Variable Sscanf_dimensions : string → Z * Z.

(** C1, as the code has it: when Firefox starts and no new Firefox window
    appears (no listing that succeeds shows a Firefox window that the
    listing taken before the launch did not show, whatever else the
    listings show and however they differ), [openBrowserInSideWindow] waits
    the full five seconds and then returns the error of the detection
    timeout: the open operation fails, with exit status 1; the window is not
    positioned and the registry is left as it was. *)
Theorem open_fails_on_detection_timeout_C1 (searchURL query : string) (w : World)
    (before : Exit) :
  run E (events w) ["wmctrl"; "-l"] = Some before →
  (∀ h, run E h ["wmctrl"; "-l"] ≠ None) →
  (∀ h argv, start E h argv = None) →
  (∀ h x wid, run E h ["wmctrl"; "-l"] = Some x → failure x = None →
     showsFirefox (stdout x) wid →
     failure before = None ∧ showsFirefox (stdout before) wid) →
  ∃ w' firefoxArgs polls,
    openBrowserInSideWindow E config Sscanf_dimensions searchURL query w
      = Some (Some ("failed to detect new Firefox window: "
                    +:+ "timeout waiting for new Firefox window"), w')
    ∧ exitStatus (Some ("failed to detect new Firefox window: "
                        +:+ "timeout waiting for new Firefox window")) = 1%Z
    ∧ db w' = db w
    ∧ events w' =
        events w ++ [Ran ["wmctrl"; "-l"]; Started ("firefox" :: firefoxArgs)] ++ polls
    ∧ Forall (λ e, isPollEvent e = true) polls
    ∧ (clock w + 5000 ≤ clock w')%Z.
Proof.
  intros Hbefore Hlist Hstart Hnone. unfold openBrowserInSideWindow. mrun.
  rewrite (Output_run _ _ _ _ Hbefore). mrun.
  unfold Start. rewrite Hstart. mrun.
  unfold waitForNewFirefoxWindow. mrun. rewrite Now_run. mrun.
  match goal with
  | |- context [waitLoop E 50 ?t ?b ?w1] =>
    destruct (waitLoop_times_out E b t Hlist) with (turns := 50) (w := w1)
      as (w' & polls & Hrun & Hdb & Hev & Hpolls & Hclock)
  end.
  - intros h x Hx Hok wid Hwid. apply firefoxWIDs_shows in Hwid.
    destruct (Hnone h x wid Hx Hok Hwid) as [Hok0 Hwid0].
    rewrite Hok0. by apply firefoxWIDs_shows.
  - lia.
  - rewrite Hrun. mrun. eexists w', _, polls. split; [done|]. split; [done|].
    split; [done|]. split.
    + rewrite Hev. cbn [events record advance]. by rewrite <- !app_assoc.
    + split; [done|]. cbn [clock record advance] in Hclock. lia.
Qed.

End OpenClaims.



(** The page opens in the Firefox window that was there; its title
    changes while the detector waits. *)
Lemma open_fails_on_detection_timeout_C1_witness :
  ∃ w' firefoxArgs polls,
    openBrowserInSideWindow envTitleChanges configDefault sscanfFullHD
        "https://kagi.com/search?q=%s" "rocq prover" worldEmpty
      = Some (Some ("failed to detect new Firefox window: "
                    +:+ "timeout waiting for new Firefox window"), w')
    ∧ exitStatus (Some ("failed to detect new Firefox window: "
                        +:+ "timeout waiting for new Firefox window")) = 1%Z
    ∧ db w' = db worldEmpty
    ∧ events w' =
        events worldEmpty
        ++ [Ran ["wmctrl"; "-l"]; Started ("firefox" :: firefoxArgs)] ++ polls
    ∧ Forall (λ e, isPollEvent e = true) polls
    ∧ (clock worldEmpty + 5000 ≤ clock w')%Z.
Proof.
  apply (open_fails_on_detection_timeout_C1 envTitleChanges configDefault sscanfFullHD
           "https://kagi.com/search?q=%s" "rocq prover" worldEmpty listingReused).
  - reflexivity.
  - intros h. unfold envTitleChanges, run, isCmd. rewrite bool_decide_eq_true_2 by done.
    discriminate.
  - intros h argv. reflexivity.
  - intros h x wid Hx _ Hwid. split; [reflexivity|].
    apply firefoxWIDs_shows. apply firefoxWIDs_shows in Hwid.
    unfold envTitleChanges, run, isCmd in Hx. rewrite bool_decide_eq_true_2 in Hx by done.
    destruct (length h <? 5)%nat; injection Hx as <-; revert Hwid; vm_compute; set_solver.
Defined.

(** Firefox shows the page in a window that was already there: the
    detector times out and the open operation fails. *)
Lemma open_fails_on_detection_timeout_C1_counterexample :
  let w' := after (openBrowserInSideWindow envWindowReused configDefault sscanfFullHD
                     "https://kagi.com/search?q=%s" "rocq prover") worldEmpty in
  openBrowserInSideWindow envWindowReused configDefault sscanfFullHD
      "https://kagi.com/search?q=%s" "rocq prover" worldEmpty
    = Some (Some "failed to detect new Firefox window: timeout waiting for new Firefox window",
            w')
  ∧ exitStatus (Some "failed to detect new Firefox window: timeout waiting for new Firefox window")
    = 1%Z
  ∧ Started ["firefox"; "--new-window"; "https://kagi.com/search?q=rocq+prover"] ∈ events w'
  ∧ db w' = Some ∅.
Proof.
  intros w'. split; [vm_compute; reflexivity|]. split; [reflexivity|].
  split; [|vm_compute; reflexivity].
  apply list_elem_of_lookup. exists 1. vm_compute. reflexivity.
Qed.

(* ================================================================== *)
(** * Further properties of the code *)
(* ================================================================== *)

Import MoreScenarios.

(** ** The normalizer *)

Lemma normalizeWindowID_fixed (wid : string) :
  normalizeWindowID (normalizeWindowID wid) = normalizeWindowID wid.
Proof.
  destruct (HasPrefix wid "0x") eqn:Hpre; [|destruct (Atoi wid) as [val|] eqn:Hval].
  - assert (normalizeWindowID wid = wid) as Hwid
      by (unfold normalizeWindowID; by rewrite Hpre).
    by rewrite !Hwid.
  - assert (normalizeWindowID wid = "0x" +:+ Sprintf_08x val) as ->
      by (unfold normalizeWindowID; by rewrite Hpre, Hval).
    unfold normalizeWindowID. by rewrite HasPrefix_app.
  - assert (normalizeWindowID wid = wid) as Hwid
      by (unfold normalizeWindowID; by rewrite Hpre, Hval).
    by rewrite !Hwid.
Qed.

(** [normalizeWindowID] is idempotent. *)
Theorem normalize_idempotent (wid : string) :
  normalizeWindowID (normalizeWindowID wid) = normalizeWindowID wid.
Proof. exact (normalizeWindowID_fixed wid). Qed.

Lemma hexDigit_lower d : (d < 16)%N →
  isLowerHexDigit (hexDigit d) = true ∧ hexDigitValue (hexDigit d) = d.
Proof.
  intros Hd.
  assert (d ∈ (N.of_nat <$> seq 0 16)) as Hin.
  { apply list_elem_of_fmap. exists (N.to_nat d). split; [lia|].
    apply elem_of_seq. lia. }
  cbn in Hin. repeat (apply elem_of_cons in Hin as [->|Hin]; [by vm_compute|]).
  by apply elem_of_nil in Hin.
Qed.

Lemma fixedOnto_value k : ∀ n acc,
  allOf isLowerHexDigit acc = true →
  allOf isLowerHexDigit (fixedOnto k n acc) = true
  ∧ positional 16 hexDigitValue (fixedOnto k n acc)
    = ((n mod 16 ^ N.of_nat k) * 16 ^ N.of_nat (String.length acc)
       + positional 16 hexDigitValue acc)%N.
Proof.
  induction k as [|k IH]; intros n acc Hacc.
  - cbn [fixedOnto]. split; [done|]. change (16 ^ N.of_nat 0)%N with 1%N.
    rewrite N.mod_1_r. lia.
  - cbn [fixedOnto].
    assert (n mod 16 < 16)%N as Hd by (apply N.mod_lt; lia).
    destruct (hexDigit_lower _ Hd) as [Hlow Hval].
    destruct (IH (n / 16)%N (String (hexDigit (n mod 16)) acc)) as [Hall Hpos].
    { cbn [allOf]. by rewrite Hlow, Hacc. }
    split; [done|]. rewrite Hpos. cbn [positional String.length]. rewrite Hval.
    rewrite !Nat2N.inj_succ, !N.pow_succ_r'.
    rewrite (N.Div0.mod_mul_r n 16 (16 ^ N.of_nat k)). lia.
Qed.

Lemma zeros_value k s :
  allOf isLowerHexDigit s = true →
  allOf isLowerHexDigit (zeros k +:+ s) = true
  ∧ positional 16 hexDigitValue (zeros k +:+ s) = positional 16 hexDigitValue s.
Proof.
  intros Hs. induction k as [|k [IHa IHp]]; cbn [zeros]; sapp; [done|].
  cbn [allOf positional]. rewrite IHa, IHp. split; [done|].
  change (hexDigitValue "0") with 0%N. lia.
Qed.

Lemma length_zeros k : String.length (zeros k) = k.
Proof. induction k as [|k IH]; cbn; congruence. Qed.

(** What [%08x] prints for a value that is not negative: lower-case hex
    digits, eight or more, that denote the value. *)
Lemma Sprintf_08x_value (n : N) :
  allOf isLowerHexDigit (Sprintf_08x (Z.of_N n)) = true
  ∧ 8 ≤ String.length (Sprintf_08x (Z.of_N n))
  ∧ positional 16 hexDigitValue (Sprintf_08x (Z.of_N n)) = n.
Proof.
  unfold Sprintf_08x.
  replace (Z.of_N n <? 0)%Z with false by (symmetry; apply Z.ltb_ge; lia).
  rewrite N2Z.id. unfold padZeros, FormatHex.
  assert (n < 16 ^ N.of_nat (S (N.to_nat (N.log2 n))))%N as Hfuel.
  { destruct (N.eq_dec n 0%N) as [->|Hn0]; [done|].
    pose proof (N.log2_spec n ltac:(lia)) as [_ Hlt].
    eapply N.lt_le_trans; [exact Hlt|].
    rewrite Nat2N.inj_succ, N2Nat.id. apply N.pow_le_mono_l. lia. }
  destruct (hexDigitsOnto_fixed _ n "" _ Hfuel ltac:(lia) Hfuel ltac:(lia))
    as (j & Hj & -> & Hfix).
  destruct (fixedOnto_value j n "" eq_refl) as [Hall Hpos].
  destruct (fixedOnto_value (S (N.to_nat (N.log2 n))) n "" eq_refl) as [_ Hpos'].
  rewrite Hfix in Hpos'.
  destruct (zeros_value (S (N.to_nat (N.log2 n)) - j) _ Hall) as [_ Hz].
  rewrite Hz in Hpos'. rewrite N.mod_small in Hpos' by done.
  cbn [String.length positional] in Hpos'.
  destruct (zeros_value (8 - String.length (fixedOnto j n "")) _ Hall) as [Hza Hzp].
  split; [done|]. split.
  - rewrite length_app_string, length_zeros, length_fixedOnto. cbn. lia.
  - rewrite Hzp, Hpos'. lia.
Qed.

Lemma normalize_decimal_value (d : string) :
  isDecimalString d = true →
  (Z.of_N (decimalValue d) ≤ maxInt)%Z →
  ∃ ds, normalizeWindowID d = "0x" +:+ ds
        ∧ allOf isLowerHexDigit ds = true
        ∧ 8 ≤ String.length ds
        ∧ hexValue (normalizeWindowID d) = decimalValue d.
Proof.
  intros Hd Hmax. unfold normalizeWindowID.
  rewrite decimal_not_hex_prefixed, Atoi_decimal by done.
  destruct (Sprintf_08x_value (decimalValue d)) as (Hall & Hlen & Hval).
  eexists. split; [done|]. split; [done|]. split; [done|]. exact Hval.
Qed.

(** A decimal string within the range of [int] is normalized to the prefix
    [0x] followed by eight or more lower-case hex digits that denote the
    same integer. *)
Theorem normalize_decimal_roundtrip (d : string) :
  isDecimalString d = true →
  (Z.of_N (decimalValue d) ≤ maxInt)%Z →
  ∃ ds, normalizeWindowID d = "0x" +:+ ds
        ∧ allOf isLowerHexDigit ds = true
        ∧ 8 ≤ String.length ds
        ∧ hexValue (normalizeWindowID d) = decimalValue d.
Proof. exact (normalize_decimal_value d). Qed.

Lemma normalize_decimal_roundtrip_witness :
  ∃ ds, normalizeWindowID "4294967296" = "0x" +:+ ds
        ∧ allOf isLowerHexDigit ds = true
        ∧ 8 ≤ String.length ds
        ∧ hexValue (normalizeWindowID "4294967296") = decimalValue "4294967296".
Proof. apply normalize_decimal_roundtrip; [reflexivity|by vm_compute]. Defined.

(** Two decimal strings within the range of [int] have the same normal
    form exactly when they denote the same integer. *)
Theorem normalize_decimal_injective (d1 d2 : string) :
  isDecimalString d1 = true → isDecimalString d2 = true →
  (Z.of_N (decimalValue d1) ≤ maxInt)%Z → (Z.of_N (decimalValue d2) ≤ maxInt)%Z →
  normalizeWindowID d1 = normalizeWindowID d2 ↔ decimalValue d1 = decimalValue d2.
Proof.
  intros H1 H2 Hm1 Hm2. split.
  - intros Heq.
    destruct (normalize_decimal_value d1 H1 Hm1) as (_ & _ & _ & _ & <-).
    destruct (normalize_decimal_value d2 H2 Hm2) as (_ & _ & _ & _ & <-).
    by rewrite Heq.
  - intros Heq. unfold normalizeWindowID.
    rewrite !decimal_not_hex_prefixed, !Atoi_decimal by done. by rewrite Heq.
Qed.

Lemma normalize_decimal_injective_witness :
  normalizeWindowID "0123" = normalizeWindowID "123" ↔ decimalValue "0123" = decimalValue "123".
Proof.
  apply normalize_decimal_injective; first [reflexivity | by vm_compute].
Defined.

(** ** The new-window detector *)

Section DetectorResults.
Variable E : Env.

Lemma newFirefoxWID_some beforeWIDs lines wid :
  newFirefoxWID beforeWIDs lines = Some wid →
  (wid ∉ beforeWIDs) ∧ wid ∈ firefoxWIDs lines.
Proof.
  induction lines as [|l lines IH]; cbn [firefoxWIDs newFirefoxWID]; [done|].
  destruct (Contains l "Mozilla Firefox").
  - destruct (Fields l) as [|part parts].
    + intros [? ?]%IH. split; [done|set_solver].
    + case_bool_decide as Hin.
      * intros [? ?]%IH. split; [done|set_solver].
      * intros [= <-]. split; [done|set_solver].
  - intros [? ?]%IH. split; [done|set_solver].
Qed.

Lemma firefoxWIDs_normal lines wid :
  wid ∈ firefoxWIDs lines → normalizeWindowID wid = wid.
Proof.
  induction lines as [|l lines IH]; cbn [firefoxWIDs]; [set_solver|].
  intros [Hhere|Hrest]%elem_of_union; [|by apply IH].
  destruct (Contains l "Mozilla Firefox"); [|set_solver].
  destruct (Fields l) as [|part parts]; [set_solver|].
  apply elem_of_singleton in Hhere as ->. apply normalizeWindowID_fixed.
Qed.

Lemma pollsOf_S n : pollsOf (S n) = [Ran ["wmctrl"; "-l"]; Slept 100%Z] ++ pollsOf n.
Proof. reflexivity. Qed.

(** Every way the loop can end. *)
Lemma waitLoop_result turns : ∀ timeout beforeWIDs w r w',
  waitLoop E turns timeout beforeWIDs w = Some (r, w') →
  ∃ n, n ≤ turns ∧ db w' = db w
    ∧ ((∃ wid x h,
          r = (wid, None)
          ∧ events w' = events w ++ pollsOf n ++ [Ran ["wmctrl"; "-l"]]
          ∧ run E h ["wmctrl"; "-l"] = Some x ∧ failure x = None
          ∧ newFirefoxWID beforeWIDs (SplitLines (stdout x)) = Some wid)
       ∨ (r = ("", Some "timeout waiting for new Firefox window")
          ∧ events w' = events w ++ pollsOf n
          ∧ ((timeout ≤ clock w + 100 * Z.of_nat turns)%Z → (timeout ≤ clock w')%Z))).
Proof.
  induction turns as [|turns IH]; intros timeout beforeWIDs w r w'; cbn [waitLoop].
  - mrun. intros [= <- <-]. exists 0. split; [done|]. split; [done|]. right.
    split; [done|]. split; [by rewrite app_nil_r|]. lia.
  - mrun. rewrite Now_run. mrun.
    destruct (clock w <? timeout)%Z eqn:Hnow; mrun.
    2:{ intros [= <- <-]. exists 0. split; [lia|]. split; [done|]. right.
        split; [done|]. split; [by rewrite app_nil_r|]. apply Z.ltb_ge in Hnow. lia. }
    unfold Output. destruct (run E (events w) ["wmctrl"; "-l"]) as [x|] eqn:Hrun; [|done].
    mrun.
    set (w1 := record (Ran ["wmctrl"; "-l"]) (advance (Z.of_N (elapsed x)) w)).
    assert ((Sleep 100;; waitLoop E turns timeout beforeWIDs) w1 = Some (r, w') →
            ∃ n, n ≤ S turns ∧ db w' = db w
              ∧ ((∃ wid x h,
                    r = (wid, None)
                    ∧ events w' = events w ++ pollsOf n ++ [Ran ["wmctrl"; "-l"]]
                    ∧ run E h ["wmctrl"; "-l"] = Some x ∧ failure x = None
                    ∧ newFirefoxWID beforeWIDs (SplitLines (stdout x)) = Some wid)
                 ∨ (r = ("", Some "timeout waiting for new Firefox window")
                    ∧ events w' = events w ++ pollsOf n
                    ∧ ((timeout ≤ clock w + 100 * Z.of_nat (S turns))%Z
                       → (timeout ≤ clock w')%Z)))) as Hrest.
    { mrun. rewrite Sleep_run. mrun. intros Hloop.
      destruct (IH _ _ _ _ _ Hloop) as (n & Hn & Hdb & Hcases).
      exists (S n). split; [lia|]. split; [done|].
      destruct Hcases as [(wid & x' & h & -> & Hev & Hx' & Hok & Hnew)|(-> & Hev & Hclock)].
      - left. exists wid, x', h. split; [done|]. split; [|done].
        rewrite Hev. unfold w1. cbn [events record advance].
        rewrite pollsOf_S, <- !app_assoc. done.
      - right. split; [done|]. split.
        + rewrite Hev. unfold w1. cbn [events record advance].
          rewrite pollsOf_S, <- !app_assoc. done.
        + intros Htime. apply Hclock. unfold w1. cbn [clock record advance]. lia. }
    destruct (failure x) eqn:Hfail; mrun; [exact Hrest|].
    destruct (newFirefoxWID beforeWIDs (SplitLines (stdout x))) as [wid|] eqn:Hnew; mrun;
      [|exact Hrest].
    intros [= <- <-]. exists 0. split; [lia|]. split; [done|]. left.
    exists wid, x, (events w). by rewrite app_nil_l.
Qed.

Lemma waitFor_found (beforeWIDs : gset string) (w w' : World) (wid : string) :
  waitForNewFirefoxWindow E beforeWIDs w = Some ((wid, None), w') →
  (wid ∉ beforeWIDs)
  ∧ normalizeWindowID wid = wid
  ∧ (∃ x h, run E h ["wmctrl"; "-l"] = Some x ∧ failure x = None
            ∧ wid ∈ firefoxWIDs (SplitLines (stdout x)))
  ∧ (∃ n, n ≤ 50 ∧ events w' = events w ++ pollsOf n ++ [Ran ["wmctrl"; "-l"]])
  ∧ db w' = db w.
Proof.
  unfold waitForNewFirefoxWindow. mrun. rewrite Now_run. mrun. intros Hloop.
  destruct (waitLoop_result _ _ _ _ _ _ Hloop) as (n & Hn & Hdb & Hcases).
  destruct Hcases as [(wid' & x & h & Hr & Hev & Hx & Hok & Hnew)|(Hr & _)]; [|done].
  injection Hr as <-. destruct (newFirefoxWID_some _ _ _ Hnew) as [Hfresh Hin].
  split; [done|]. split; [by eapply firefoxWIDs_normal|].
  split; [by exists x, h|]. split; [by exists n|done].
Qed.

(** A window ID that [waitForNewFirefoxWindow] returns is new: it was not
    in [beforeWIDs]; it is the normal form of the ID of a Firefox window of
    a listing that succeeded; and the wait has only listed windows and
    slept, at most 50 times, and left the registry alone. *)
Theorem wait_returns_new_window (beforeWIDs : gset string) (w w' : World) (wid : string) :
  waitForNewFirefoxWindow E beforeWIDs w = Some ((wid, None), w') →
  (wid ∉ beforeWIDs)
  ∧ normalizeWindowID wid = wid
  ∧ (∃ x h, run E h ["wmctrl"; "-l"] = Some x ∧ failure x = None
            ∧ wid ∈ firefoxWIDs (SplitLines (stdout x)))
  ∧ (∃ n, n ≤ 50 ∧ events w' = events w ++ pollsOf n ++ [Ran ["wmctrl"; "-l"]])
  ∧ db w' = db w.
Proof. exact (waitFor_found beforeWIDs w w' wid). Qed.

Lemma waitFor_error (beforeWIDs : gset string) (w w' : World)
    (wid err : string) :
  waitForNewFirefoxWindow E beforeWIDs w = Some ((wid, Some err), w') →
  wid = "" ∧ err = "timeout waiting for new Firefox window"
  ∧ (clock w + 5000 ≤ clock w')%Z
  ∧ (∃ n, n ≤ 50 ∧ events w' = events w ++ pollsOf n)
  ∧ db w' = db w.
Proof.
  unfold waitForNewFirefoxWindow. mrun. rewrite Now_run. mrun. intros Hloop.
  destruct (waitLoop_result _ _ _ _ _ _ Hloop) as (n & Hn & Hdb & Hcases).
  destruct Hcases as [(wid' & x & h & Hr & _)|(Hr & Hev & Hclock)]; [done|].
  injection Hr as -> ->. split; [done|]. split; [done|].
  split; [apply Hclock; lia|]. split; [by exists n|done].
Qed.

(** The only error of [waitForNewFirefoxWindow] is the timeout, and it is
    not returned before the deadline: five seconds or more have passed; a
    listing that fails does not end the wait. *)
Theorem wait_error_is_timeout_at_deadline (beforeWIDs : gset string) (w w' : World)
    (wid err : string) :
  waitForNewFirefoxWindow E beforeWIDs w = Some ((wid, Some err), w') →
  wid = "" ∧ err = "timeout waiting for new Firefox window"
  ∧ (clock w + 5000 ≤ clock w')%Z
  ∧ (∃ n, n ≤ 50 ∧ events w' = events w ++ pollsOf n)
  ∧ db w' = db w.
Proof. exact (waitFor_error beforeWIDs w w' wid err). Qed.

(** The bound of 50 turns is never what ends the loop: with any larger
    bound the wait gives the same result. *)
Theorem wait_bound_is_enough (m : nat) (beforeWIDs : gset string) (w : World) :
  50 ≤ m →
  waitLoop E m (clock w + 5000) beforeWIDs w = waitForNewFirefoxWindow E beforeWIDs w.
Proof.
  intros Hm. unfold waitForNewFirefoxWindow. mrun. rewrite Now_run. mrun.
  apply waitLoop_turns_enough; lia.
Qed.

End DetectorResults.


Lemma wait_returns_new_window_witness :
  let w' := after (waitForNewFirefoxWindow envNewWindow beforeLaunch) worldEmpty in
  ("0x03400010" ∉ beforeLaunch)
  ∧ normalizeWindowID "0x03400010" = "0x03400010"
  ∧ (∃ x h, run envNewWindow h ["wmctrl"; "-l"] = Some x ∧ failure x = None
            ∧ "0x03400010" ∈ firefoxWIDs (SplitLines (stdout x)))
  ∧ (∃ n, n ≤ 50 ∧ events w' = events worldEmpty ++ pollsOf n ++ [Ran ["wmctrl"; "-l"]])
  ∧ db w' = db worldEmpty.
Proof.
  intros w'.
  apply (wait_returns_new_window envNewWindow beforeLaunch worldEmpty w' "0x03400010").
  vm_compute. reflexivity.
Defined.

Lemma wait_error_is_timeout_at_deadline_witness :
  let w' := after (waitForNewFirefoxWindow envWindowReused beforeLaunch) worldEmpty in
  "" = "" ∧ "timeout waiting for new Firefox window" = "timeout waiting for new Firefox window"
  ∧ (clock worldEmpty + 5000 ≤ clock w')%Z
  ∧ (∃ n, n ≤ 50 ∧ events w' = events worldEmpty ++ pollsOf n)
  ∧ db w' = db worldEmpty.
Proof.
  intros w'.
  apply (wait_error_is_timeout_at_deadline envWindowReused beforeLaunch worldEmpty w').
  vm_compute. reflexivity.
Defined.

Lemma wait_bound_is_enough_witness :
  waitLoop envNewWindow 80 (clock worldEmpty + 5000) beforeLaunch worldEmpty
  = waitForNewFirefoxWindow envNewWindow beforeLaunch worldEmpty.
Proof. apply wait_bound_is_enough. lia. Defined.

(** ** The open flow *)

Ltac step_output :=
  match goal with
  | |- context [Output ?E ?argv ?w] =>
    let x := fresh "x" in
    let H := fresh "Hrun" in
    destruct (run E (events w) argv) as [x|] eqn:H;
    [rewrite (Output_run E argv w x H) | rewrite (Output_blocked E argv w H)]
  end.

Section OpenResults.
Variable E : Env.
Variable config : Config.
Variable Sscanf_dimensions : string → Z * Z.

Lemma getScreenDimensions_run w :
  getScreenDimensions E Sscanf_dimensions w = None
  ∨ ∃ x dims, run E (events w) ["xdpyinfo"] = Some x
      ∧ getScreenDimensions E Sscanf_dimensions w
        = Some (dims, record (Ran ["xdpyinfo"]) (advance (Z.of_N (elapsed x)) w)).
Proof.
  unfold getScreenDimensions. mrun. step_output; [|by left]. right. mrun.
  exists x. destruct (failure x); mrun; [by eexists|].
  destruct (find _ _); mrun; by eexists.
Qed.

Lemma Run_run argv w :
  Run E argv w = None
  ∨ ∃ x, run E (events w) argv = Some x
      ∧ Run E argv w = Some (failure x, record (Ran argv) (advance (Z.of_N (elapsed x)) w)).
Proof.
  unfold Run. mrun. step_output; [|by left]. right. mrun. by exists x.
Qed.

(** Every way [openBrowserInSideWindow] can return. *)
Lemma open_cases (searchURL query : string) (w w' : World) (r : error) :
  openBrowserInSideWindow E config Sscanf_dimensions searchURL query w = Some (r, w') →
  ∃ x0 firefoxArgs,
    run E (events w) ["wmctrl"; "-l"] = Some x0
    ∧ ((∃ e, r = Some ("failed to start firefox (is it installed?): " +:+ e)
             ∧ events w' = events w ++ [Ran ["wmctrl"; "-l"]; Started ("firefox" :: firefoxArgs)]
             ∧ db w' = db w)
       ∨ (r = Some ("failed to detect new Firefox window: "
                    +:+ "timeout waiting for new Firefox window")
          ∧ (clock w + 5000 ≤ clock w')%Z ∧ db w' = db w)
       ∨ (r = None
          ∧ ∃ wid x h geometry w2,
              run E h ["wmctrl"; "-l"] = Some x ∧ failure x = None
              ∧ wid ∈ firefoxWIDs (SplitLines (stdout x))
              ∧ (failure x0 = None → wid ∉ firefoxWIDs (SplitLines (stdout x0)))
              ∧ Logged ("Detected new Firefox window: " +:+ wid) ∈ events w'
              ∧ Ran ["wmctrl"; "-i"; "-r"; wid; "-e"; geometry] ∈ events w'
              ∧ db w2 = db w
              ∧ (∃ err w3,
                   addResearchWindow E wid w2 = Some (err, w3)
                   ∧ w' = match err with
                          | Some e =>
                            record (Logged ("Warning: couldn't track research window: "
                                            +:+ e)) w3
                          | None => w3
                          end))).
Proof.
  unfold openBrowserInSideWindow. mrun. step_output; [|done]. mrun.
  set (beforeWIDs := match failure x with
                     | Some _ => ∅
                     | None => firefoxWIDs (SplitLines (stdout x))
                     end).
  unfold Start at 1. mrun.
  match goal with
  | |- context [start E ?h ("firefox" :: ?args)] =>
    set (firefoxArgs := args); destruct (start E h ("firefox" :: firefoxArgs)) as [e|]
  end; mrun.
  { intros [= <- <-]. exists x, firefoxArgs. split; [done|]. left. exists e.
    split; [done|]. split; [|done]. cbn [events record advance]. by rewrite <- app_assoc. }
  match goal with
  | |- context [waitForNewFirefoxWindow E beforeWIDs ?w1] =>
    destruct (waitForNewFirefoxWindow E beforeWIDs w1) as [[[wid [err|]] w2]|] eqn:Hwait
  end; mrun; [| |done].
  { destruct (waitFor_error E _ _ _ _ _ Hwait)
      as (-> & -> & Hclock & _ & Hdb).
    intros [= <- <-]. exists x, firefoxArgs. split; [done|]. right. left.
    split; [done|]. cbn [clock db record advance] in Hclock, Hdb. split; [lia|done]. }
  destruct (waitFor_found E _ _ _ _ Hwait)
    as (Hfresh & Hnormal & (x1 & h1 & Hx1 & Hok1 & Hin1) & _ & Hdb2).
  cbn [db record advance] in Hdb2.
  unfold logPrintf at 1. mrun.
  match goal with
  | |- context [getScreenDimensions E Sscanf_dimensions ?w3] =>
    destruct (getScreenDimensions_run w3)
      as [->|(x2 & [screenWidth screenHeight] & Hx2 & ->)]; [done|]
  end.
  mrun.
  match goal with
  | |- context [Run E ?argv ?w4] =>
    destruct (Run_run argv w4) as [->|(x3 & Hx3 & ->)]; [done|]
  end.
  mrun.
  match goal with
  | |- context [match failure x3 with Some e => logPrintf (@?msg e) | None => mret () end ?w4] =>
    destruct (warn_step (failure x3) msg w4) as (w5 & Hw5 & Hdb5 & evs5 & Hev5 & _)
  end.
  cbv beta in Hw5. rewrite Hw5. clear Hw5.
  mrun. rewrite Sleep_run. mrun.
  match goal with
  | |- context [Run E ?argv ?w6] =>
    destruct (Run_run argv w6) as [->|(x4 & Hx4 & ->)]; [done|]
  end.
  mrun.
  match goal with
  | |- context [Ran ["wmctrl"; "-i"; "-r"; wid; "-e"; ?g]] => set (geometry := g)
  end.
  match goal with
  | |- context [match failure x4 with Some e => logPrintf (@?msg e) | None => logPrintf ?m end ?w6] =>
    assert (∃ line, match failure x4 with Some e => logPrintf (msg e) | None => logPrintf m end w6
                    = Some (tt, record (Logged line) w6)) as [posLine Hpos]
      by (destruct (failure x4); by eexists);
    cbv beta in Hpos; rewrite Hpos; clear Hpos;
    set (w7 := record (Logged posLine) w6)
  end.
  mrun.
  assert (db w7 = db w) as Hdb7.
  { unfold w7. cbn [db record advance]. rewrite Hdb5. cbn [db record advance]. done. }
  assert (∃ evs, events w7 = events w2 ++ [Logged ("Detected new Firefox window: " +:+ wid)]
                             ++ evs ++ [Ran ["wmctrl"; "-i"; "-r"; wid; "-e"; geometry];
                                        Logged posLine]) as [evs7 Hev7].
  { unfold w7. cbn [events record advance]. rewrite Hev5. cbn [events record advance].
    eexists ([_] ++ [_] ++ evs5 ++ [_]). rewrite <- !app_assoc. done. }
  assert (∃ err w8, addResearchWindow E wid w7 = Some (err, w8)
                    ∧ ∃ tail, events w8 = events w7 ++ tail) as (err & w8 & Hadd & tail & Hev8).
  { rewrite addResearchWindow_run. destruct (db w7).
    - rewrite Exec_run. eexists _, _. split; [done|]. by eexists [_].
    - eexists _, _. split; [done|]. exists []. by rewrite app_nil_r. }
  rewrite Hadd. mrun.
  assert (∀ w9 more, events w9 = events w8 ++ more →
            Logged ("Detected new Firefox window: " +:+ wid) ∈ events w9
            ∧ Ran ["wmctrl"; "-i"; "-r"; wid; "-e"; geometry] ∈ events w9) as Hevents.
  { intros w9 more ->. rewrite Hev8, Hev7.
    rewrite !elem_of_app, !elem_of_cons. auto 10. }
  destruct err as [err|]; mrun; unfold logPrintf; intros [= <- <-];
    exists x, firefoxArgs; (split; [done|]); right; right; (split; [done|]).
  - destruct (Hevents (record (Logged ("Warning: couldn't track research window: " +:+ err)) w8)
                [Logged ("Warning: couldn't track research window: " +:+ err)] eq_refl)
      as [Hlog Hpos].
    exists wid, x1, h1, geometry, w7. repeat (split; [done|]).
    split; [intros Hok; unfold beforeWIDs in Hfresh; by rewrite Hok in Hfresh|].
    split; [done|]. split; [done|]. split; [done|].
    by exists (Some err), w8.
  - destruct (Hevents w8 [] ltac:(by rewrite app_nil_r)) as [Hlog Hpos].
    exists wid, x1, h1, geometry, w7. repeat (split; [done|]).
    split; [intros Hok; unfold beforeWIDs in Hfresh; by rewrite Hok in Hfresh|].
    split; [done|]. split; [done|]. split; [done|].
    by exists None, w8.
Qed.

End OpenResults.

Section OpenTheorems.
Variable E : Env.
Variable config : Config.
Variable Sscanf_dimensions : string → Z * Z.

(** [openBrowserInSideWindow] fails in two ways only: Firefox does not
    start, or no new window is detected before the deadline.  A failure of
    the first listing, of [xdpyinfo], of the un-maximize or positioning
    command, or of the registry insert never makes it fail.  When it fails
    the registry is as it was. *)
Theorem open_fails_only_on_start_or_timeout (searchURL query : string) (w w' : World)
    (err : string) :
  openBrowserInSideWindow E config Sscanf_dimensions searchURL query w = Some (Some err, w') →
  ((∃ e, err = "failed to start firefox (is it installed?): " +:+ e)
   ∨ err = "failed to detect new Firefox window: timeout waiting for new Firefox window")
  ∧ db w' = db w.
Proof.
  intros Hopen. destruct (open_cases _ _ _ _ _ _ _ _ Hopen) as (x0 & args & _ & Hcases).
  destruct Hcases as [(e & [= ->] & _ & Hdb)|[([= ->] & _ & Hdb)|(? & _)]]; [| |done].
  - split; [|done]. left. by exists e.
  - split; [|done]. by right.
Qed.

(** When [openBrowserInSideWindow] succeeds, the window it has detected is
    the normal form of a Firefox window of a listing, is none of the Firefox
    windows listed before the launch, and has been positioned; the registry
    is as before or has this one window upserted, and with a working store
    it has this window upserted. *)
Theorem open_success_tracks_new_window (searchURL query : string) (w w' : World) :
  openBrowserInSideWindow E config Sscanf_dimensions searchURL query w = Some (None, w') →
  ∃ wid geometry,
    normalizeWindowID wid = wid
    ∧ (∃ x h, run E h ["wmctrl"; "-l"] = Some x ∧ failure x = None
              ∧ wid ∈ firefoxWIDs (SplitLines (stdout x)))
    ∧ (∀ x0, run E (events w) ["wmctrl"; "-l"] = Some x0 → failure x0 = None →
             wid ∉ firefoxWIDs (SplitLines (stdout x0)))
    ∧ Logged ("Detected new Firefox window: " +:+ wid) ∈ events w'
    ∧ Ran ["wmctrl"; "-i"; "-r"; wid; "-e"; geometry] ∈ events w'
    ∧ match db w with
      | None => db w' = None
      | Some rows => db w' = Some rows ∨ ∃ t, db w' = Some (<[wid := t]> rows)
      end
    ∧ ((∀ h s, sqlFault E h s = None) → ∀ rows, db w = Some rows →
         ∃ t, db w' = Some (<[wid := t]> rows)).
Proof.
  intros Hopen. destruct (open_cases _ _ _ _ _ _ _ _ Hopen) as (x0 & args & Hx0 & Hcases).
  destruct Hcases as [(e & ? & _)|[(? & _)|(_ & Hok)]]; [done|done|].
  destruct Hok as (wid & x & h & geometry & w2 & Hx & Hfail & Hin & Hfresh & Hlog & Hpos
                   & Hdb2 & err & w3 & Hadd & ->).
  exists wid, geometry.
  split; [by eapply firefoxWIDs_normal|]. split; [by exists x, h|].
  split; [intros x0' Hx0'; rewrite Hx0 in Hx0'; injection Hx0' as <-; exact Hfresh|].
  split; [done|]. split; [done|].
  assert (normalizeWindowID wid = wid) as Hnormal by by eapply firefoxWIDs_normal.
  rewrite addResearchWindow_run, Hdb2, Hnormal in Hadd.
  assert (∀ e, db (match e with
                   | Some e' =>
                     record (Logged ("Warning: couldn't track research window: " +:+ e')) w3
                   | None => w3
                   end) = db w3) as Hdbw by (by intros [?|]).
  rewrite Hdbw. destruct (db w) as [rows|] eqn:Hdb.
  - rewrite Exec_run in Hadd. injection Hadd as Herr <-. cbn [db record]. rewrite Hdb2.
    split.
    + destruct (sqlFault E (events w2) _); [by left|right; by eexists].
    + intros Hstore rows' [= <-]. rewrite Hstore. by eexists.
  - injection Hadd as _ <-. rewrite Hdb2. split; [done|]. by intros _ rows' ?.
Qed.

End OpenTheorems.

Lemma open_fails_only_on_start_or_timeout_witness :
  let w' := after (openBrowserInSideWindow envWindowReused configDefault sscanfFullHD
                     "https://kagi.com/search?q=%s" "rocq prover") worldEmpty in
  ((∃ e, "failed to detect new Firefox window: timeout waiting for new Firefox window"
         = "failed to start firefox (is it installed?): " +:+ e)
   ∨ "failed to detect new Firefox window: timeout waiting for new Firefox window"
     = "failed to detect new Firefox window: timeout waiting for new Firefox window")
  ∧ db w' = db worldEmpty.
Proof.
  intros w'.
  apply (open_fails_only_on_start_or_timeout envWindowReused configDefault sscanfFullHD
           "https://kagi.com/search?q=%s" "rocq prover" worldEmpty w').
  vm_compute. reflexivity.
Defined.

Lemma open_success_tracks_new_window_witness :
  let w' := after (openBrowserInSideWindow envNewWindow configDefault sscanfFullHD
                     "https://kagi.com/search?q=%s" "rocq prover") worldEmpty in
  ∃ wid geometry,
    normalizeWindowID wid = wid
    ∧ (∃ x h, run envNewWindow h ["wmctrl"; "-l"] = Some x ∧ failure x = None
              ∧ wid ∈ firefoxWIDs (SplitLines (stdout x)))
    ∧ (∀ x0, run envNewWindow (events worldEmpty) ["wmctrl"; "-l"] = Some x0 →
             failure x0 = None → wid ∉ firefoxWIDs (SplitLines (stdout x0)))
    ∧ Logged ("Detected new Firefox window: " +:+ wid) ∈ events w'
    ∧ Ran ["wmctrl"; "-i"; "-r"; wid; "-e"; geometry] ∈ events w'
    ∧ match db worldEmpty with
      | None => db w' = None
      | Some rows => db w' = Some rows ∨ ∃ t, db w' = Some (<[wid := t]> rows)
      end
    ∧ ((∀ h s, sqlFault envNewWindow h s = None) → ∀ rows, db worldEmpty = Some rows →
         ∃ t, db w' = Some (<[wid := t]> rows)).
Proof.
  intros w'.
  apply (open_success_tracks_new_window envNewWindow configDefault sscanfFullHD
           "https://kagi.com/search?q=%s" "rocq prover" worldEmpty w').
  vm_compute. reflexivity.
Defined.

(** ** The registry *)

Section RegistryResults.
Variable E : Env.

(** An upsert or a removal is all or nothing, and touches the entry of the
    normalized ID only: [addResearchWindow] returns nil with the ID
    registered at the time of the call, or an error with the registry as it
    was; [removeResearchWindow] returns nil with the ID gone, or an error
    with the registry as it was. *)
Theorem registry_ops_touch_one_entry (wid : string) (w : World) (rows : gmap string Z) :
  db w = Some rows →
  (∃ r w', addResearchWindow E wid w = Some (r, w')
     ∧ ((r = None ∧ db w' = Some (<[normalizeWindowID wid := clock w]> rows))
        ∨ (r ≠ None ∧ db w' = Some rows))
     ∧ ∀ rows' k, db w' = Some rows' → k ≠ normalizeWindowID wid → rows' !! k = rows !! k)
  ∧ (∃ r w', removeResearchWindow E wid w = Some (r, w')
     ∧ ((r = None ∧ db w' = Some (delete (normalizeWindowID wid) rows))
        ∨ (r ≠ None ∧ db w' = Some rows))
     ∧ ∀ rows' k, db w' = Some rows' → k ≠ normalizeWindowID wid → rows' !! k = rows !! k).
Proof.
  intros Hdb. split.
  - rewrite addResearchWindow_run, Hdb, Exec_run. eexists _, _. split; [done|].
    cbn [db record]. rewrite Hdb.
    destruct (sqlFault E (events w) _) as [e|]; cbn [applyStmt fmap option_fmap option_map].
    + split; [by right|]. by intros rows' k [= <-] _.
    + split; [by left|]. intros rows' k [= <-] Hk. by rewrite lookup_insert_ne.
  - rewrite removeResearchWindow_run, Hdb, Exec_run. eexists _, _. split; [done|].
    cbn [db record]. rewrite Hdb.
    destruct (sqlFault E (events w) _) as [e|]; cbn [applyStmt fmap option_fmap option_map].
    + split; [by right|]. by intros rows' k [= <-] _.
    + split; [by left|]. intros rows' k [= <-] Hk. by rewrite lookup_delete_ne.
Qed.

(** Registering a window under one textual form and removing it under
    another form with the same normal form hits the same entry: after the
    upsert the listing holds the normalized ID, after the removal it does
    not, and when the ID was not tracked before, the registry is back to
    what it was. *)
Theorem register_then_remove (wid wid' : string) (w w1 : World) :
  addResearchWindow E wid w = Some (None, w1) →
  normalizeWindowID wid' = normalizeWindowID wid →
  (∀ l q, getResearchWindows E w1 = Some ((l, None), q) → normalizeWindowID wid ∈ l)
  ∧ ∀ w2, removeResearchWindow E wid' w1 = Some (None, w2) →
      (∀ l q, getResearchWindows E w2 = Some ((l, None), q) → normalizeWindowID wid ∉ l)
      ∧ ∃ rows, db w = Some rows
          ∧ db w2 = Some (delete (normalizeWindowID wid) rows)
          ∧ (rows !! normalizeWindowID wid = None → db w2 = db w).
Proof.
  intros Hadd Hsame.
  destruct (addResearchWindow_ok _ _ _ _ Hadd) as (rows & Hdb & Hdb1). split.
  - intros l q Hl. destruct (getResearchWindows_ok _ _ _ _ Hl) as (rows1 & Hrows1 & ->).
    rewrite Hdb1 in Hrows1. injection Hrows1 as <-.
    apply elem_of_storedOrder. rewrite lookup_insert_eq. by eexists.
  - intros w2 Hrm. rewrite removeResearchWindow_run, Hdb1, Exec_run, Hsame in Hrm.
    destruct (sqlFault E (events w1) _); [done|]. injection Hrm as <-.
    assert (db (record (Sql (DeleteWindowID (normalizeWindowID wid)))
                  {| db := applyStmt (DeleteWindowID (normalizeWindowID wid)) <$> db w1;
                     clock := clock w1; events := events w1 |})
            = Some (delete (normalizeWindowID wid) rows)) as Hdb2.
    { cbn [db record]. rewrite Hdb1. cbn. by rewrite delete_insert_eq. }
    split.
    + intros l q Hl. destruct (getResearchWindows_ok _ _ _ _ Hl) as (rows2 & Hrows2 & ->).
      rewrite Hdb2 in Hrows2. injection Hrows2 as <-.
      rewrite elem_of_storedOrder, lookup_delete_eq. by intros [? ?].
    + exists rows. split; [done|]. split; [done|].
      intros Hnone. rewrite Hdb2, Hdb. by rewrite delete_id.
Qed.

(** Removing an ID that is not tracked changes nothing in the registry, and
    is no error unless the store fails. *)
Theorem remove_untracked_is_noop (wid : string) (w w' : World) (rows : gmap string Z)
    (r : error) :
  db w = Some rows →
  rows !! normalizeWindowID wid = None →
  removeResearchWindow E wid w = Some (r, w') →
  db w' = db w
  ∧ r = sqlFault E (events w) (DeleteWindowID (normalizeWindowID wid))
  ∧ events w' = events w ++ [Sql (DeleteWindowID (normalizeWindowID wid))].
Proof.
  intros Hdb Hnone. rewrite removeResearchWindow_run, Hdb, Exec_run.
  intros [= <- <-]. cbn [db record events]. rewrite Hdb. split; [|done].
  destruct (sqlFault E (events w) _); [done|]. cbn. by rewrite delete_id.
Qed.

End RegistryResults.

Lemma registry_ops_touch_one_entry_witness :
  (∃ r w', addResearchWindow envQuiet "77" worldTracked = Some (r, w')
     ∧ ((r = None ∧ db w' = Some (<[normalizeWindowID "77" := clock worldTracked]>
                                    (<["0x0000007b" := 1%Z]> ∅)))
        ∨ (r ≠ None ∧ db w' = Some (<["0x0000007b" := 1%Z]> ∅)))
     ∧ ∀ rows' k, db w' = Some rows' → k ≠ normalizeWindowID "77" →
         rows' !! k = (<["0x0000007b" := 1%Z]> ∅ : gmap string Z) !! k)
  ∧ (∃ r w', removeResearchWindow envQuiet "77" worldTracked = Some (r, w')
     ∧ ((r = None ∧ db w' = Some (delete (normalizeWindowID "77")
                                    (<["0x0000007b" := 1%Z]> ∅)))
        ∨ (r ≠ None ∧ db w' = Some (<["0x0000007b" := 1%Z]> ∅)))
     ∧ ∀ rows' k, db w' = Some rows' → k ≠ normalizeWindowID "77" →
         rows' !! k = (<["0x0000007b" := 1%Z]> ∅ : gmap string Z) !! k).
Proof. apply (registry_ops_touch_one_entry envQuiet "77" worldTracked). reflexivity. Defined.

Lemma register_then_remove_witness :
  let w1 := after (addResearchWindow envQuiet "123") worldEmpty in
  (∀ l q, getResearchWindows envQuiet w1 = Some ((l, None), q) → normalizeWindowID "123" ∈ l)
  ∧ ∀ w2, removeResearchWindow envQuiet "0x0000007b" w1 = Some (None, w2) →
      (∀ l q, getResearchWindows envQuiet w2 = Some ((l, None), q) →
              normalizeWindowID "123" ∉ l)
      ∧ ∃ rows, db worldEmpty = Some rows
          ∧ db w2 = Some (delete (normalizeWindowID "123") rows)
          ∧ (rows !! normalizeWindowID "123" = None → db w2 = db worldEmpty).
Proof.
  intros w1.
  apply (register_then_remove envQuiet "123" "0x0000007b" worldEmpty w1); reflexivity.
Defined.

Lemma remove_untracked_is_noop_witness :
  let w' := after (removeResearchWindow envQuiet "77") worldTracked in
  db w' = db worldTracked
  ∧ None = sqlFault envQuiet (events worldTracked) (DeleteWindowID (normalizeWindowID "77"))
  ∧ events w' = events worldTracked ++ [Sql (DeleteWindowID (normalizeWindowID "77"))].
Proof.
  intros w'.
  apply (remove_untracked_is_noop envQuiet "77" worldTracked w' (<["0x0000007b" := 1%Z]> ∅) None);
    reflexivity.
Defined.

(** ** The reconciler *)

Section ReconcilerResults.
Variable E : Env.

Lemma keepsListed_refl current rows : keepsListed current rows rows.
Proof. intros k. by left. Qed.

Lemma keepsListed_trans current a b c :
  keepsListed current a b → keepsListed current b c → keepsListed current a c.
Proof.
  intros Hab Hbc k. destruct (Hbc k) as [Hk|[Hk Hc]]; [|by right].
  rewrite Hk. apply Hab.
Qed.

Lemma removeIfDead_keeps_listed current wid w rows :
  db w = Some rows → normalizeWindowID wid = wid →
  ∃ w' rows', removeIfDead E current wid w = Some (tt, w')
    ∧ db w' = Some rows' ∧ keepsListed current rows rows'
    ∧ ∃ evs, events w' = events w ++ evs
        ∧ Forall (λ e, ∃ k, e = Sql (DeleteWindowID k) ∨ ∃ msg, e = Logged msg) evs.
Proof.
  intros Hdb Hnormal. unfold removeIfDead. case_bool_decide as Hlive; mrun.
  - exists w, rows. split; [done|]. split; [done|]. split; [apply keepsListed_refl|].
    exists []. by rewrite app_nil_r.
  - rewrite removeResearchWindow_run, Hdb, Exec_run, Hnormal. mrun.
    destruct (sqlFault E (events w) (DeleteWindowID wid)) as [e|]; unfold logPrintf.
    + eexists _, rows. split; [done|]. cbn [db record]. split; [done|].
      split; [apply keepsListed_refl|].
      eexists [_; _]. cbn [events record]. rewrite <- app_assoc. split; [done|].
      repeat constructor; exists wid; eauto.
    + eexists _, (delete wid rows). split; [done|]. cbn [db record]. rewrite Hdb.
      split; [done|]. split.
      * intros k. destruct (decide (k = wid)) as [->|Hne].
        -- right. by rewrite lookup_delete_eq.
        -- left. by rewrite lookup_delete_ne.
      * eexists [_; _]. cbn [events record]. rewrite <- app_assoc. split; [done|].
        repeat constructor; exists wid; eauto.
Qed.

Lemma forEach_keeps_listed current l : ∀ w rows,
  db w = Some rows → Forall (λ k, normalizeWindowID k = k) l →
  ∃ w' rows', forEach l (removeIfDead E current) w = Some (tt, w')
    ∧ db w' = Some rows' ∧ keepsListed current rows rows'
    ∧ ∃ evs, events w' = events w ++ evs
        ∧ Forall (λ e, ∃ k, e = Sql (DeleteWindowID k) ∨ ∃ msg, e = Logged msg) evs.
Proof.
  induction l as [|wid l IH]; intros w rows Hdb Hnormal; cbn [forEach]; mrun.
  - exists w, rows. split; [done|]. split; [done|]. split; [apply keepsListed_refl|].
    exists []. by rewrite app_nil_r.
  - apply Forall_cons in Hnormal as [Hwid Hl].
    destruct (removeIfDead_keeps_listed current wid w rows Hdb Hwid)
      as (w1 & rows1 & -> & Hdb1 & Hkeep1 & evs1 & Hev1 & Hevs1).
    mrun. destruct (IH w1 rows1 Hdb1 Hl) as (w2 & rows2 & -> & Hdb2 & Hkeep2 & evs2 & Hev2 & Hevs2).
    exists w2, rows2. split; [done|]. split; [done|].
    split; [by eapply keepsListed_trans|].
    exists (evs1 ++ evs2). split; [by rewrite Hev2, Hev1, app_assoc|]. by apply Forall_app.
Qed.

(** Every way the reconciler can return, for a registry of normalized
    IDs. *)
Lemma cleanup_cases (w w' : World) (rows : gmap string Z) (r : error) :
  db w = Some rows →
  map_Forall (λ k _, normalizeWindowID k = k) rows →
  cleanupDeadWindows E w = Some (r, w') →
  (∃ e, r = Some e ∧ sqlFault E (events w) SelectWindowIDs = Some e
        ∧ w' = record (Sql SelectWindowIDs) w)
  ∨ (∃ x, run E (events w ++ [Sql SelectWindowIDs]) ["wmctrl"; "-l"] = Some x
      ∧ ((∃ e, failure x = Some e ∧ r = Some ("couldn't get window list: " +:+ e)
               ∧ db w' = Some rows
               ∧ events w' = events w ++ [Sql SelectWindowIDs; Ran ["wmctrl"; "-l"]])
         ∨ (failure x = None ∧ r = None
            ∧ ∃ rows', db w' = Some rows'
                ∧ keepsListed (currentWIDs (SplitLines (stdout x))) rows rows'))).
Proof.
  intros Hdb Hnormal. unfold cleanupDeadWindows. mrun. rewrite Hdb. mrun.
  unfold QueryWindowIDs. rewrite Hdb. mrun.
  destruct (sqlFault E (events w) SelectWindowIDs) as [e|] eqn:Hq; mrun.
  { intros [= <- <-]. left. by exists e. }
  step_output; [|done]. mrun. intros Hrest. right. exists x.
  split; [exact Hrun|]. revert Hrest.
  destruct (failure x) as [e|]; mrun.
  { intros [= <- <-]. left. exists e. repeat split; try done.
    cbn [events record advance]. by rewrite <- app_assoc. }
  assert (Forall (λ k, normalizeWindowID k = k) (storedOrder rows)) as Hall.
  { apply Forall_forall. intros k [v Hk]%elem_of_storedOrder.
    by apply (Hnormal k v). }
  match goal with
  | |- context [forEach _ (removeIfDead E ?cur) ?w1] =>
    destruct (forEach_keeps_listed cur (storedOrder rows) w1 rows Hdb Hall)
      as (w2 & rows2 & -> & Hdb2 & Hkeep & _)
  end.
  mrun. intros [= <- <-]. right. split; [done|]. split; [done|]. by exists rows2.
Qed.

(** The reconciler never removes an entry whose ID is a first field of the
    listing, whatever the store does; whenever it returns an error it has
    removed nothing, and once the listing has succeeded it returns nil even
    if removals fail. *)
Theorem cleanup_keeps_listed_windows (w w' : World) (rows : gmap string Z) (r : error) :
  db w = Some rows →
  map_Forall (λ k _, normalizeWindowID k = k) rows →
  cleanupDeadWindows E w = Some (r, w') →
  ∃ rows', db w' = Some rows'
    ∧ rows' ⊆ rows
    ∧ (r ≠ None → rows' = rows)
    ∧ (∀ x, run E (events w ++ [Sql SelectWindowIDs]) ["wmctrl"; "-l"] = Some x →
         (sqlFault E (events w) SelectWindowIDs = None → failure x = None → r = None)
         ∧ ∀ k, k ∈ currentWIDs (SplitLines (stdout x)) → rows' !! k = rows !! k).
Proof.
  intros Hdb Hnormal Hrun.
  destruct (cleanup_cases w w' rows r Hdb Hnormal Hrun)
    as [(e & -> & Hq & ->)|(x & Hx & [(e & Hfail & -> & Hdb' & _)|(Hok & -> & rows' & Hdb' & Hkeep)])].
  - exists rows. split; [done|]. split; [done|]. split; [done|].
    intros x Hx. split; [by rewrite Hq|done].
  - exists rows. split; [done|]. split; [done|]. split; [done|].
    intros x' Hx'. rewrite Hx in Hx'. injection Hx' as <-. split; [by rewrite Hfail|done].
  - exists rows'. split; [done|]. split.
    { apply map_subseteq_spec. intros k v Hk. destruct (Hkeep k) as [<-|[Hnone _]]; congruence. }
    split; [done|].
    intros x' Hx'. rewrite Hx in Hx'. injection Hx' as <-. split; [done|].
    intros k Hk. destruct (Hkeep k) as [|[_ ?]]; done.
Qed.

End ReconcilerResults.

Lemma cleanup_keeps_listed_windows_witness :
  let w' := after (cleanupDeadWindows envLiveBD) worldABC in
  ∃ rows', db w' = Some rows'
    ∧ rows' ⊆ rowsABC
    ∧ ((None : error) ≠ None → rows' = rowsABC)
    ∧ (∀ x, run envLiveBD (events worldABC ++ [Sql SelectWindowIDs]) ["wmctrl"; "-l"] = Some x →
         (sqlFault envLiveBD (events worldABC) SelectWindowIDs = None → failure x = None →
          (None : error) = None)
         ∧ ∀ k, k ∈ currentWIDs (SplitLines (stdout x)) → rows' !! k = rowsABC !! k).
Proof.
  intros w'.
  apply (cleanup_keeps_listed_windows envLiveBD worldABC w' rowsABC None).
  - reflexivity.
  - unfold rowsABC. repeat (apply map_Forall_insert_2; [reflexivity|]).
    apply map_Forall_empty.
  - vm_compute. reflexivity.
Defined.

Section ReconcilerExact.
Variable E : Env.

(** The reconciler with a working store and a listing that succeeds. *)
Lemma cleanup_exact (w : World) (rows : gmap string Z) (x : Exit) :
  db w = Some rows →
  map_Forall (λ k _, normalizeWindowID k = k) rows →
  (∀ h s, sqlFault E h s = None) →
  run E (events w ++ [Sql SelectWindowIDs]) ["wmctrl"; "-l"] = Some x →
  failure x = None →
  ∃ w', cleanupDeadWindows E w = Some (None, w')
    ∧ db w' = Some (filter (λ kv, kv.1 ∈ currentWIDs (SplitLines (stdout x))) rows)
    ∧ events w' =
        events w ++ [Sql SelectWindowIDs; Ran ["wmctrl"; "-l"]]
        ++ concat (cleanedUp <$> filter (λ k, k ∉ currentWIDs (SplitLines (stdout x)))
                                   (storedOrder rows)).
Proof.
  intros Hdb Hnorm Hstore Hrun Hok.
  unfold cleanupDeadWindows. mrun. rewrite Hdb. mrun.
  unfold QueryWindowIDs. rewrite Hdb, Hstore. mrun.
  rewrite (Output_run E ["wmctrl"; "-l"] (record (Sql SelectWindowIDs) w) x Hrun).
  mrun. rewrite Hok. mrun.
  set (w1 := record (Ran ["wmctrl"; "-l"])
               (advance (Z.of_N (elapsed x)) (record (Sql SelectWindowIDs) w))).
  assert (db w1 = Some rows) as Hdb1 by done.
  assert (Forall (λ k, normalizeWindowID k = k) (storedOrder rows)) as Hall.
  { apply Forall_forall. intros k [v Hk]%elem_of_storedOrder.
    by apply (Hnorm k v). }
  destruct (forEach_removeIfDead_exact E Hstore (currentWIDs (SplitLines (stdout x)))
              _ w1 rows Hdb1 Hall) as (w2 & -> & Hdb2 & _ & Hev2).
  mrun. eexists. split; [done|].
  rewrite prune_dead_filter in Hdb2. split; [done|].
  rewrite Hev2. unfold w1. cbn [events record advance]. by rewrite <- !app_assoc.
Qed.

Lemma filter_none {A} (P : A → Prop) `{!∀ a, Decision (P a)} (l : list A) :
  Forall (λ a, ¬ P a) l → filter P l = [].
Proof.
  induction 1 as [|a l Ha _ IH]; [done|]. by rewrite filter_cons_False.
Qed.

Lemma filter_all {A} (P : A → Prop) `{!∀ a, Decision (P a)} (l : list A) :
  Forall P l → filter P l = l.
Proof.
  induction 1 as [|a l Ha _ IH]; [done|]. rewrite filter_cons_True by done. by f_equal.
Qed.

Lemma filter_normal (rows : gmap string Z) (P : string * Z → Prop) `{!∀ kv, Decision (P kv)} :
  map_Forall (λ k _, normalizeWindowID k = k) rows →
  map_Forall (λ k _, normalizeWindowID k = k) (filter P rows).
Proof. intros Hall k v [Hk _]%map_lookup_filter_Some. by apply (Hall k v). Qed.

(** The reconciler is idempotent: run again on a listing with the same
    first fields, it removes nothing more and logs no removal. *)
Theorem cleanup_twice (w : World) (rows : gmap string Z) (x x' : Exit) :
  db w = Some rows →
  map_Forall (λ k _, normalizeWindowID k = k) rows →
  (∀ h s, sqlFault E h s = None) →
  (∀ h, run E h ["wmctrl"; "-l"] = Some x ∨ run E h ["wmctrl"; "-l"] = Some x') →
  failure x = None → failure x' = None →
  currentWIDs (SplitLines (stdout x')) = currentWIDs (SplitLines (stdout x)) →
  ∃ w1 w2,
    cleanupDeadWindows E w = Some (None, w1)
    ∧ cleanupDeadWindows E w1 = Some (None, w2)
    ∧ db w2 = db w1
    ∧ events w2 = events w1 ++ [Sql SelectWindowIDs; Ran ["wmctrl"; "-l"]].
Proof.
  intros Hdb Hnorm Hstore Hlist Hok Hok' Hsame.
  assert (∀ w0 rows0, db w0 = Some rows0 →
            map_Forall (λ k _, normalizeWindowID k = k) rows0 →
            ∃ w',
              cleanupDeadWindows E w0 = Some (None, w')
              ∧ db w' = Some (filter (λ kv, kv.1 ∈ currentWIDs (SplitLines (stdout x))) rows0)
              ∧ events w' =
                  events w0 ++ [Sql SelectWindowIDs; Ran ["wmctrl"; "-l"]]
                  ++ concat (cleanedUp <$> filter (λ k, k ∉ currentWIDs (SplitLines (stdout x)))
                                             (storedOrder rows0))) as Hrun.
  { intros w0 rows0 Hdb0 Hnorm0.
    destruct (Hlist (events w0 ++ [Sql SelectWindowIDs])) as [Hx|Hx].
    - by apply cleanup_exact.
    - rewrite <- Hsame. by apply cleanup_exact. }
  destruct (Hrun w rows Hdb Hnorm) as (w1 & Hrun1 & Hdb1 & _).
  destruct (Hrun w1 _ Hdb1 (filter_normal _ _ Hnorm)) as (w2 & Hrun2 & Hdb2 & Hev2).
  exists w1, w2. split; [done|]. split; [done|]. split.
  - rewrite Hdb2, Hdb1. f_equal. apply map_filter_id.
    by intros k v [_ ?]%map_lookup_filter_Some.
  - rewrite Hev2. f_equal.
    rewrite filter_none; [done|]. apply Forall_forall.
    intros k [v Hk]%elem_of_storedOrder Hdead.
    apply map_lookup_filter_Some in Hk as [_ Hlive]. done.
Qed.

(** A listing that succeeds with no output empties the registry. *)
Theorem cleanup_on_empty_listing (w : World) (rows : gmap string Z) (x : Exit) :
  db w = Some rows →
  map_Forall (λ k _, normalizeWindowID k = k) rows →
  (∀ h s, sqlFault E h s = None) →
  run E (events w ++ [Sql SelectWindowIDs]) ["wmctrl"; "-l"] = Some x →
  failure x = None → stdout x = "" →
  ∃ w', cleanupDeadWindows E w = Some (None, w')
    ∧ db w' = Some ∅
    ∧ events w' =
        events w ++ [Sql SelectWindowIDs; Ran ["wmctrl"; "-l"]]
        ++ concat (cleanedUp <$> storedOrder rows).
Proof.
  intros Hdb Hnorm Hstore Hrun Hok Hout.
  destruct (cleanup_exact w rows x Hdb Hnorm Hstore Hrun Hok) as (w' & Hclean & Hdb' & Hev).
  rewrite Hout in Hdb', Hev.
  change (currentWIDs (SplitLines "")) with (∅ ∪ ∅ : gset string) in Hdb', Hev.
  exists w'. split; [done|]. split.
  - rewrite Hdb'. f_equal. apply map_eq. intros k. rewrite lookup_empty.
    apply map_lookup_filter_None. right. intros v _. cbn. set_solver.
  - rewrite Hev. rewrite filter_all; [done|]. apply Forall_forall. set_solver.
Qed.

End ReconcilerExact.

Lemma cleanup_twice_witness :
  ∃ w1 w2,
    cleanupDeadWindows envLiveBD worldABC = Some (None, w1)
    ∧ cleanupDeadWindows envLiveBD w1 = Some (None, w2)
    ∧ db w2 = db w1
    ∧ events w2 = events w1 ++ [Sql SelectWindowIDs; Ran ["wmctrl"; "-l"]].
Proof.
  apply (cleanup_twice envLiveBD worldABC rowsABC listingBD listingBD).
  - reflexivity.
  - unfold rowsABC. repeat (apply map_Forall_insert_2; [reflexivity|]).
    apply map_Forall_empty.
  - reflexivity.
  - intros h. by left.
  - reflexivity.
  - reflexivity.
  - reflexivity.
Defined.

Lemma cleanup_on_empty_listing_witness :
  ∃ w', cleanupDeadWindows envNoWindows worldABC = Some (None, w')
    ∧ db w' = Some ∅
    ∧ events w' =
        events worldABC ++ [Sql SelectWindowIDs; Ran ["wmctrl"; "-l"]]
        ++ concat (cleanedUp <$> storedOrder rowsABC).
Proof.
  apply (cleanup_on_empty_listing envNoWindows worldABC rowsABC listingEmpty).
  - reflexivity.
  - unfold rowsABC. repeat (apply map_Forall_insert_2; [reflexivity|]).
    apply map_Forall_empty.
  - reflexivity.
  - reflexivity.
  - reflexivity.
  - reflexivity.
Defined.

(** ** The close flow *)

Section CloseResults.
Variable E : Env.

(** The close flow on a tracked window that the listing shows under its
    normal form, with a working store, by how [xdotool windowclose] ends. *)
Lemma close_tracked_cases (w : World) (x : Exit) (rows : gmap string Z) (t : Z) :
  run E (events w) ["xdotool"; "getactivewindow"] = Some x →
  failure x = None →
  db w = Some rows →
  map_Forall (λ k _, normalizeWindowID k = k) rows →
  rows !! normalizeWindowID (TrimSpace (stdout x)) = Some t →
  (∀ h s, sqlFault E h s = None) →
  (∀ h argv, run E h argv ≠ None) →
  (∀ h x', run E h ["wmctrl"; "-l"] = Some x' →
     failure x' = None
     ∧ normalizeWindowID (TrimSpace (stdout x)) ∈ currentWIDs (SplitLines (stdout x'))) →
  ∃ w' rows' xname xclose h,
    run E h ["xdotool"; "windowclose"; TrimSpace (stdout x)] = Some xclose
    ∧ rows' !! normalizeWindowID (TrimSpace (stdout x)) = Some t
    ∧ Ran ["xdotool"; "windowclose"; TrimSpace (stdout x)] ∈ events w'
    ∧ match failure xclose with
      | Some e =>
        closeActiveResearchWindow E w = Some (Some ("failed to close window: " +:+ e), w')
        ∧ db w' = Some rows'
      | None =>
        closeActiveResearchWindow E w = Some (None, w')
        ∧ db w' = Some (delete (normalizeWindowID (TrimSpace (stdout x))) rows')
        ∧ Logged ("Closed research window: " +:+ normalizeWindowID (TrimSpace (stdout x))
                  +:+ " (" +:+ TrimSpace (stdout xname) +:+ ")") ∈ events w'
      end.
Proof.
  intros Hx Hfail Hdb Hnormal Hk Hstore Hreturns Hlisted.
  pose proof (close_until_check E w x Hx Hfail) as Hclose. cbv zeta in Hclose.
  set (w1 := record (Ran ["xdotool"; "getactivewindow"]) (advance (Z.of_N (elapsed x)) w))
    in Hclose.
  set (activeWID := TrimSpace (stdout x)) in *.
  set (k := normalizeWindowID activeWID) in *.
  destruct (cleanupDeadWindows_returns E w1 (λ h, Hreturns h _)) as (err & w2 & Heq & _).
  assert (db w1 = Some rows) as Hdb1 by done.
  destruct (cleanup_cases E w1 w2 rows err Hdb1 Hnormal Heq)
    as [(e & _ & Hq & _)|(x' & Hx' & [(e & Hf & _)|(_ & -> & rows' & Hdb2 & Hkeep)])].
  { by rewrite Hstore in Hq. }
  { destruct (Hlisted _ _ Hx') as [Hok _]. by rewrite Hok in Hf. }
  destruct (Hlisted _ _ Hx') as [_ Hin].
  assert (rows' !! k = Some t) as Hk'.
  { destruct (Hkeep k) as [->|[_ ?]]; done. }
  rewrite Heq in Hclose. destruct Hclose as (w3 & evs3 & Hdb3 & _ & _ & Hclose).
  rewrite Hdb3, Hdb2, Hstore, Hk' in Hclose.
  set (w4 := record (Sql (CountWindowID k)) w3) in Hclose.
  destruct (run E (events w4) ["xdotool"; "getwindowname"; activeWID]) as [xname|] eqn:Hname;
    [|by destruct (Hreturns _ _ Hname)].
  set (w5 := record (Ran ["xdotool"; "getwindowname"; activeWID])
               (advance (Z.of_N (elapsed xname)) w4)).
  destruct (run E (events w5) ["xdotool"; "windowclose"; activeWID]) as [xclose|] eqn:Hwc;
    [|by destruct (Hreturns _ _ Hwc)].
  revert Hclose. mrun. rewrite (Output_run _ _ _ _ Hname). mrun. fold w5.
  unfold Run. mrun. rewrite (Output_run _ _ _ _ Hwc). mrun.
  set (w6 := record (Ran ["xdotool"; "windowclose"; activeWID])
               (advance (Z.of_N (elapsed xclose)) w5)).
  assert (db w6 = Some rows') as Hdb6
    by (unfold w6, w5, w4; cbn [db record advance]; congruence).
  assert (Ran ["xdotool"; "windowclose"; activeWID] ∈ events w6) as Hran.
  { unfold w6. cbn [events record]. apply elem_of_app. right. by apply list_elem_of_singleton. }
  destruct (failure xclose) as [e|] eqn:Hfc; mrun.
  - intros Hclose. exists w6, rows', xname, xclose, (events w5).
    split; [done|]. split; [done|]. split; [done|]. by rewrite Hfc.
  - rewrite removeResearchWindow_run, Hdb6, Exec_run. fold k. rewrite Hstore. mrun.
    unfold logPrintf. intros Hclose.
    eexists _, rows', xname, xclose, (events w5).
    split; [done|]. split; [done|]. rewrite Hfc. split; [|split; [exact Hclose|split]].
    + cbn [events record]. rewrite !elem_of_app. auto.
    + cbn [db record]. by rewrite Hdb6.
    + cbn [events record]. rewrite !elem_of_app, !list_elem_of_singleton. auto.
Qed.

(** The close command on a tracked window that is listed: with working
    tools and store it closes the window under the ID [xdotool] printed,
    removes the entry of its normalized ID from the registry, logs the
    close and returns nil. *)
Theorem close_tracked_window (w : World) (x : Exit) (rows : gmap string Z) (t : Z) :
  run E (events w) ["xdotool"; "getactivewindow"] = Some x →
  failure x = None →
  db w = Some rows →
  map_Forall (λ k _, normalizeWindowID k = k) rows →
  rows !! normalizeWindowID (TrimSpace (stdout x)) = Some t →
  (∀ h s, sqlFault E h s = None) →
  (∀ h argv, run E h argv ≠ None) →
  (∀ h x', run E h ["wmctrl"; "-l"] = Some x' →
     failure x' = None
     ∧ normalizeWindowID (TrimSpace (stdout x)) ∈ currentWIDs (SplitLines (stdout x'))) →
  (∀ h x', run E h ["xdotool"; "windowclose"; TrimSpace (stdout x)] = Some x' →
     failure x' = None) →
  ∃ w' rows' name,
    closeActiveResearchWindow E w = Some (None, w')
    ∧ Ran ["xdotool"; "windowclose"; TrimSpace (stdout x)] ∈ events w'
    ∧ Logged ("Closed research window: " +:+ normalizeWindowID (TrimSpace (stdout x))
              +:+ " (" +:+ name +:+ ")") ∈ events w'
    ∧ db w' = Some rows'
    ∧ rows' !! normalizeWindowID (TrimSpace (stdout x)) = None.
Proof.
  intros Hx Hfail Hdb Hnormal Hk Hstore Hreturns Hlisted Hcloses.
  destruct (close_tracked_cases w x rows t Hx Hfail Hdb Hnormal Hk Hstore Hreturns Hlisted)
    as (w' & rows' & xname & xclose & h & Hwc & _ & Hran & Hcases).
  rewrite (Hcloses _ _ Hwc) in Hcases. destruct Hcases as (Hclose & Hdb' & Hlog).
  exists w', (delete (normalizeWindowID (TrimSpace (stdout x))) rows'), (TrimSpace (stdout xname)).
  split; [done|]. split; [done|]. split; [done|]. split; [done|]. apply lookup_delete_eq.
Qed.

(** When [xdotool windowclose] fails, the close command returns the error
    "failed to close window" and the window stays in the registry. *)
Theorem close_failure_keeps_entry (w : World) (x : Exit) (rows : gmap string Z) (t : Z)
    (e : string) :
  run E (events w) ["xdotool"; "getactivewindow"] = Some x →
  failure x = None →
  db w = Some rows →
  map_Forall (λ k _, normalizeWindowID k = k) rows →
  rows !! normalizeWindowID (TrimSpace (stdout x)) = Some t →
  (∀ h s, sqlFault E h s = None) →
  (∀ h argv, run E h argv ≠ None) →
  (∀ h x', run E h ["wmctrl"; "-l"] = Some x' →
     failure x' = None
     ∧ normalizeWindowID (TrimSpace (stdout x)) ∈ currentWIDs (SplitLines (stdout x'))) →
  (∀ h x', run E h ["xdotool"; "windowclose"; TrimSpace (stdout x)] = Some x' →
     failure x' = Some e) →
  ∃ w' rows',
    closeActiveResearchWindow E w = Some (Some ("failed to close window: " +:+ e), w')
    ∧ exitStatus (Some ("failed to close window: " +:+ e)) = 1%Z
    ∧ db w' = Some rows'
    ∧ rows' !! normalizeWindowID (TrimSpace (stdout x)) = Some t.
Proof.
  intros Hx Hfail Hdb Hnormal Hk Hstore Hreturns Hlisted Hcloses.
  destruct (close_tracked_cases w x rows t Hx Hfail Hdb Hnormal Hk Hstore Hreturns Hlisted)
    as (w' & rows' & xname & xclose & h & Hwc & Hk' & Hran & Hcases).
  rewrite (Hcloses _ _ Hwc) in Hcases. destruct Hcases as (Hclose & Hdb').
  by exists w', rows'.
Qed.

End CloseResults.

Lemma close_tracked_window_witness :
  ∃ w' rows' name,
    closeActiveResearchWindow envCloseWorks worldTracked = Some (None, w')
    ∧ Ran ["xdotool"; "windowclose"; TrimSpace (stdout activeIs123)] ∈ events w'
    ∧ Logged ("Closed research window: " +:+ normalizeWindowID (TrimSpace (stdout activeIs123))
              +:+ " (" +:+ name +:+ ")") ∈ events w'
    ∧ db w' = Some rows'
    ∧ rows' !! normalizeWindowID (TrimSpace (stdout activeIs123)) = None.
Proof.
  apply (close_tracked_window envCloseWorks worldTracked activeIs123
           (<["0x0000007b" := 1%Z]> ∅) 1%Z).
  - reflexivity.
  - reflexivity.
  - reflexivity.
  - apply map_Forall_insert_2; [reflexivity|apply map_Forall_empty].
  - reflexivity.
  - intros h s. reflexivity.
  - intros h argv. unfold envCloseWorks, envOf, run, ok. repeat case_match; discriminate.
  - intros h x'. unfold envCloseWorks, envOf, run. intros [= <-]. split; [reflexivity|].
    vm_compute. set_solver.
  - intros h x'. unfold envCloseWorks, envOf, run, ok. by intros [= <-].
Defined.

Lemma close_failure_keeps_entry_witness :
  ∃ w' rows',
    closeActiveResearchWindow envWindowCloseFails worldTracked
      = Some (Some ("failed to close window: " +:+ "exit status 1"), w')
    ∧ exitStatus (Some ("failed to close window: " +:+ "exit status 1")) = 1%Z
    ∧ db w' = Some rows'
    ∧ rows' !! normalizeWindowID (TrimSpace (stdout activeIs123)) = Some 1%Z.
Proof.
  apply (close_failure_keeps_entry envWindowCloseFails worldTracked activeIs123
           (<["0x0000007b" := 1%Z]> ∅) 1%Z "exit status 1").
  - reflexivity.
  - reflexivity.
  - reflexivity.
  - apply map_Forall_insert_2; [reflexivity|apply map_Forall_empty].
  - reflexivity.
  - intros h s. reflexivity.
  - intros h argv. unfold envWindowCloseFails, envOf, run, ok. repeat case_match; discriminate.
  - intros h x'. unfold envWindowCloseFails, envOf, run. intros [= <-]. split; [reflexivity|].
    vm_compute. set_solver.
  - intros h x'. unfold envWindowCloseFails, envOf, run, ok. by intros [= <-].
Defined.

(** ** The selection resolver *)

Lemma revOnto_app s : ∀ acc, revOnto s acc = revString s +:+ acc.
Proof.
  unfold revString. induction s as [|c s IH]; intros acc; cbn [revOnto]; [done|].
  rewrite IH, (IH (String c "")), app_assoc_string. done.
Qed.

Lemma revString_cons c s : revString (String c s) = revString s +:+ String c "".
Proof. unfold revString at 1. cbn [revOnto]. apply revOnto_app. Qed.

Lemma revString_app a b : revString (a +:+ b) = revString b +:+ revString a.
Proof.
  induction a as [|c a IH]; sapp.
  - by rewrite app_nil_r_string.
  - by rewrite !revString_cons, IH, app_assoc_string.
Qed.

Lemma revString_involutive s : revString (revString s) = s.
Proof.
  induction s as [|c s IH]; [done|].
  by rewrite revString_cons, revString_app, IH.
Qed.

Lemma trimLeftFrom_suffix width s : ∀ skip,
  ∃ pre, s = pre +:+ trimLeftFrom width skip s.
Proof.
  induction s as [|c s IH]; intros skip; cbn [trimLeftFrom]; [by exists ""|].
  destruct skip as [|k].
  - destruct (width (String c s)) as [|k]; [by exists ""|].
    destruct (IH k) as [pre Hpre]. exists (String c pre). sapp. by rewrite <- Hpre.
  - destruct (IH k) as [pre Hpre]. exists (String c pre). sapp. by rewrite <- Hpre.
Qed.

Lemma trimLeftFrom_head width s : ∀ skip,
  trimLeftFrom width skip s = "" ∨ width (trimLeftFrom width skip s) = 0.
Proof.
  induction s as [|c s IH]; intros skip; cbn [trimLeftFrom]; [by left|].
  destruct skip as [|k]; [|apply IH].
  destruct (width (String c s)) as [|k] eqn:Hw; [by right|apply IH].
Qed.

(** Whether a string starts with a white-space rune shows in the string
    itself: cutting its end does not make it start with one. *)
Lemma spaceWidth_prefix p q : spaceWidth (p +:+ q) = 0 → spaceWidth p = 0.
Proof.
  destruct p as [|c0 [|c1 [|c2 p]]]; sapp; [done| | |done].
  - cbn [spaceWidth]. destruct (isAsciiSpace c0); [|done]. by destruct q.
  - cbn [spaceWidth]. destruct (isAsciiSpace c0); [done|].
    destruct ((byte c0 =? 194)%N && ((byte c1 =? 133)%N || (byte c1 =? 160)%N)); [|done].
    by destruct q.
Qed.

(** What [strings.TrimSpace] returns is empty, or neither starts nor ends
    with a white-space rune. *)
Lemma TrimSpace_trimmed s :
  TrimSpace s = ""
  ∨ (spaceWidth (TrimSpace s) = 0 ∧ spaceWidthRev (revString (TrimSpace s)) = 0).
Proof.
  unfold TrimSpace.
  set (u := trimLeftFrom spaceWidth 0 s).
  set (t := trimLeftFrom spaceWidthRev 0 (revString u)).
  destruct (trimLeftFrom_head spaceWidthRev (revString u) 0) as [Ht|Ht]; fold t in Ht.
  { left. by rewrite Ht. }
  right. rewrite revString_involutive. split; [|done].
  destruct (trimLeftFrom_suffix spaceWidthRev (revString u) 0) as [pre Hpre]. fold t in Hpre.
  assert (u = revString t +:+ revString pre) as Hu.
  { by rewrite <- revString_app, <- Hpre, revString_involutive. }
  destruct (trimLeftFrom_head spaceWidth s 0) as [Hu0|Hu0]; fold u in Hu0.
  - rewrite Hu0 in Hu. destruct (revString t); [done|discriminate].
  - rewrite Hu in Hu0. by eapply spaceWidth_prefix.
Qed.

Section SelectionResults.
Variable E : Env.
Variable config : Config.

(** One read of a selection, whenever it returns. *)
Lemma captureFromSelection_result sel flag w r w' :
  (sel = "primary" ∧ flag = "-p") ∨ (sel = "clipboard" ∧ flag = "-c") →
  captureFromSelection E config sel w = Some (r, w') →
  ∃ x logs,
    run E (events w) ["xsel"; flag] = Some x
    ∧ events w' = events w ++ Ran ["xsel"; flag] :: logs
    ∧ Forall (λ e, ∃ msg, e = Logged msg) logs
    ∧ db w' = db w
    ∧ match usableText x with
      | Some t => r = (t, None)
      | None => ∃ err, r = ("", Some err)
      end.
Proof.
  intros Hsel Hcap.
  destruct (run E (events w) ["xsel"; flag]) as [x|] eqn:Hrun.
  - pose proof (captureFromSelection_run E config sel flag w x Hsel Hrun) as H.
    cbv zeta in H. exists x. destruct (usableText x) as [t|].
    + destruct H as (msg & Heq & _). rewrite Heq in Hcap. injection Hcap as <- <-.
      exists [Logged msg]. split; [done|]. cbn [events db record advance].
      split; [by rewrite <- app_assoc|]. split; [|done]. repeat constructor. by exists msg.
    + destruct H as (err & Heq). rewrite Heq in Hcap. injection Hcap as <- <-.
      exists []. split; [done|]. split; [done|]. split; [done|]. split; [done|]. by exists err.
  - exfalso. revert Hcap. unfold captureFromSelection, readXSelection.
    rewrite (bool_decide_eq_true_2 (sel = "primary" ∨ sel = "clipboard"))
      by (destruct Hsel as [[-> _]|[-> _]]; auto).
    mrun.
    assert (Output E ("xsel" :: (if bool_decide (sel = "primary") then ["-p"] else ["-c"])) w
            = None) as ->; [|done].
    destruct Hsel as [[-> ->]|[-> ->]].
    + rewrite bool_decide_eq_true_2 by done. by apply Output_blocked.
    + rewrite bool_decide_eq_false_2 by done. by apply Output_blocked.
Qed.

Lemma usableText_trimmed x t :
  usableText x = Some t →
  t = TrimSpace (stdout x) ∧ t ≠ ""
  ∧ spaceWidth t = 0 ∧ spaceWidthRev (revString t) = 0.
Proof.
  unfold usableText. destruct (failure x); [done|]. case_bool_decide as Hne; [done|].
  intros [= <-]. split; [done|]. split; [done|].
  by destruct (TrimSpace_trimmed (stdout x)).
Qed.

(** The policies [manual], [primary] and [clipboard]: [manual] reads
    nothing and fails; [primary] runs [xsel -p] and nothing else, so never
    reads the clipboard; [clipboard] runs [xsel -c] and nothing else. *)
Theorem capture_policy_reads (w w' : World) (r : string * error) :
  captureSelectionSafely E config w = Some (r, w') →
  (SelectionMethod config = "manual" →
     r = ("", Some "selection method set to manual") ∧ w' = w)
  ∧ (SelectionMethod config = "primary" →
     ∃ logs, events w' = events w ++ Ran ["xsel"; "-p"] :: logs
             ∧ Forall (λ e, ∃ msg, e = Logged msg) logs)
  ∧ (SelectionMethod config = "clipboard" →
     ∃ logs, events w' = events w ++ Ran ["xsel"; "-c"] :: logs
             ∧ Forall (λ e, ∃ msg, e = Logged msg) logs).
Proof.
  unfold captureSelectionSafely. intros Hcap. split; [|split]; intros Hm; rewrite Hm in Hcap.
  - rewrite bool_decide_eq_true_2 in Hcap by done. by injection Hcap as <- <-.
  - rewrite bool_decide_eq_false_2, bool_decide_eq_true_2 in Hcap by done.
    destruct (captureFromSelection_result "primary" "-p" w r w' ltac:(auto) Hcap)
      as (x & logs & _ & Hev & Hlogs & _). by exists logs.
  - rewrite !bool_decide_eq_false_2, bool_decide_eq_true_2 in Hcap by done.
    destruct (captureFromSelection_result "clipboard" "-c" w r w' ltac:(auto) Hcap)
      as (x & logs & _ & Hev & Hlogs & _). by exists logs.
Qed.

(** A selection method that is none of [manual], [primary] and [clipboard]
    is treated as [auto]. *)
Theorem capture_unknown_method_is_auto (w : World) :
  SelectionMethod config ≠ "manual" →
  SelectionMethod config ≠ "primary" →
  SelectionMethod config ≠ "clipboard" →
  captureSelectionSafely E config w
  = captureSelectionSafely E
      {| AutoCopyDelayMs := AutoCopyDelayMs config; MaxWindows := MaxWindows config;
         WindowWidth := WindowWidth config; WindowHeight := WindowHeight config;
         FirefoxProfile := FirefoxProfile config; SelectionMethod := "auto";
         SelectionTimeoutMs := SelectionTimeoutMs config;
         LogSelections := LogSelections config |} w.
Proof.
  intros H1 H2 H3. unfold captureSelectionSafely. cbn [SelectionMethod].
  rewrite !bool_decide_eq_false_2 by done. reflexivity.
Qed.

Lemma captureSelectionSafely_text (w w' : World) (text : string) :
  captureSelectionSafely E config w = Some ((text, None), w') →
  text ≠ ""
  ∧ spaceWidth text = 0
  ∧ spaceWidthRev (revString text) = 0
  ∧ (∃ x h flag, run E h ["xsel"; flag] = Some x ∧ failure x = None
                 ∧ text = TrimSpace (stdout x))
  ∧ db w' = db w.
Proof.
  assert (∀ sel flag w0 w1,
            (sel = "primary" ∧ flag = "-p") ∨ (sel = "clipboard" ∧ flag = "-c") →
            captureFromSelection E config sel w0 = Some ((text, None), w1) →
            text ≠ "" ∧ spaceWidth text = 0 ∧ spaceWidthRev (revString text) = 0
            ∧ (∃ x h flag, run E h ["xsel"; flag] = Some x ∧ failure x = None
                           ∧ text = TrimSpace (stdout x))
            ∧ db w1 = db w0) as Hone.
  { intros sel flag w0 w1 Hsel Hcap.
    destruct (captureFromSelection_result sel flag w0 _ w1 Hsel Hcap)
      as (x & logs & Hrun & _ & _ & Hdb & Hres).
    destruct (usableText x) as [t|] eqn:Ht; [|by destruct Hres].
    injection Hres as <-. destruct (usableText_trimmed x text Ht) as (Htext & Hne & Hl & Hr).
    repeat (split; [done|]). split; [|done]. exists x, (events w0), flag.
    split; [done|]. split; [|done]. unfold usableText in Ht. by destruct (failure x). }
  unfold captureSelectionSafely.
  case_bool_decide; [done|].
  case_bool_decide; [by apply (Hone "primary" "-p"); auto|].
  case_bool_decide; [by apply (Hone "clipboard" "-c"); auto|].
  mrun.
  destruct (captureFromSelection E config "primary" w) as [[[t1 [e1|]] w1]|] eqn:Hp; mrun;
    [| |done].
  - destruct (captureFromSelection_result "primary" "-p" w _ w1 ltac:(auto) Hp)
      as (_ & _ & _ & _ & _ & Hdb1 & _).
    destruct (captureFromSelection E config "clipboard" w1) as [[[t2 [e2|]] w2]|] eqn:Hc; mrun;
      [done| |done].
    intros [= -> ->].
    destruct (Hone "clipboard" "-c" w1 w' ltac:(auto) Hc) as (? & ? & ? & ? & Hdb2).
    repeat (split; [done|]). congruence.
  - intros [= -> ->]. by apply (Hone "primary" "-p" w w'); auto.
Qed.

(** A text that [captureSelectionSafely] returns without error is the
    trimmed output of an [xsel] run that succeeded: it is not empty and
    neither starts nor ends with white space; and the registry is
    untouched. *)
Theorem captured_text_is_trimmed (w w' : World) (text : string) :
  captureSelectionSafely E config w = Some ((text, None), w') →
  text ≠ ""
  ∧ spaceWidth text = 0
  ∧ spaceWidthRev (revString text) = 0
  ∧ (∃ x h flag, run E h ["xsel"; flag] = Some x ∧ failure x = None
                 ∧ text = TrimSpace (stdout x))
  ∧ db w' = db w.
Proof. exact (captureSelectionSafely_text w w' text). Qed.

End SelectionResults.

Lemma capture_policy_reads_witness :
  let config := {| AutoCopyDelayMs := 500; MaxWindows := 5; WindowWidth := 650;
                   WindowHeight := 900; FirefoxProfile := ""; SelectionMethod := "primary";
                   SelectionTimeoutMs := 1000; LogSelections := true |} in
  let w' := after (captureSelectionSafely envClipboardFoo config) worldEmpty in
  (SelectionMethod config = "manual" →
     ("", Some "primary selection is empty") = ("", Some "selection method set to manual")
     ∧ w' = worldEmpty)
  ∧ (SelectionMethod config = "primary" →
     ∃ logs, events w' = events worldEmpty ++ Ran ["xsel"; "-p"] :: logs
             ∧ Forall (λ e, ∃ msg, e = Logged msg) logs)
  ∧ (SelectionMethod config = "clipboard" →
     ∃ logs, events w' = events worldEmpty ++ Ran ["xsel"; "-c"] :: logs
             ∧ Forall (λ e, ∃ msg, e = Logged msg) logs).
Proof.
  intros config w'.
  apply (capture_policy_reads envClipboardFoo config worldEmpty w'
           ("", Some "primary selection is empty")).
  vm_compute. reflexivity.
Defined.

Lemma capture_unknown_method_is_auto_witness :
  let config := {| AutoCopyDelayMs := 500; MaxWindows := 5; WindowWidth := 650;
                   WindowHeight := 900; FirefoxProfile := ""; SelectionMethod := "Auto";
                   SelectionTimeoutMs := 1000; LogSelections := true |} in
  captureSelectionSafely envClipboardFoo config worldEmpty
  = captureSelectionSafely envClipboardFoo
      {| AutoCopyDelayMs := AutoCopyDelayMs config; MaxWindows := MaxWindows config;
         WindowWidth := WindowWidth config; WindowHeight := WindowHeight config;
         FirefoxProfile := FirefoxProfile config; SelectionMethod := "auto";
         SelectionTimeoutMs := SelectionTimeoutMs config;
         LogSelections := LogSelections config |} worldEmpty.
Proof.
  intros config. apply (capture_unknown_method_is_auto envClipboardFoo config worldEmpty);
    discriminate.
Defined.

Lemma captured_text_is_trimmed_witness :
  let w' := after (captureSelectionSafely envClipboardFoo configDefault) worldEmpty in
  "foo" ≠ ""
  ∧ spaceWidth "foo" = 0
  ∧ spaceWidthRev (revString "foo") = 0
  ∧ (∃ x h flag, run envClipboardFoo h ["xsel"; flag] = Some x ∧ failure x = None
                 ∧ "foo" = TrimSpace (stdout x))
  ∧ db w' = db worldEmpty.
Proof.
  intros w'.
  apply (captured_text_is_trimmed envClipboardFoo configDefault worldEmpty w' "foo").
  vm_compute. reflexivity.
Defined.

(** ** The configuration defaults and the screen size *)

(** The defaults of [loadConfig]: afterwards no numeric setting is zero and
    the selection method is not empty; a setting that was given is kept;
    applying the defaults again changes nothing.  A zero in the file can so
    not be told from a missing value. *)
Theorem loadConfig_defaults_fill (c : Config) :
  let d := loadConfig_defaults c in
  AutoCopyDelayMs d ≠ 0%Z ∧ MaxWindows d ≠ 0%Z ∧ WindowWidth d ≠ 0%Z
  ∧ WindowHeight d ≠ 0%Z ∧ SelectionTimeoutMs d ≠ 0%Z ∧ SelectionMethod d ≠ ""
  ∧ (AutoCopyDelayMs c ≠ 0%Z → AutoCopyDelayMs d = AutoCopyDelayMs c)
  ∧ (MaxWindows c ≠ 0%Z → MaxWindows d = MaxWindows c)
  ∧ (WindowWidth c ≠ 0%Z → WindowWidth d = WindowWidth c)
  ∧ (WindowHeight c ≠ 0%Z → WindowHeight d = WindowHeight c)
  ∧ (SelectionTimeoutMs c ≠ 0%Z → SelectionTimeoutMs d = SelectionTimeoutMs c)
  ∧ (SelectionMethod c ≠ "" → SelectionMethod d = SelectionMethod c)
  ∧ FirefoxProfile d = FirefoxProfile c ∧ LogSelections d = LogSelections c
  ∧ loadConfig_defaults d = d.
Proof.
  destruct c as [a m ww wh fp sm st ls]. unfold loadConfig_defaults. cbn.
  destruct (Z.eqb_spec a 0), (Z.eqb_spec m 0), (Z.eqb_spec ww 0), (Z.eqb_spec wh 0),
    (Z.eqb_spec st 0); case_bool_decide; subst; cbn;
    repeat split; try done; try (intros; congruence);
    rewrite ?bool_decide_eq_false_2 by done;
    repeat match goal with
           | |- context [(?z =? 0)%Z] =>
             replace (z =? 0)%Z with false by (symmetry; by apply Z.eqb_neq)
           end; done.
Qed.

Lemma HasPrefix_app_l a b sub : HasPrefix a sub = true → HasPrefix (a +:+ b) sub = true.
Proof.
  revert a. induction sub as [|p sub IH]; intros a; [done|].
  destruct a as [|c a]; sapp; cbn [HasPrefix]; [done|].
  intros [-> Ha]%andb_true_iff. by rewrite IH.
Qed.

Lemma SplitLines_first s :
  ∃ piece pieces rest, SplitLines s = piece :: pieces ∧ s = piece +:+ rest.
Proof.
  induction s as [|c s (piece & pieces & rest & Hs & Hrest)]; cbn [SplitLines].
  - by exists "", [], "".
  - destruct (Ascii.eqb c newline).
    + by exists "", (SplitLines s), (String c s).
    + rewrite Hs. exists (String c piece), pieces, rest. split; [done|]. sapp. by rewrite <- Hrest.
Qed.

(** A line of the output contains what the output contains. *)
Lemma Contains_line s sub : ∀ l,
  l ∈ SplitLines s → Contains l sub = true → Contains s sub = true.
Proof.
  induction s as [|c s IH]; intros l; cbn [SplitLines].
  - by intros ->%list_elem_of_singleton.
  - destruct (Ascii.eqb c newline).
    + intros [->|Hin]%elem_of_cons Hl.
      * destruct sub; [by destruct s|done].
      * cbn [Contains]. rewrite (IH l Hin Hl). apply orb_true_r.
    + destruct (SplitLines_first s) as (piece & pieces & rest & Hs & Hrest).
      rewrite Hs in IH |- *. intros [->|Hin]%elem_of_cons Hl.
      * cbn [Contains] in Hl |- *. apply orb_true_iff in Hl as [Hl|Hl].
        -- rewrite Hrest. change (String c (piece +:+ rest)) with (String c piece +:+ rest).
           by rewrite HasPrefix_app_l.
        -- rewrite (IH piece); [apply orb_true_r| |done]. by apply elem_of_cons; left.
      * cbn [Contains]. rewrite (IH l); [apply orb_true_r| |done]. by apply elem_of_cons; right.
Qed.

(** [getScreenDimensions] falls back to 1920x1080 when [xdpyinfo] fails or
    prints no "dimensions:", whatever [Sscanf] would do; it changes neither
    the registry nor anything but the clock and the trace. *)
Theorem screen_dimensions_fallback (E : Env) (Sscanf_dimensions : string → Z * Z)
    (w : World) (x : Exit) :
  run E (events w) ["xdpyinfo"] = Some x →
  failure x ≠ None ∨ Contains (stdout x) "dimensions:" = false →
  getScreenDimensions E Sscanf_dimensions w
  = Some ((1920, 1080)%Z, record (Ran ["xdpyinfo"]) (advance (Z.of_N (elapsed x)) w)).
Proof.
  intros Hrun Hcase. unfold getScreenDimensions. mrun.
  rewrite (Output_run _ _ _ _ Hrun). mrun.
  destruct (failure x) as [e|]; mrun; [done|].
  destruct Hcase as [?|Hno]; [done|].
  destruct (find _ _) as [l|] eqn:Hfind; mrun; [|done].
  apply find_some in Hfind as [Hin Hl].
  apply list_elem_of_In in Hin. by rewrite (Contains_line _ _ _ Hin Hl) in Hno.
Qed.

Lemma screen_dimensions_fallback_witness :
  getScreenDimensions envQuiet (fun _ => (0, 0)%Z) worldEmpty
  = Some ((1920, 1080)%Z,
          record (Ran ["xdpyinfo"])
            (advance (Z.of_N (elapsed {| elapsed := 0; stdout := ""; failure := None |}))
               worldEmpty)).
Proof.
  apply screen_dimensions_fallback; [reflexivity|by right].
Defined.

(* ================================================================== *)
(** * The engine commands *)
(* ================================================================== *)

Import Engines Search.

Section EngineCommands.
Variable saveFault : list SearchEngine → option SaveFault.

Lemma find_key_none (key : string) (l : list SearchEngine) :
  find (λ engine, String.eqb (Key engine) key) l = None ↔ key ∉ Key <$> l.
Proof.
  induction l as [|e l IH]; cbn [find fmap list_fmap].
  - split; [intros _ H; inversion H | reflexivity].
  - destruct (String.eqb_spec (Key e) key) as [Heq|Hne].
    + split; [discriminate|]. intros H. destruct H. rewrite Heq. left.
    + rewrite IH. split.
      * intros H Hin. apply elem_of_cons in Hin as [->|Hin]; [congruence | auto].
      * intros H Hin. apply H. right. exact Hin.
Qed.

Lemma find_key_some (key : string) (l : list SearchEngine) (e : SearchEngine) :
  find (λ engine, String.eqb (Key engine) key) l = Some e → e ∈ l ∧ Key e = key.
Proof.
  induction l as [|e' l IH]; cbn [find]; [discriminate|].
  destruct (String.eqb_spec (Key e') key) as [Heq|Hne].
  - intros [= <-]. split; [left | exact Heq].
  - intros H. destruct (IH H) as [Hin Hk]. split; [right; exact Hin | exact Hk].
Qed.

Lemma saveConfig_cases (l : list SearchEngine) :
  (∃ fault, saveFault l = Some fault
            ∧ saveConfig saveFault l
              = (Some (message fault), if opened fault then Truncated else Untouched))
  ∨ (saveFault l = None ∧ saveConfig saveFault l = (None, Holds (readBack <$> l))).
Proof.
  unfold saveConfig. destruct (saveFault l) as [fault|]; [left; eauto | right; auto].
Qed.

(** ** Strings that pass the configuration file unchanged, and strings that
    do not *)

Lemma runeWidth_one c r : runeWidth (String c r) = 1 → (byte c < 128)%N.
Proof.
  cbn [runeWidth]. cbv zeta. destruct (byte c <? 128)%N eqn:Hlt.
  - intros _. by apply N.ltb_lt.
  - repeat match goal with
           | |- context [if ?b then _ else _] => destruct b
           | |- context [match ?r with EmptyString => _ | String _ _ => _ end] => destruct r
           end; discriminate.
Qed.

Lemma runeWidth_more c r k : runeWidth (String c r) = S (S k) → r ≠ "".
Proof.
  intros H ->. revert H. cbn [runeWidth]. cbv zeta.
  repeat match goal with
         | |- context [if ?b then _ else _] => destruct b
         end; discriminate.
Qed.

Lemma jsonString_ascii_byte c : (byte c < 128)%N → jsonString (String c "") = String c "".
Proof.
  intros Hlt. unfold jsonString. cbn [jsonStringFrom runeWidth]. cbv zeta.
  apply N.ltb_lt in Hlt. rewrite Hlt. reflexivity.
Qed.

Lemma jsonString_high_byte c :
  (128 ≤ byte c)%N → jsonString (String c "") = replacementChar.
Proof.
  intros Hge. unfold jsonString. cbn [jsonStringFrom].
  destruct (runeWidth (String c "")) as [|[|k]] eqn:Hw.
  - reflexivity.
  - apply runeWidth_one in Hw. lia.
  - by apply runeWidth_more in Hw.
Qed.

(** No string comes back from the file as a single byte beyond ASCII. *)
Lemma jsonString_not_high_byte s c : (128 ≤ byte c)%N → jsonString s ≠ String c "".
Proof.
  intros Hge. unfold jsonString. destruct s as [|c0 r]; [discriminate|].
  cbn [jsonStringFrom]. destruct (runeWidth (String c0 r)) as [|[|k]] eqn:Hw.
  - discriminate.
  - apply runeWidth_one in Hw. intros [= -> _]. lia.
  - apply runeWidth_more in Hw. destruct r as [|c1 r]; [done|]. discriminate.
Qed.

Lemma keys_app_new (l : list SearchEngine) (name url key : string) :
  Key <$> (l ++ [{| Name := name; URL := url; Key := key |}]) = (Key <$> l) ++ [key].
Proof. by rewrite fmap_app. Qed.

Lemma NoDup_keys_snoc (keys : list string) (key : string) :
  NoDup keys → key ∉ keys → NoDup (keys ++ [key]).
Proof.
  intros Hnd Hnew. apply NoDup_app. repeat split; [exact Hnd | | apply NoDup_singleton].
  intros k Hk Hk'. apply list_elem_of_singleton in Hk' as ->. contradiction.
Qed.

(** ** [add-engine] *)

Lemma add_engine_core (loaded : list SearchEngine) (name url key : string) :
  let o := addEngine saveFault loaded name url key in
  (result o = None ↔
     String.length key = 1 ∧ Contains url "%s" = true ∧ (key ∉ Key <$> loaded)
     ∧ saveFault (loaded ++ [{| Name := name; URL := url; Key := key |}]) = None)
  ∧ (result o = None →
     engines o = loaded ++ [{| Name := name; URL := url; Key := key |}]
     ∧ file o = Holds (readBack <$> engines o))
  ∧ (String.length key ≠ 1 ∨ Contains url "%s" = false ∨ key ∈ Key <$> loaded →
     result o ≠ None ∧ engines o = loaded ∧ file o = Untouched ∧ printed o = [])
  ∧ (∀ fault,
       String.length key = 1 → Contains url "%s" = true → (key ∉ Key <$> loaded) →
       saveFault (loaded ++ [{| Name := name; URL := url; Key := key |}]) = Some fault →
       result o = Some ("failed to save config: " +:+ message fault)
       ∧ file o = (if opened fault then Truncated else Untouched)
       ∧ printed o = [])
  ∧ (NoDup (Key <$> loaded) → NoDup (Key <$> engines o)).
Proof.
  intros o. subst o. unfold addEngine.
  destruct (Nat.eqb_spec (String.length key) 1) as [Hlen|Hlen]; cbn [negb].
  2:{ cbn [failed result engines file printed].
      repeat split; try discriminate; try tauto. }
  destruct (Contains url "%s") eqn:Hurl; cbn [negb].
  2:{ cbn [failed result engines file printed].
      repeat split; try discriminate; try tauto;
        try (intros (_ & ? & _); discriminate). }
  destruct (find _ loaded) as [e|] eqn:Hfind.
  { cbn [failed result engines file printed].
    apply find_key_some in Hfind as [Hin Hk].
    assert (Hdup : key ∈ Key <$> loaded) by (rewrite <- Hk; apply list_elem_of_fmap; eauto).
    repeat split; try discriminate; try tauto. }
  apply find_key_none in Hfind.
  cbv zeta.
  destruct (saveConfig_cases (loaded ++ [{| Name := name; URL := url; Key := key |}]))
    as [(fault & Hf & ->)|[Hf ->]]; cbn [failed result engines file printed].
  - split; [split; [discriminate|intros (_ & _ & _ & H); congruence]|].
    split; [discriminate|]. split.
    { intros [H|[H|H]]; [done|discriminate|done]. }
    split.
    { intros fault' _ _ _ Hf'. rewrite Hf in Hf'. by injection Hf' as <-. }
    intros Hnd. rewrite keys_app_new. by apply NoDup_keys_snoc.
  - split; [split; [tauto|reflexivity]|]. split; [tauto|]. split.
    { intros [H|[H|H]]; [done|discriminate|done]. }
    split.
    { intros fault' _ _ _ Hf'. congruence. }
    intros Hnd. rewrite keys_app_new. by apply NoDup_keys_snoc.
Qed.

(** [add-engine] validates before it changes anything.  It succeeds
    exactly when the key is one byte long, the URL has the placeholder, no
    engine has the key and the save works; then the engine is appended and
    the file rewritten, holding each string as JSON gives it back.  When the
    validation fails, the engines and the file are untouched and nothing is
    printed.  When the save fails, the file is untouched or left truncated,
    as [os.WriteFile] left it.  Keys that were unique stay unique in
    [config.SearchEngines]; in the file they do for an ASCII key, while a
    key byte beyond ASCII is stored as U+FFFD. *)
Theorem add_engine_keeps_keys_unique (loaded : list SearchEngine) (name url key : string) :
  let o := addEngine saveFault loaded name url key in
  (result o = None ↔
     String.length key = 1 ∧ Contains url "%s" = true ∧ (key ∉ Key <$> loaded)
     ∧ saveFault (loaded ++ [{| Name := name; URL := url; Key := key |}]) = None)
  ∧ (result o = None →
     engines o = loaded ++ [{| Name := name; URL := url; Key := key |}]
     ∧ ∃ c, key = String c ""
         ∧ file o = Holds ((readBack <$> loaded)
                           ++ [{| Name := jsonString name; URL := jsonString url;
                                  Key := if (byte c <? 128)%N then key
                                         else replacementChar |}]))
  ∧ (String.length key ≠ 1 ∨ Contains url "%s" = false ∨ key ∈ Key <$> loaded →
     result o ≠ None ∧ engines o = loaded ∧ file o = Untouched ∧ printed o = [])
  ∧ (∀ fault,
       String.length key = 1 → Contains url "%s" = true → (key ∉ Key <$> loaded) →
       saveFault (loaded ++ [{| Name := name; URL := url; Key := key |}]) = Some fault →
       result o = Some ("failed to save config: " +:+ message fault)
       ∧ file o = (if opened fault then Truncated else Untouched)
       ∧ printed o = [])
  ∧ (NoDup (Key <$> loaded) → NoDup (Key <$> engines o))
  ∧ (result o = None → readBack <$> loaded = loaded → jsonString key = key →
     NoDup (Key <$> loaded) →
     ∃ content, file o = Holds content ∧ NoDup (Key <$> content)).
Proof.
  intros o.
  destruct (add_engine_core loaded name url key) as (Hiff & Hok & Hbad & Hsave & Hnd).
  fold o in Hiff, Hok, Hbad, Hsave, Hnd.
  split; [exact Hiff|]. split; [|split; [exact Hbad|split; [exact Hsave|split; [exact Hnd|]]]].
  - intros Hres. destruct (Hok Hres) as [Heng Hfile]. split; [exact Heng|].
    destruct (proj1 Hiff Hres) as (Hlen & _).
    destruct key as [|c [|c' key]]; try discriminate Hlen.
    exists c. split; [reflexivity|]. rewrite Hfile, Heng, fmap_app.
    cbn [fmap list_fmap]. unfold readBack at 2. cbn [Name URL Key].
    f_equal. f_equal. f_equal. f_equal.
    destruct (byte c <? 128)%N eqn:Hc.
    + apply jsonString_ascii_byte. by apply N.ltb_lt.
    + apply jsonString_high_byte. by apply N.ltb_ge.
  - intros Hres Hvalid Hkey Hnodup. destruct (Hok Hres) as [Heng Hfile].
    eexists. split; [exact Hfile|]. rewrite Heng, fmap_app, Hvalid, fmap_app.
    cbn [fmap list_fmap]. unfold readBack. cbn [Key]. rewrite Hkey.
    apply NoDup_keys_snoc; [exact Hnodup|]. by apply Hiff.
Qed.

(** ** [remove-engine] *)

Lemma remove_loop (key : string) (l : list SearchEngine) :
  ∀ found acc removed,
    fold_left (removeStep key) l (found, acc, removed)
    = (found || bool_decide (key ∈ Key <$> l),
       acc ++ filter (λ e, Key e ≠ key) l,
       default removed (last (filter (λ e, Key e = key) l))).
Proof.
  induction l as [|e l IH]; intros found acc removed; cbn [fold_left].
  - rewrite filter_nil, app_nil_r, orb_false_r. reflexivity.
  - unfold removeStep at 2. rewrite !filter_cons.
    destruct (String.eqb_spec (Key e) key) as [Heq|Hne].
    + rewrite IH. rewrite decide_False by (intros H; apply H; exact Heq).
      rewrite decide_True by exact Heq.
      assert (Hin : key ∈ Key <$> e :: l) by (rewrite fmap_cons, Heq; left).
      rewrite (bool_decide_eq_true_2 _ Hin).
      rewrite orb_true_r. f_equal.
      rewrite last_cons. destruct (last _); reflexivity.
    + rewrite IH. rewrite decide_True by exact Hne.
      rewrite decide_False by exact Hne.
      rewrite <- app_assoc. cbn [app]. f_equal. f_equal. f_equal.
      apply bool_decide_ext. rewrite fmap_cons, elem_of_cons. naive_solver.
Qed.

Lemma filter_key_absent (key : string) (l : list SearchEngine) :
  key ∉ Key <$> filter (λ e, Key e ≠ key) l.
Proof.
  intros H. apply list_elem_of_fmap in H as (e & -> & He).
  apply list_elem_of_filter in He as [Hne _]. apply Hne. reflexivity.
Qed.

Lemma filter_key_all (key : string) (l : list SearchEngine) :
  key ∉ Key <$> l → filter (λ e, Key e ≠ key) l = l.
Proof.
  induction l as [|e l IH]; intros H; [reflexivity|].
  rewrite filter_cons. rewrite fmap_cons, not_elem_of_cons in H. destruct H as [Hne H].
  rewrite decide_True by congruence. rewrite IH by exact H. reflexivity.
Qed.

Lemma readBack_filter (key : string) (l : list SearchEngine) :
  readBack <$> l = l → readBack <$> filter (λ e, Key e ≠ key) l = filter (λ e, Key e ≠ key) l.
Proof.
  induction l as [|e l IH]; [reflexivity|]. rewrite fmap_cons. intros [= He Hl].
  rewrite filter_cons. destruct (decide (Key e ≠ key)); [|by apply IH].
  rewrite fmap_cons, He, IH by exact Hl. reflexivity.
Qed.

Lemma remove_engine_core (loaded : list SearchEngine) (key : string) :
  let o := removeEngine saveFault loaded key in
  let kept := filter (λ e, Key e ≠ key) loaded in
  (result o = None ↔ key ∈ Key <$> loaded ∧ saveFault kept = None)
  ∧ (result o = None →
     engines o = kept ∧ file o = Holds (readBack <$> kept) ∧ (key ∉ Key <$> engines o))
  ∧ (key ∉ Key <$> loaded →
     result o = Some ("no search engine found with key '" +:+ key +:+ "'")
     ∧ engines o = loaded ∧ file o = Untouched ∧ printed o = [])
  ∧ (∀ fault, key ∈ Key <$> loaded → saveFault kept = Some fault →
       result o = Some ("failed to save config: " +:+ message fault)
       ∧ file o = (if opened fault then Truncated else Untouched)
       ∧ printed o = []).
Proof.
  intros o kept. subst o kept. unfold removeEngine.
  rewrite remove_loop. cbn [orb app].
  case_bool_decide as Hin; cbn [negb].
  2:{ cbn [failed result engines file printed].
      repeat split; try discriminate; try tauto. }
  destruct (saveConfig_cases (filter (λ e, Key e ≠ key) loaded))
    as [(fault & Hf & ->)|[Hf ->]]; cbn [failed result engines file printed].
  - split; [split; [discriminate|intros (_ & H); congruence]|].
    split; [discriminate|]. split; [tauto|].
    intros fault' _ Hf'. rewrite Hf in Hf'. by injection Hf' as <-.
  - split; [split; [tauto|reflexivity]|]. split.
    { intros _. repeat split. apply filter_key_absent. }
    split; [tauto|]. intros fault' _ Hf'. congruence.
Qed.

(** [remove-engine] removes every engine that has the key and keeps the
    others in their order.  It succeeds exactly when some engine has the key
    and the save works; the file is then rewritten with the engines kept,
    and for engines that [loadConfig] has read these are the very engines
    kept.  When no engine has the key it returns "no search engine found",
    and the engines and the file are untouched.  When the save fails, the
    file is untouched or left truncated, as [os.WriteFile] left it. *)
Theorem remove_engine_removes_key (loaded : list SearchEngine) (key : string) :
  let o := removeEngine saveFault loaded key in
  let kept := filter (λ e, Key e ≠ key) loaded in
  (result o = None ↔ key ∈ Key <$> loaded ∧ saveFault kept = None)
  ∧ (result o = None →
     engines o = kept ∧ file o = Holds (readBack <$> kept) ∧ (key ∉ Key <$> engines o)
     ∧ (readBack <$> loaded = loaded → file o = Holds kept))
  ∧ (key ∉ Key <$> loaded →
     result o = Some ("no search engine found with key '" +:+ key +:+ "'")
     ∧ engines o = loaded ∧ file o = Untouched ∧ printed o = [])
  ∧ (∀ fault, key ∈ Key <$> loaded → saveFault kept = Some fault →
       result o = Some ("failed to save config: " +:+ message fault)
       ∧ file o = (if opened fault then Truncated else Untouched)
       ∧ printed o = []).
Proof.
  intros o kept.
  destruct (remove_engine_core loaded key) as (Hiff & Hok & Hnone & Hsave).
  fold o kept in Hiff, Hok, Hnone, Hsave.
  split; [exact Hiff|]. split; [|split; [exact Hnone|exact Hsave]].
  intros Hres. destruct (Hok Hres) as (Heng & Hfile & Hkey).
  repeat split; try done.
  intros Hvalid. rewrite Hfile. unfold kept. by rewrite readBack_filter.
Qed.

End EngineCommands.

(** ** [add-engine], then [remove-engine]: two runs that meet in the file *)

(** [remove-engine] run on the file that [add-engine] has written.  With an
    ASCII key it finds the engine, and the file holds again the engines
    there were.  With a key byte beyond ASCII the file holds the key as
    U+FFFD: [remove-engine] with the key that was given to [add-engine]
    returns "no search engine found", and the engine stays. *)
Theorem add_then_remove_engine (saveFault saveFault' : list SearchEngine → option SaveFault)
    (loaded : list SearchEngine) (name url : string) (c : ascii) :
  let key := String c "" in
  readBack <$> loaded = loaded →
  result (addEngine saveFault loaded name url key) = None →
  ∃ content,
    file (addEngine saveFault loaded name url key) = Holds content
    ∧ ((byte c < 128)%N → saveFault' loaded = None →
       let o := removeEngine saveFault' content key in
       result o = None ∧ engines o = loaded ∧ file o = Holds loaded)
    ∧ ((128 ≤ byte c)%N →
       let o := removeEngine saveFault' content key in
       result o = Some ("no search engine found with key '" +:+ key +:+ "'")
       ∧ file o = Untouched
       ∧ Key <$> content = (Key <$> loaded) ++ [replacementChar]).
Proof.
  intros key Hvalid Hadd.
  destruct (add_engine_core saveFault loaded name url key) as (Hiff & Hok & _).
  destruct (proj1 Hiff Hadd) as (_ & _ & Hnew & _).
  destruct (Hok Hadd) as [Heng Hfile].
  assert (Hcontent : file (addEngine saveFault loaded name url key)
            = Holds (loaded ++ [{| Name := jsonString name; URL := jsonString url;
                                   Key := jsonString key |}])).
  { rewrite Hfile, Heng, fmap_app, Hvalid. reflexivity. }
  exists (loaded ++ [{| Name := jsonString name; URL := jsonString url;
                        Key := jsonString key |}]).
  split; [exact Hcontent|]. split.
  - intros Hc Hsave. cbv zeta.
    assert (Hkey : jsonString key = key) by by apply jsonString_ascii_byte.
    rewrite Hkey.
    assert (Hkept : filter (λ e, Key e ≠ key)
                      (loaded ++ [{| Name := jsonString name; URL := jsonString url;
                                     Key := key |}]) = loaded).
    { rewrite filter_app, filter_key_all by exact Hnew.
      rewrite filter_cons, decide_False by (cbn; tauto).
      rewrite filter_nil. apply app_nil_r. }
    destruct (remove_engine_core saveFault'
                (loaded ++ [{| Name := jsonString name; URL := jsonString url; Key := key |}])
                key) as (Hriff & Hrok & _).
    rewrite Hkept in Hriff, Hrok.
    match type of Hriff with
    | result ?o = None ↔ _ => assert (Hr : result o = None)
    end.
    { apply Hriff. split; [|exact Hsave]. rewrite fmap_app. apply elem_of_app. right. left. }
    split; [exact Hr|]. destruct (Hrok Hr) as (? & Hf & _). split; [done|].
    by rewrite Hf, Hvalid.
  - intros Hc. cbv zeta.
    assert (Hkey : jsonString key = replacementChar) by by apply jsonString_high_byte.
    rewrite Hkey.
    destruct (remove_engine_core saveFault'
                (loaded ++ [{| Name := jsonString name; URL := jsonString url;
                               Key := replacementChar |}])
                key) as (_ & _ & Hnone & _).
    destruct Hnone as (Hr & _ & Hf & _).
    { rewrite fmap_app. intros Hin. apply elem_of_app in Hin as [Hin|Hin]; [done|].
      apply list_elem_of_singleton in Hin. cbn [Key] in Hin.
      apply (jsonString_not_high_byte key c Hc). by rewrite Hkey. }
    split; [exact Hr|]. split; [exact Hf|]. by rewrite fmap_app.
Qed.

Section EngineEdit.
Variable saveFault : list SearchEngine → option SaveFault.

Lemma find_conflict (oldKey newKey : string) (l : list SearchEngine) :
  newKey ≠ oldKey →
  find (λ otherEngine, String.eqb (Key otherEngine) newKey
                       && negb (String.eqb (Key otherEngine) oldKey)) l
  = find (λ engine, String.eqb (Key engine) newKey) l.
Proof.
  intros Hne. induction l as [|e l IH]; cbn [find]; [reflexivity|].
  destruct (String.eqb_spec (Key e) newKey) as [Heq|Hk]; cbn [andb].
  - destruct (String.eqb_spec (Key e) oldKey) as [Ho|Ho]; [congruence | reflexivity].
  - exact IH.
Qed.

(** Every way the loop of [edit-engine] ends. *)
Lemma editLoop_cases (oldKey newName newURL newKey : string) (rest : list SearchEngine) :
  ∀ pre : list SearchEngine,
    (oldKey ∉ Key <$> pre) →
    let all := pre ++ rest in
    let o := editLoop saveFault all (length pre) rest oldKey newName newURL newKey in
    let new := {| Name := newName; URL := newURL; Key := newKey |} in
    ((oldKey ∉ Key <$> all)
     ∧ o = failed ("no search engine found with key '" +:+ oldKey +:+ "'") all Untouched)
    ∨ (∃ pre' old post,
         all = pre' ++ old :: post ∧ Key old = oldKey ∧ (oldKey ∉ Key <$> pre')
         ∧ ((∃ other, newKey ≠ oldKey ∧ other ∈ all ∧ Key other = newKey
                      ∧ o = failed ("key '" +:+ newKey +:+ "' already exists for engine '"
                                    +:+ Name other +:+ "'") all Untouched)
            ∨ ((newKey = oldKey ∨ newKey ∉ Key <$> all)
               ∧ ((∃ fault, saveFault (pre' ++ new :: post) = Some fault
                        ∧ o = failed ("failed to save config: " +:+ message fault)
                                     (pre' ++ new :: post)
                                     (if opened fault then Truncated else Untouched))
                  ∨ (saveFault (pre' ++ new :: post) = None
                     ∧ result o = None ∧ engines o = pre' ++ new :: post
                     ∧ file o = Holds (readBack <$> (pre' ++ new :: post))))))).
Proof.
  induction rest as [|engine rest IH]; intros pre Hpre all o new.
  - left. subst o all. rewrite app_nil_r. split; [exact Hpre | reflexivity].
  - subst o. cbn [editLoop].
    destruct (String.eqb_spec (Key engine) oldKey) as [Heq|Hne].
    + right. exists pre, engine, rest. split; [reflexivity|]. split; [exact Heq|].
      split; [exact Hpre|].
      destruct (String.eqb_spec newKey oldKey) as [Hsame|Hdiff]; cbn [negb].
      * right. split; [left; exact Hsame|].
        assert (Hins : <[length pre := new]> all = pre ++ new :: rest).
        { subst all. rewrite insert_app_r_alt by lia. rewrite Nat.sub_diag. reflexivity. }
        cbv zeta. fold new. rewrite Hins.
        destruct (saveConfig_cases saveFault (pre ++ new :: rest)) as [(e & Hf & ->)|[Hf ->]].
        -- left. eauto.
        -- right. cbn [result engines file]. auto.
      * rewrite (find_conflict oldKey newKey all Hdiff).
        destruct (find _ all) as [other|] eqn:Hfind.
        -- left. apply find_key_some in Hfind as [Hin Hk]. exists other. auto.
        -- right. apply find_key_none in Hfind. split; [right; exact Hfind|].
           assert (Hins : <[length pre := new]> all = pre ++ new :: rest).
           { subst all. rewrite insert_app_r_alt by lia. rewrite Nat.sub_diag. reflexivity. }
           cbv zeta. fold new. rewrite Hins.
           destruct (saveConfig_cases saveFault (pre ++ new :: rest)) as [(e & Hf & ->)|[Hf ->]].
           ++ left. eauto.
           ++ right. cbn [result engines file]. auto.
    + assert (Hpre' : oldKey ∉ Key <$> (pre ++ [engine])).
      { rewrite fmap_app. intros H. apply elem_of_app in H as [H|H]; [auto|].
        apply list_elem_of_singleton in H. congruence. }
      specialize (IH (pre ++ [engine]) Hpre'). cbv zeta in IH.
      rewrite length_app in IH. cbn [length] in IH. rewrite Nat.add_1_r in IH.
      subst all. rewrite <- app_assoc in IH. cbn [app] in IH. exact IH.
Qed.

Lemma NoDup_keys_replace (pre post : list SearchEngine) (old new : SearchEngine) :
  Key new = Key old ∨ (Key new ∉ Key <$> (pre ++ old :: post)) →
  NoDup (Key <$> (pre ++ old :: post)) → NoDup (Key <$> (pre ++ new :: post)).
Proof.
  rewrite !fmap_app, !fmap_cons. intros [->|Hnew] Hnd; [exact Hnd|].
  apply NoDup_app in Hnd as (Hpre & Hdisj & Hpost).
  apply NoDup_cons in Hpost as [Hold Hpost].
  apply NoDup_app. split; [exact Hpre|]. split.
  - intros k Hk Hk'. apply elem_of_cons in Hk' as [->|Hk'].
    + apply Hnew. apply elem_of_app. left. exact Hk.
    + apply (Hdisj k Hk). right. exact Hk'.
  - apply NoDup_cons. split; [|exact Hpost].
    intros H. apply Hnew. apply elem_of_app. right. right. exact H.
Qed.

(** [edit-engine] replaces the first engine that has the old key, in
    place: the engines before and after it, and so the order of the menu,
    stay as they are.  It succeeds only with a new key of one byte and a URL
    with the placeholder, and only when the new key is the old one or the
    key of no engine, so keys that were unique stay unique in
    [config.SearchEngines]; the file is then rewritten, holding each string
    as JSON gives it back.  When it fails the file is untouched, unless the
    save itself has failed after [os.WriteFile] had opened the file: then
    the file is left truncated.  An old key that no engine has gives "no
    search engine found". *)
Theorem edit_engine_in_place (loaded : list SearchEngine)
    (oldKey newName newURL newKey : string) :
  let o := editEngine saveFault loaded oldKey newName newURL newKey in
  let new := {| Name := newName; URL := newURL; Key := newKey |} in
  (result o = None →
     String.length newKey = 1 ∧ Contains newURL "%s" = true
     ∧ (newKey = oldKey ∨ newKey ∉ Key <$> loaded)
     ∧ ∃ pre old post,
         loaded = pre ++ old :: post ∧ Key old = oldKey ∧ (oldKey ∉ Key <$> pre)
         ∧ engines o = pre ++ new :: post
         ∧ file o = Holds ((readBack <$> pre) ++ readBack new :: (readBack <$> post))
         ∧ (NoDup (Key <$> loaded) → NoDup (Key <$> engines o)))
  ∧ (result o ≠ None →
     printed o = []
     ∧ (file o = Untouched
        ∨ (file o = Truncated
           ∧ ∃ fault, saveFault (engines o) = Some fault ∧ opened fault = true
                      ∧ result o = Some ("failed to save config: " +:+ message fault))))
  ∧ (String.length newKey = 1 → Contains newURL "%s" = true →
     (oldKey ∉ Key <$> loaded) →
     o = failed ("no search engine found with key '" +:+ oldKey +:+ "'") loaded Untouched).
Proof.
  intros o new. subst o. unfold editEngine.
  destruct (Nat.eqb_spec (String.length newKey) 1) as [Hlen|Hlen]; cbn [negb].
  2:{ cbn [failed result engines file printed].
      repeat split; try discriminate; try tauto; try (by left). }
  destruct (Contains newURL "%s") eqn:Hurl; cbn [negb].
  2:{ cbn [failed result engines file printed].
      repeat split; try discriminate; try tauto; try (by left). }
  assert (Hnil : oldKey ∉ Key <$> ([] : list SearchEngine)) by (intros H; inversion H).
  pose proof (editLoop_cases oldKey newName newURL newKey loaded [] Hnil) as Hcases.
  cbv zeta in Hcases. cbn [app length] in Hcases. fold new in Hcases.
  assert (Hfound : ∀ pre old post, loaded = pre ++ old :: post → Key old = oldKey →
                     ¬ (oldKey ∉ Key <$> loaded)).
  { intros pre old post Hall Hold Habs. destruct Habs.
    rewrite Hall, fmap_app, fmap_cons, Hold. apply elem_of_app. right. left. }
  destruct Hcases as [[Habs ->]|(pre & old & post & Hall & Hold & Hpre & Hcases)].
  { cbn [failed result engines file printed].
    repeat split; try discriminate; try tauto; try (by left). }
  destruct Hcases as [(other & Hdiff & Hin & Hk & ->)|[Hfree Hcases]].
  { cbn [failed result engines file printed].
    split; [discriminate|]. split; [intros _; split; [done|by left]|].
    intros _ _ Habs. by destruct (Hfound _ _ _ Hall Hold). }
  destruct Hcases as [(fault & Hf & ->)|(Hf & Hres & Heng & Hwr)].
  { cbn [failed result engines file printed].
    split; [discriminate|]. split.
    - intros _. split; [done|]. destruct (opened fault) eqn:Hop; [right|by left].
      split; [done|]. by exists fault.
    - intros _ _ Habs. by destruct (Hfound _ _ _ Hall Hold). }
  split; [|split].
  - intros _. split; [exact Hlen|]. split; [reflexivity|]. split; [exact Hfree|].
    exists pre, old, post. rewrite Heng, Hwr.
    split; [exact Hall|]. split; [exact Hold|]. split; [exact Hpre|].
    split; [reflexivity|]. split; [by rewrite fmap_app, fmap_cons|].
    rewrite Hall. apply NoDup_keys_replace. cbn [Key]. rewrite Hold, <- Hall. exact Hfree.
  - intros H. contradiction.
  - intros _ _ Habs. by destruct (Hfound _ _ _ Hall Hold).
Qed.

End EngineEdit.

(* ================================================================== *)
(** * The URL Firefox is started with *)
(* ================================================================== *)

Import SearchProps.

Lemma ReplaceAll_other c r new :
  c ≠ "%"%char → ReplaceAllPercentS (String c r) new = String c (ReplaceAllPercentS r new).
Proof.
  intros Hc. destruct c as [[] [] [] [] [] [] [] []]; try reflexivity.
  destruct Hc. reflexivity.
Qed.

Lemma ReplaceAll_percent_other c r new :
  c ≠ "s"%char →
  ReplaceAllPercentS (String "%" (String c r)) new
  = String "%" (ReplaceAllPercentS (String c r) new).
Proof.
  intros Hc. destruct c as [[] [] [] [] [] [] [] []]; try reflexivity.
  destruct Hc. reflexivity.
Qed.

Lemma ReplaceAll_app_bounded new post n : ∀ pre,
  String.length pre ≤ n →
  ReplaceAllPercentS (pre +:+ "%s" +:+ post) new
  = ReplaceAllPercentS pre new +:+ new +:+ ReplaceAllPercentS post new.
Proof.
  induction n as [|n IH]; intros pre Hlen.
  - destruct pre; [reflexivity | cbn in Hlen; lia].
  - destruct pre as [|c pre]; [reflexivity|]. cbn [String.length] in Hlen.
    destruct (ascii_dec c "%") as [->|Hc].
    + destruct pre as [|c1 pre].
      * reflexivity.
      * destruct (ascii_dec c1 "s") as [->|Hc1].
        -- change (ReplaceAllPercentS (String "%" (String "s" pre) +:+ "%s" +:+ post) new)
             with (new +:+ ReplaceAllPercentS (pre +:+ "%s" +:+ post) new).
           change (ReplaceAllPercentS (String "%" (String "s" pre)) new)
             with (new +:+ ReplaceAllPercentS pre new).
           cbn [String.length] in Hlen. rewrite IH by lia.
           rewrite !app_assoc_string. reflexivity.
        -- sapp. rewrite !(ReplaceAll_percent_other c1) by exact Hc1.
           rewrite <- (append_cons c1 pre). rewrite IH by lia. sapp. reflexivity.
    + sapp. rewrite !(ReplaceAll_other c) by exact Hc. rewrite IH by lia. sapp. reflexivity.
Qed.

Lemma ReplaceAll_none new s : Contains s "%s" = false → ReplaceAllPercentS s new = s.
Proof.
  assert (H : ∀ n s, String.length s ≤ n → Contains s "%s" = false →
                     ReplaceAllPercentS s new = s).
  { clear s. induction n as [|n IH]; intros s Hlen Hs.
    - destruct s; [reflexivity | cbn in Hlen; lia].
    - destruct s as [|c s]; [reflexivity|]. cbn [String.length] in Hlen.
      cbn [Contains] in Hs. apply orb_false_elim in Hs as [Hhere Hs].
      destruct (ascii_dec c "%") as [->|Hc].
      + destruct s as [|c1 s]; [reflexivity|].
        destruct (ascii_dec c1 "s") as [->|Hc1]; [discriminate|].
        rewrite ReplaceAll_percent_other by exact Hc1. f_equal. apply IH; [lia|exact Hs].
      + rewrite ReplaceAll_other by exact Hc. f_equal. apply IH; [lia|exact Hs]. }
  apply (H (String.length s)). lia.
Qed.

Lemma hexDigitUpper_safe d : (d < 16)%N → isUnreserved (hexDigitUpper d) = true.
Proof.
  intros Hd.
  assert (Hcases : d ∈ [0;1;2;3;4;5;6;7;8;9;10;11;12;13;14;15]%N).
  { rewrite !elem_of_cons. lia. }
  rewrite !elem_of_cons in Hcases.
  repeat (destruct Hcases as [->|Hcases]; [reflexivity|]). inversion Hcases.
Qed.

Lemma hexDigitUpper_inj d d' :
  (d < 16)%N → (d' < 16)%N → hexDigitUpper d = hexDigitUpper d' → d = d'.
Proof.
  intros Hd Hd' Heq. apply (f_equal byte) in Heq. revert Heq.
  unfold hexDigitUpper.
  destruct (d <? 10)%N eqn:H1, (d' <? 10)%N eqn:H2;
    try apply N.ltb_lt in H1; try apply N.ltb_ge in H1;
    try apply N.ltb_lt in H2; try apply N.ltb_ge in H2;
    unfold byte; rewrite !N_ascii_embedding by lia; lia.
Qed.

Lemma QueryEscape_escaped query : allOf isEscaped (QueryEscape query) = true.
Proof.
  induction query as [|c query IH]; [reflexivity|]. cbn [QueryEscape].
  destruct (isUnreserved c) eqn:Hun.
  - cbn [allOf]. unfold isEscaped at 1. rewrite Hun, IH. reflexivity.
  - destruct (byte c =? 32)%N.
    + cbn [allOf]. rewrite IH. reflexivity.
    + cbn [allOf]. rewrite IH.
      unfold isEscaped at 2 3.
      rewrite !hexDigitUpper_safe; [reflexivity| |].
      * apply N.mod_lt. discriminate.
      * apply N.Div0.div_lt_upper_bound. pose proof (byte_bound c). lia.
Qed.

Lemma isUnreserved_not_plus c : isUnreserved c = true → c ≠ "+"%char ∧ c ≠ "%"%char.
Proof. intros H. split; intros ->; discriminate. Qed.

Lemma QueryEscape_inj a : ∀ b, QueryEscape a = QueryEscape b → a = b.
Proof.
  induction a as [|c a IH]; intros [|c' b]; cbn [QueryEscape].
  - reflexivity.
  - destruct (isUnreserved c'); [discriminate|]. destruct (byte c' =? 32)%N; discriminate.
  - destruct (isUnreserved c); [discriminate|]. destruct (byte c =? 32)%N; discriminate.
  - destruct (isUnreserved c) eqn:Hc, (isUnreserved c') eqn:Hc'.
    + intros [= -> H]. f_equal. apply IH. exact H.
    + destruct (isUnreserved_not_plus c Hc) as [Hp Hq].
      destruct (byte c' =? 32)%N; intros [= -> _]; congruence.
    + destruct (isUnreserved_not_plus c' Hc') as [Hp Hq].
      destruct (byte c =? 32)%N; intros [= <- _]; congruence.
    + destruct (byte c =? 32)%N eqn:Hs, (byte c' =? 32)%N eqn:Hs'.
      * intros [= H]. apply N.eqb_eq in Hs, Hs'.
        assert (c = c') as -> by (rewrite <- (ascii_of_byte c), <- (ascii_of_byte c'); congruence).
        f_equal. apply IH. exact H.
      * discriminate.
      * discriminate.
      * intros [= Hhi Hlo H].
        pose proof (byte_bound c). pose proof (byte_bound c').
        apply hexDigitUpper_inj in Hhi;
          [|apply N.Div0.div_lt_upper_bound; lia|apply N.Div0.div_lt_upper_bound; lia].
        apply hexDigitUpper_inj in Hlo; [|apply N.mod_lt; discriminate..].
        assert (Hb : byte c = byte c').
        { rewrite (N.div_mod' (byte c) 16), (N.div_mod' (byte c') 16). congruence. }
        assert (c = c') as -> by (rewrite <- (ascii_of_byte c), <- (ascii_of_byte c'); congruence).
        f_equal. apply IH. exact H.
Qed.

Lemma app_inv_head_string p a b : p +:+ a = p +:+ b → a = b.
Proof. induction p as [|c p IH]; sapp; [done|]. intros [= H]. auto. Qed.

Lemma app_inv_tail_string q a b : a +:+ q = b +:+ q → a = b.
Proof.
  intros H. apply (f_equal revString) in H. rewrite !revString_app in H.
  apply app_inv_head_string in H. apply (f_equal revString) in H.
  by rewrite !revString_involutive in H.
Qed.

(** The address of a search.  For an engine URL with one placeholder,
    Firefox is given the text before the placeholder, the escaped query and
    the text after it.  The escaped query consists of letters, digits,
    [-_.~], [+] and [%] only, so the query brings no space and no URL syntax
    into the address; and two queries that differ are opened at addresses
    that differ. *)
Theorem distinct_queries_open_distinct_urls (config : Config)
    (pre post query query' : string) :
  Contains pre "%s" = false → Contains post "%s" = false →
  last (firefoxArgsOf config (pre +:+ "%s" +:+ post) query)
  = Some (pre +:+ QueryEscape query +:+ post)
  ∧ allOf isEscaped (QueryEscape query) = true
  ∧ (firefoxArgsOf config (pre +:+ "%s" +:+ post) query
     = firefoxArgsOf config (pre +:+ "%s" +:+ post) query' ↔ query = query').
Proof.
  intros Hpre Hpost.
  assert (Hurl : ∀ q, ReplaceAllPercentS (pre +:+ "%s" +:+ post) (QueryEscape q)
                      = pre +:+ QueryEscape q +:+ post).
  { intros q. rewrite (ReplaceAll_app_bounded _ _ (String.length pre)) by lia.
    by rewrite (ReplaceAll_none _ pre Hpre), (ReplaceAll_none _ post Hpost). }
  assert (Hlast : ∀ q, last (firefoxArgsOf config (pre +:+ "%s" +:+ post) q)
                       = Some (pre +:+ QueryEscape q +:+ post)).
  { intros q. unfold firefoxArgsOf. rewrite Hurl. by case_bool_decide. }
  split; [apply Hlast|]. split; [apply QueryEscape_escaped|].
  split; [|by intros ->].
  intros Hargs. apply (f_equal last) in Hargs. rewrite !Hlast in Hargs.
  injection Hargs as Hargs. apply app_inv_head_string in Hargs.
  apply app_inv_tail_string in Hargs. by apply QueryEscape_inj.
Qed.

Lemma startsNothing_refl w : startsNothing w w.
Proof. exists []. split; [by rewrite app_nil_r | constructor]. Qed.

Lemma startsNothing_trans w1 w2 w3 :
  startsNothing w1 w2 → startsNothing w2 w3 → startsNothing w1 w3.
Proof.
  intros (r1 & H1 & F1) (r2 & H2 & F2). exists (r1 ++ r2). split.
  - rewrite H2, H1, app_assoc. reflexivity.
  - apply Forall_app. auto.
Qed.

Lemma startsNothing_events w w' rest :
  events w' = events w ++ rest → Forall (λ e, isStarted e = false) rest →
  startsNothing w w'.
Proof. intros H F. exists rest. auto. Qed.

Lemma pollsOf_quiet n : Forall (λ e, isStarted e = false) (pollsOf n).
Proof.
  induction n as [|n IH]; [constructor|]. rewrite pollsOf_S.
  apply Forall_app. split; [|exact IH]. repeat constructor.
Qed.

Section LaunchTrace.
Variable E : Env.
Variable config : Config.
Variable Sscanf_dimensions : string → Z * Z.

Lemma waitFor_quiet beforeWIDs w r w' :
  waitForNewFirefoxWindow E beforeWIDs w = Some (r, w') → startsNothing w w'.
Proof.
  destruct r as [wid [err|]]; intros H.
  - destruct (waitFor_error E _ _ _ _ _ H) as (_ & _ & _ & (n & _ & Hev) & _).
    apply (startsNothing_events _ _ _ Hev). apply pollsOf_quiet.
  - destruct (waitFor_found E _ _ _ _ H) as (_ & _ & _ & (n & _ & Hev) & _).
    apply (startsNothing_events _ _ _ Hev). apply Forall_app.
    split; [apply pollsOf_quiet | repeat constructor].
Qed.

(** What [openBrowserInSideWindow] does, as far as processes go. *)
Lemma open_trace (searchURL query : string) (w w' : World) (r : error) :
  openBrowserInSideWindow E config Sscanf_dimensions searchURL query w = Some (r, w') →
  ∃ rest,
    events w' = events w ++ [Ran ["wmctrl"; "-l"];
                             Started ("firefox" :: firefoxArgsOf config searchURL query)]
                ++ rest
    ∧ Forall (λ e, isStarted e = false) rest
    ∧ match start E (events w ++ [Ran ["wmctrl"; "-l"]])
                  ("firefox" :: firefoxArgsOf config searchURL query) with
      | Some e => r = Some ("failed to start firefox (is it installed?): " +:+ e)
                  ∧ rest = []
      | None => r = None
                ∨ r = Some ("failed to detect new Firefox window: "
                            +:+ "timeout waiting for new Firefox window")
      end.
Proof.
  unfold openBrowserInSideWindow. mrun. step_output; [|done]. mrun.
  fold (firefoxArgsOf config searchURL query).
  set (beforeWIDs := match failure x with
                     | Some _ => ∅
                     | None => firefoxWIDs (SplitLines (stdout x))
                     end).
  unfold Start at 1. mrun.
  set (w1 := record (Started ("firefox" :: firefoxArgsOf config searchURL query))
                    (record (Ran ["wmctrl"; "-l"]) (advance (Z.of_N (elapsed x)) w))).
  assert (Hw1 : events w1 = events w ++ [Ran ["wmctrl"; "-l"];
                  Started ("firefox" :: firefoxArgsOf config searchURL query)]).
  { unfold w1. cbn [events record advance]. rewrite <- app_assoc. reflexivity. }
  assert (Hend : ∀ w9, startsNothing w1 w9 →
            ∃ rest, events w9 = events w ++ [Ran ["wmctrl"; "-l"];
                      Started ("firefox" :: firefoxArgsOf config searchURL query)] ++ rest
                    ∧ Forall (λ e, isStarted e = false) rest).
  { intros w9 (rest & Hev & Hq). exists rest. rewrite Hev, Hw1, <- app_assoc. auto. }
  change (events (record (Ran ["wmctrl"; "-l"]) (advance (Z.of_N (elapsed x)) w)))
    with (events w ++ [Ran ["wmctrl"; "-l"]]).
  destruct (start E (events w ++ [Ran ["wmctrl"; "-l"]])
                  ("firefox" :: firefoxArgsOf config searchURL query)) as [e|]; mrun.
  { intros [= <- <-]. exists []. rewrite Hw1, app_nil_r. repeat split. constructor. }
  assert (Hend' : ∀ w9 r9, startsNothing w1 w9 →
            r9 = None ∨ r9 = Some ("failed to detect new Firefox window: "
                                   +:+ "timeout waiting for new Firefox window") →
            ∃ rest, events w9 = events w ++ [Ran ["wmctrl"; "-l"];
                      Started ("firefox" :: firefoxArgsOf config searchURL query)] ++ rest
                    ∧ Forall (λ e, isStarted e = false) rest
                    ∧ (r9 = None ∨ r9 = Some ("failed to detect new Firefox window: "
                                   +:+ "timeout waiting for new Firefox window"))).
  { intros w9 r9 Hq9 Hr9. destruct (Hend w9 Hq9) as (rest & ? & ?). by exists rest. }
  clear Hend.
  destruct (waitForNewFirefoxWindow E beforeWIDs w1) as [[[wid [err|]] w2]|] eqn:Hwait;
    mrun; [| |done].
  { intros [= <- <-]. apply Hend'; [apply (waitFor_quiet _ _ _ _ Hwait)|].
    destruct (waitFor_error E _ _ _ _ _ Hwait) as (_ & -> & _). by right. }
  pose proof (waitFor_quiet _ _ _ _ Hwait) as Hq2.
  unfold logPrintf at 1. mrun.
  match goal with
  | |- context [getScreenDimensions E Sscanf_dimensions ?w3] =>
    destruct (getScreenDimensions_run E Sscanf_dimensions w3)
      as [->|(x2 & [screenWidth screenHeight] & Hx2 & ->)]; [done|]
  end.
  mrun.
  match goal with
  | |- context [Run E ?argv ?w4] =>
    destruct (Run_run E argv w4) as [->|(x3 & Hx3 & ->)]; [done|]
  end.
  mrun.
  match goal with
  | |- context [match failure x3 with Some e => logPrintf (@?msg e) | None => mret () end ?w4] =>
    destruct (warn_step (failure x3) msg w4) as (w5 & Hw5 & _ & evs5 & Hev5 & Hq5)
  end.
  cbv beta in Hw5. rewrite Hw5. clear Hw5.
  mrun. rewrite Sleep_run. mrun.
  match goal with
  | |- context [Run E ?argv ?w6] =>
    destruct (Run_run E argv w6) as [->|(x4 & Hx4 & ->)]; [done|]
  end.
  mrun.
  match goal with
  | |- context [match failure x4 with Some e => logPrintf (@?msg e) | None => logPrintf ?m end ?w6] =>
    assert (∃ line, match failure x4 with Some e => logPrintf (msg e) | None => logPrintf m end w6
                    = Some (tt, record (Logged line) w6)) as [posLine Hpos]
      by (destruct (failure x4); by eexists);
    cbv beta in Hpos; rewrite Hpos; clear Hpos;
    set (w7 := record (Logged posLine) w6)
  end.
  mrun.
  assert (Hq7 : startsNothing w2 w7).
  { unfold w7. cbn [events record advance].
    eexists. split.
    - cbn [events record advance]. rewrite Hev5. cbn [events record advance].
      rewrite <- !app_assoc. reflexivity.
    - repeat (apply Forall_app; split); try (repeat constructor).
      eapply Forall_impl; [exact Hq5|]. intros [] He; try reflexivity. discriminate. }
  assert (∃ err w8, addResearchWindow E wid w7 = Some (err, w8) ∧ startsNothing w7 w8)
    as (err & w8 & Hadd & Hq8).
  { rewrite addResearchWindow_run. destruct (db w7).
    - rewrite Exec_run. eexists _, _. split; [done|]. eexists [_].
      split; [reflexivity | repeat constructor].
    - eexists _, _. split; [done|]. apply startsNothing_refl. }
  rewrite Hadd. mrun.
  assert (Hq18 : startsNothing w1 w8).
  { eapply startsNothing_trans; [exact Hq2|].
    eapply startsNothing_trans; [exact Hq7|exact Hq8]. }
  destruct err as [err|]; mrun; unfold logPrintf; intros [= <- <-];
    (apply Hend'; [|by left]).
  - eapply startsNothing_trans; [exact Hq18|]. eexists [_].
    split; [reflexivity | repeat constructor].
  - exact Hq18.
Qed.

(** Whenever [openBrowserInSideWindow] returns, it has listed the windows
    and then called [Start] for Firefox, once, with [--new-window], the
    profile if one is configured, and last the engine's URL in which every
    [%s] is replaced by the escaped query; it starts no other process.  When
    that call fails, Firefox is not running: the function returns "failed to
    start firefox" and has done nothing more.  When the call succeeds, the
    function returns nil or the detection timeout.  For a URL with one
    placeholder the address is the text before it, the escaped query and the
    text after it; a URL without placeholder is opened as it is and the
    query is dropped. *)
Theorem open_launches_firefox_once (searchURL query : string) (w w' : World) (r : error) :
  openBrowserInSideWindow E config Sscanf_dimensions searchURL query w = Some (r, w') →
  (∃ rest,
     events w' = events w ++ [Ran ["wmctrl"; "-l"];
                              Started ("firefox" :: firefoxArgsOf config searchURL query)]
                 ++ rest
     ∧ Forall (λ e, isStarted e = false) rest
     ∧ match start E (events w ++ [Ran ["wmctrl"; "-l"]])
                   ("firefox" :: firefoxArgsOf config searchURL query) with
       | Some e => r = Some ("failed to start firefox (is it installed?): " +:+ e)
                   ∧ rest = []
       | None => r = None
                 ∨ r = Some ("failed to detect new Firefox window: "
                             +:+ "timeout waiting for new Firefox window")
       end)
  ∧ last (firefoxArgsOf config searchURL query)
    = Some (ReplaceAllPercentS searchURL (QueryEscape query))
  ∧ (∀ pre post, searchURL = pre +:+ "%s" +:+ post → Contains post "%s" = false →
       ReplaceAllPercentS searchURL (QueryEscape query)
       = ReplaceAllPercentS pre (QueryEscape query) +:+ QueryEscape query +:+ post)
  ∧ (Contains searchURL "%s" = false →
       ReplaceAllPercentS searchURL (QueryEscape query) = searchURL).
Proof.
  intros H. split; [exact (open_trace _ _ _ _ _ H)|]. split; [|split].
  - unfold firefoxArgsOf. case_bool_decide; reflexivity.
  - intros pre post -> Hpost.
    rewrite (ReplaceAll_app_bounded _ _ (String.length pre)) by lia.
    rewrite (ReplaceAll_none _ post Hpost). reflexivity.
  - apply ReplaceAll_none.
Qed.

End LaunchTrace.

(* ================================================================== *)
(** * The search command *)
(* ================================================================== *)


Lemma dm_bind_run {A B} (m : DM A) (f : A → DM B) d :
  (m ≫= f) d = match m d with Some (a, d') => f a d' | None => None end.
Proof. reflexivity. Qed.

Lemma dm_ret_run {A} (a : A) d : (mret a : DM A) d = Some (a, d).
Proof. reflexivity. Qed.

Lemma lift_run {A} (m : M A) d :
  lift m d = match m (world d) with
             | Some (a, w') =>
               Some (a, {| world := w'; searches := searches d; menus := menus d |})
             | None => None
             end.
Proof. reflexivity. Qed.

(** The engine map of the menu: the last engine with the key. *)
Lemma engineMap_lookup (key : string) (l : list SearchEngine) :
  ∀ m0 : gmap string SearchEngine,
    foldl (λ m engine, <[Key engine := engine]> m) m0 l !! key
    = match last (filter (λ e, Key e = key) l) with
      | Some e => Some e
      | None => m0 !! key
      end.
Proof.
  induction l as [|e l IH]; intros m0; [reflexivity|].
  cbn [foldl]. rewrite IH, filter_cons.
  destruct (decide (Key e = key)) as [Heq|Hne].
  - rewrite last_cons. destruct (last (filter _ l)); [reflexivity|].
    rewrite <- Heq. apply lookup_insert_eq.
  - destruct (last (filter _ l)); [reflexivity|].
    apply lookup_insert_ne. exact Hne.
Qed.

Lemma last_filter_key (key : string) (l : list SearchEngine) (e : SearchEngine) :
  last (filter (λ e, Key e = key) l) = Some e → e ∈ l ∧ Key e = key.
Proof.
  intros H. apply last_Some in H as (l' & Hl).
  assert (Hin : e ∈ filter (λ e, Key e = key) l).
  { rewrite Hl. apply elem_of_app. right. left. }
  apply list_elem_of_filter in Hin as [Hk Hin]. auto.
Qed.

Lemma last_filter_unique (l : list SearchEngine) (e : SearchEngine) :
  NoDup (Key <$> l) → e ∈ l → last (filter (λ e', Key e' = Key e) l) = Some e.
Proof.
  induction l as [|e' l IH]; intros Hnd Hin; [inversion Hin|].
  rewrite fmap_cons in Hnd. apply NoDup_cons in Hnd as [Hnot Hnd].
  rewrite filter_cons. apply elem_of_cons in Hin as [->|Hin].
  - rewrite decide_True by reflexivity.
    assert (Hnone : filter (λ e'0, Key e'0 = Key e') l = []).
    { apply filter_none. apply Forall_forall. intros e2 He2 Hk.
      apply Hnot. rewrite <- Hk. apply list_elem_of_fmap. eauto. }
    rewrite Hnone. reflexivity.
  - destruct (decide (Key e' = Key e)) as [Heq|Hne].
    + destruct Hnot. rewrite Heq. apply list_elem_of_fmap. eauto.
    + apply IH; assumption.
Qed.

(** ** What [TrimSpace] leaves of a menu line *)

Lemma spaceWidthRev_ascii c q :
  isAsciiSpace c = false → (byte c < 128)%N → spaceWidthRev (String c q) = 0.
Proof.
  intros Hsp Hlt. cbn [spaceWidthRev]. rewrite Hsp.
  destruct q as [|c1 q]; [reflexivity|].
  assert (H133 : (byte c =? 133)%N = false) by (apply N.eqb_neq; lia).
  assert (H160 : (byte c =? 160)%N = false) by (apply N.eqb_neq; lia).
  rewrite H133, H160. cbn [orb]. rewrite andb_false_r.
  destruct q as [|c2 q]; [reflexivity|]. cbv zeta.
  assert (H128 : (byte c =? 128)%N = false) by (apply N.eqb_neq; lia).
  assert (H159 : (byte c =? 159)%N = false) by (apply N.eqb_neq; lia).
  assert (H168 : (byte c =? 168)%N = false) by (apply N.eqb_neq; lia).
  assert (H169 : (byte c =? 169)%N = false) by (apply N.eqb_neq; lia).
  assert (H175 : (byte c =? 175)%N = false) by (apply N.eqb_neq; lia).
  assert (Hge : (128 <=? byte c)%N = false) by (apply N.leb_gt; lia).
  rewrite H128, H159, H168, H169, H175, Hge. cbn [andb orb].
  rewrite !andb_false_r. reflexivity.
Qed.

(** When the reversed string runs into an ASCII byte that is not white
    space, a white-space rune read from the end stops before it. *)
Lemma spaceWidthRev_stops c q x a :
  isAsciiSpace c = false → (byte c < 128)%N →
  spaceWidthRev (String x (a +:+ String c q)) ≤ S (String.length a).
Proof.
  intros Hsp Hlt. cbn [spaceWidthRev].
  destruct (isAsciiSpace x); [lia|].
  assert (H194 : (byte c =? 194)%N = false) by (apply N.eqb_neq; lia).
  assert (H154 : (byte c =? 154)%N = false) by (apply N.eqb_neq; lia).
  assert (H128 : (byte c =? 128)%N = false) by (apply N.eqb_neq; lia).
  assert (H129 : (byte c =? 129)%N = false) by (apply N.eqb_neq; lia).
  assert (H225 : (byte c =? 225)%N = false) by (apply N.eqb_neq; lia).
  assert (H226 : (byte c =? 226)%N = false) by (apply N.eqb_neq; lia).
  assert (H227 : (byte c =? 227)%N = false) by (apply N.eqb_neq; lia).
  destruct a as [|c1 a]; sapp.
  { rewrite H194. cbn [andb]. destruct q as [|c2 q]; [cbn; lia|]. cbv zeta.
    rewrite H154, H128, H129. rewrite !andb_false_r. cbn [andb]. cbn. lia. }
  destruct (_ && _); [cbn; lia|].
  destruct a as [|c2 a]; sapp.
  { cbv zeta. rewrite H225, H226, H227. cbn [andb]. cbn. lia. }
  cbv zeta. cbn [String.length].
  repeat match goal with |- context [if ?b then _ else _] => destruct b end; lia.
Qed.

Lemma trimRight_stops c q : ∀ a skip,
  isAsciiSpace c = false → (byte c < 128)%N → skip ≤ String.length a →
  ∃ a', trimLeftFrom spaceWidthRev skip (a +:+ String c q) = a' +:+ String c q.
Proof.
  induction a as [|x a IH]; intros skip Hsp Hlt Hskip.
  - cbn [String.length] in Hskip. assert (skip = 0) as -> by lia.
    sapp. cbn [trimLeftFrom]. rewrite spaceWidthRev_ascii by assumption.
    exists "". reflexivity.
  - sapp. cbn [trimLeftFrom]. cbn [String.length] in Hskip.
    destruct skip as [|k].
    + pose proof (spaceWidthRev_stops c q x a Hsp Hlt) as Hw.
      destruct (spaceWidthRev (String x (a +:+ String c q))) as [|k] eqn:Hwidth.
      * exists (String x a). sapp. reflexivity.
      * apply IH; [assumption..|lia].
    + apply IH; [assumption..|lia].
Qed.

(** [TrimSpace] keeps a text up to an ASCII byte that is not white space,
    when the text does not start with a white-space rune. *)
Lemma TrimSpace_keeps_prefix p c r :
  spaceWidth (p +:+ String c r) = 0 → isAsciiSpace c = false → (byte c < 128)%N →
  ∃ r', TrimSpace (p +:+ String c r) = p +:+ String c r'.
Proof.
  intros Hleft Hsp Hlt. unfold TrimSpace.
  assert (Hu : trimLeftFrom spaceWidth 0 (p +:+ String c r) = p +:+ String c r).
  { destruct (p +:+ String c r) as [|c0 s0] eqn:Hs; [reflexivity|].
    cbn [trimLeftFrom]. rewrite Hleft. reflexivity. }
  rewrite Hu, revString_app, revString_cons, app_assoc_string. sapp.
  destruct (trimRight_stops c (revString p) (revString r) 0 Hsp Hlt ltac:(lia))
    as [a' ->].
  rewrite revString_app, revString_cons, revString_involutive, app_assoc_string. sapp.
  exists (revString a'). reflexivity.
Qed.

Lemma SplitN2_at_colon (k r : string) :
  Contains k ":" = false → SplitN2 (k +:+ String ":" r) ":" = [k; r].
Proof.
  induction k as [|c k IH]; intros Hk; sapp; cbn [SplitN2].
  - reflexivity.
  - cbn [Contains HasPrefix] in Hk. apply orb_false_elim in Hk as [Hc Hk].
    rewrite andb_true_r in Hc. rewrite Hc. rewrite IH by exact Hk. reflexivity.
Qed.

Section SearchResults.
Variable E : Env.
Variable config : Config.
Variable Sscanf_dimensions : string → Z * Z.
Variable SearchEngines : list SearchEngine.
Variable DmenuArgs : list string.
Variable dmenu : list Event → list string → string → option Exit.
Variable insertFault : list Event → SearchRow → error.
Variable Format_date : Z → string.

Lemma dmenuOutput_cases (args : list string) (input : string) (d : Desk) :
  (dmenu (events (world d)) args input = None ∧ dmenuOutput dmenu args input d = None)
  ∨ (∃ x, dmenu (events (world d)) args input = Some x
          ∧ dmenuOutput dmenu args input d = Some (x, asked args input x d)).
Proof.
  unfold dmenuOutput, asked. destruct (dmenu _ _ _) as [x|]; [right; eauto | left; auto].
Qed.

(** Every way the menu can return. *)
Lemma showSearchMenu_cases (query : string) (d d' : Desk) (r : SearchEngine * string * error) :
  showSearchMenu SearchEngines DmenuArgs dmenu query d = Some (r, d') →
  ∃ x, dmenu (events (world d)) (menuArgs DmenuArgs) (menuInput SearchEngines) = Some x
    ∧ d' = asked (menuArgs DmenuArgs) (menuInput SearchEngines) x d
    ∧ ((∃ e, failure x = Some e ∧ r = (noEngine, "", Some ("dmenu failed: " +:+ e)))
       ∨ (failure x = None ∧ TrimSpace (stdout x) = ""
          ∧ r = (noEngine, "", Some "no selection made"))
       ∨ (failure x = None ∧ TrimSpace (stdout x) ≠ ""
          ∧ last (filter (λ e, Key e = TrimSpace (hd "" (SplitN2 (TrimSpace (stdout x)) ":")))
                         SearchEngines) = None
          ∧ r = (noEngine, "", Some ("invalid selection: " +:+ TrimSpace (stdout x))))
       ∨ (failure x = None ∧ TrimSpace (stdout x) ≠ ""
          ∧ ∃ engine,
              last (filter (λ e, Key e = TrimSpace (hd "" (SplitN2 (TrimSpace (stdout x)) ":")))
                           SearchEngines) = Some engine
              ∧ r = (engine, TrimSpace (stdout x), None))).
Proof.
  unfold showSearchMenu. cbv zeta. rewrite dm_bind_run.
  fold (menuArgs DmenuArgs). fold (menuInput SearchEngines).
  destruct (dmenuOutput_cases (menuArgs DmenuArgs) (menuInput SearchEngines) d)
    as [[_ ->]|(x & Hx & ->)]; [discriminate|].
  intros H. exists x. split; [exact Hx|].
  destruct (failure x) as [e|] eqn:Hfail.
  { rewrite dm_ret_run in H. injection H as <- <-. split; [reflexivity|]. left. eauto. }
  destruct (String.eqb_spec (TrimSpace (stdout x)) "") as [Hempty|Hsel].
  { rewrite dm_ret_run in H. injection H as <- <-. split; [reflexivity|].
    right. left. auto. }
  rewrite engineMap_lookup in H. rewrite lookup_empty in H.
  destruct (last _) as [engine|] eqn:Hlast.
  - rewrite dm_ret_run in H. injection H as <- <-. split; [reflexivity|].
    right. right. right. eauto.
  - rewrite dm_ret_run in H. injection H as <- <-. split; [reflexivity|].
    right. right. left. auto.
Qed.

Lemma logSearch_cases (engine : SearchEngine) (query triggerMethod : string) (d : Desk) :
  ∃ err d1,
    logSearch insertFault Format_date query (Name engine) (URL engine) triggerMethod d
    = Some (err, d1)
    ∧ world d1 = world d ∧ menus d1 = menus d
    ∧ ((err = None ∧ db (world d) ≠ None
        ∧ insertFault (events (world d)) (rowOf Format_date engine query triggerMethod d)
          = None
        ∧ searches d1 = searches d ++ [rowOf Format_date engine query triggerMethod d])
       ∨ (∃ e, err = Some e
               ∧ match db (world d) with
                 | None => e = "database not initialized"
                 | Some _ =>
                   insertFault (events (world d))
                               (rowOf Format_date engine query triggerMethod d) = Some e
                 end
               ∧ searches d1 = searches d)).
Proof.
  unfold logSearch. fold (rowOf Format_date engine query triggerMethod d).
  destruct (db (world d)) as [rows|] eqn:Hdb.
  - cbv zeta. fold (rowOf Format_date engine query triggerMethod d).
    destruct (insertFault _ _) as [e|] eqn:Hf.
    + eexists _, _. split; [reflexivity|]. cbn [world menus searches].
      split; [reflexivity|]. split; [reflexivity|]. right. eauto.
    + eexists _, _. split; [reflexivity|]. cbn [world menus searches].
      split; [reflexivity|]. split; [reflexivity|]. left. auto.
  - eexists _, _. split; [reflexivity|].
    split; [reflexivity|]. split; [reflexivity|]. right. eauto.
Qed.

(** The second half of [handleSearch]. *)
Lemma launch_cases (engine : SearchEngine) (query triggerMethod : string)
    (d2 d' : Desk) (r : error) :
  (err ← logSearch insertFault Format_date query (Name engine) (URL engine) triggerMethod;
   match err with
   | Some err => lift (logPrintf ("Failed to log search: " +:+ err))
   | None => mret tt
   end;;
   err ← lift (openBrowserInSideWindow E config Sscanf_dimensions (URL engine) query);
   match err with
   | Some err => mret (Some ("failed to open browser: " +:+ err))
   | None => mret None
   end) d2 = Some (r, d') →
  launched E config Sscanf_dimensions insertFault Format_date engine query triggerMethod
           d2 r d'.
Proof.
  rewrite dm_bind_run.
  destruct (logSearch_cases engine query triggerMethod d2)
    as (err & d1 & -> & Hw & Hm & Hlog).
  intros H.
  destruct Hlog as [(-> & Hdb & Hf & Hs)|(e & -> & He & Hs)].
  - rewrite dm_bind_run, dm_ret_run, dm_bind_run, lift_run in H.
    destruct (openBrowserInSideWindow _ _ _ _ _ (world d1)) as [[ro w']|] eqn:Hopen;
      [|discriminate].
    exists d1, ro, w'. split.
    { split; [exact Hm|]. left. auto. }
    split; [exact Hopen|].
    destruct ro as [e|]; rewrite dm_ret_run in H; injection H as <- <-; auto.
  - rewrite dm_bind_run, lift_run in H. cbn [logPrintf] in H.
    rewrite dm_bind_run, lift_run in H. cbn [world searches menus] in H.
    destruct (openBrowserInSideWindow _ _ _ _ _ (record _ (world d1))) as [[ro w']|] eqn:Hopen;
      [|discriminate].
    exists {| world := record (Logged ("Failed to log search: " +:+ e)) (world d1);
              searches := searches d1; menus := menus d1 |}, ro, w'.
    cbn [world searches menus]. split.
    { split; [exact Hm|]. right. exists e. rewrite Hw. auto. }
    split; [exact Hopen|].
    destruct ro as [e'|]; rewrite dm_ret_run in H; injection H as <- <-; auto.
Qed.

(** Every way [handleSearch] can return. *)
Lemma handleSearch_cases (query triggerMethod : string) (d d' : Desk) (r : error) :
  handleSearch E config Sscanf_dimensions SearchEngines DmenuArgs dmenu insertFault
               Format_date query triggerMethod d = Some (r, d') →
  ∃ x, dmenu (events (world d)) (menuArgs DmenuArgs) (menuInput SearchEngines) = Some x
    ∧ ((∃ e, r = Some ("menu selection failed: " +:+ e)
             ∧ d' = asked (menuArgs DmenuArgs) (menuInput SearchEngines) x d
             ∧ ((∃ e', e = "dmenu failed: " +:+ e')
                ∨ e = "no selection made"
                ∨ e = "invalid selection: " +:+ TrimSpace (stdout x)))
       ∨ (∃ engine,
            engine ∈ SearchEngines ∧ failure x = None
            ∧ Key engine = chosenKey (stdout x)
            ∧ ((query ≠ ""
                ∧ launched E config Sscanf_dimensions insertFault Format_date engine query
                           triggerMethod
                           (asked (menuArgs DmenuArgs) (menuInput SearchEngines) x d) r d')
               ∨ (query = ""
                  ∧ ∃ x2,
                      dmenu (events (world (asked (menuArgs DmenuArgs)
                                                  (menuInput SearchEngines) x d)))
                            (promptArgs DmenuArgs) "" = Some x2
                      ∧ ((∃ e, failure x2 = Some e
                               ∧ r = Some ("query input failed: " +:+ e)
                               ∧ d' = asked (promptArgs DmenuArgs) "" x2
                                        (asked (menuArgs DmenuArgs)
                                               (menuInput SearchEngines) x d))
                         ∨ (failure x2 = None ∧ TrimSpace (stdout x2) = ""
                            ∧ r = Some "empty query, aborting"
                            ∧ d' = asked (promptArgs DmenuArgs) "" x2
                                     (asked (menuArgs DmenuArgs)
                                            (menuInput SearchEngines) x d))
                         ∨ (failure x2 = None ∧ TrimSpace (stdout x2) ≠ ""
                            ∧ launched E config Sscanf_dimensions insertFault Format_date
                                       engine (TrimSpace (stdout x2)) triggerMethod
                                       (asked (promptArgs DmenuArgs) "" x2
                                          (asked (menuArgs DmenuArgs)
                                                 (menuInput SearchEngines) x d))
                                       r d')))))).
Proof.
  unfold handleSearch. rewrite dm_bind_run.
  destruct (showSearchMenu _ _ _ query d) as [[[[engine selected] err] d1]|] eqn:Hmenu;
    [|discriminate].
  apply showSearchMenu_cases in Hmenu as (x & Hx & -> & Hmenu).
  intros H. exists x. split; [exact Hx|].
  destruct Hmenu as [(e & Hfail & [= -> -> ->])
                    |[(Hfail & Hsel & [= -> -> ->])
                    |[(Hfail & Hsel & Hnone & [= -> -> ->])
                    |(Hfail & Hsel & engine' & Hlast & [= -> -> ->])]]].
  1-3: rewrite dm_ret_run in H; injection H as <- <-; left; eexists; split; [reflexivity|];
    split; [reflexivity|]; eauto.
  right. exists engine'. apply last_filter_key in Hlast as [Hin Hkey].
  split; [exact Hin|]. split; [exact Hfail|]. split; [exact Hkey|].
  rewrite dm_bind_run in H.
  destruct (String.eqb_spec query "") as [->|Hq].
  - right. split; [reflexivity|]. cbv zeta in H. rewrite dm_bind_run in H.
    fold (promptArgs DmenuArgs) in H.
    destruct (dmenuOutput_cases (promptArgs DmenuArgs) ""
                (asked (menuArgs DmenuArgs) (menuInput SearchEngines) x d))
      as [[_ Hnone]|(x2 & Hx2 & Hsome)].
    { rewrite Hnone in H. discriminate. }
    rewrite Hsome in H. exists x2. split; [exact Hx2|].
    destruct (failure x2) as [e|] eqn:Hfail2.
    { rewrite dm_ret_run in H. rewrite dm_ret_run in H. injection H as <- <-.
      left. eauto. }
    destruct (String.eqb_spec (TrimSpace (stdout x2)) "") as [Hempty|Hne].
    { rewrite dm_ret_run in H. rewrite dm_ret_run in H. injection H as <- <-.
      right. left. auto. }
    rewrite dm_ret_run in H. right. right.
    split; [reflexivity|]. split; [exact Hne|].
    apply launch_cases. exact H.
  - left. split; [exact Hq|]. rewrite dm_ret_run in H.
    apply launch_cases. exact H.
Qed.

Lemma world_asked args input x d :
  db (world (asked args input x d)) = db (world d)
  ∧ events (world (asked args input x d)) = events (world d) ++ [Ran ("dmenu" :: args)]
  ∧ searches (asked args input x d) = searches d
  ∧ menus (asked args input x d) = menus d ++ [(args, input)].
Proof. repeat split. Qed.

Lemma launched_result engine query triggerMethod d2 r d' :
  launched E config Sscanf_dimensions insertFault Format_date engine query triggerMethod
           d2 r d' →
  menus d' = menus d2
  ∧ (searches d' = searches d2
     ∨ searches d' = searches d2 ++ [rowOf Format_date engine query triggerMethod d2])
  ∧ (db (world d2) ≠ None → (∀ h row, insertFault h row = None) →
     searches d' = searches d2 ++ [rowOf Format_date engine query triggerMethod d2])
  ∧ match r with
    | None => True
    | Some err =>
      ((∃ e, err = "failed to open browser: failed to start firefox (is it installed?): "
                   +:+ e)
       ∨ err = "failed to open browser: failed to detect new Firefox window: "
               +:+ "timeout waiting for new Firefox window")
      ∧ db (world d') = db (world d2)
    end.
Proof.
  intros (d3 & ro & w' & [Hm Hlog] & Hopen & -> & ->). cbn [menus searches world].
  split; [exact Hm|].
  assert (Hdb3 : db (world d3) = db (world d2)).
  { destruct Hlog as [(_ & _ & -> & _)|(e & _ & -> & _)]; reflexivity. }
  split; [|split].
  - destruct Hlog as [(_ & _ & _ & ->)|(e & _ & _ & ->)]; auto.
  - intros Hdb Hins. destruct Hlog as [(_ & _ & _ & ->)|(e & He & _ & _)]; [reflexivity|].
    destruct (db (world d2)); [|congruence]. rewrite Hins in He. discriminate.
  - destruct ro as [err|]; [|exact I].
    destruct (open_cases E config Sscanf_dimensions _ _ _ _ _ Hopen)
      as (x0 & args & _ & Hcases).
    destruct Hcases as [(e & [= ->] & _ & Hdb)|[([= ->] & _ & Hdb)|(? & _)]];
      [| |discriminate].
    + split; [left; exists e; reflexivity | congruence].
    + split; [right; reflexivity | congruence].
Qed.

(** [handleSearch] fails in seven ways only.  Five of them come before the
    launch: then nothing but [dmenu] has run, so Firefox was not started, no
    search was logged, and the registry is as it was.  The other two are the
    two failures of the open flow.  A failure to log the search is not among
    them. *)
Theorem search_fails_before_launch_or_in_open (query triggerMethod : string)
    (d d' : Desk) (err : string) :
  handleSearch E config Sscanf_dimensions SearchEngines DmenuArgs dmenu insertFault
               Format_date query triggerMethod d = Some (Some err, d') →
  (((∃ e, err = "menu selection failed: dmenu failed: " +:+ e)
    ∨ err = "menu selection failed: no selection made"
    ∨ (∃ s, err = "menu selection failed: invalid selection: " +:+ s)
    ∨ (∃ e, err = "query input failed: " +:+ e)
    ∨ err = "empty query, aborting")
   ∧ searches d' = searches d
   ∧ db (world d') = db (world d)
   ∧ ∃ evs, events (world d') = events (world d) ++ evs ∧ Forall isDmenuRun evs)
  ∨ (((∃ e, err = "failed to open browser: failed to start firefox (is it installed?): "
                  +:+ e)
      ∨ err = "failed to open browser: failed to detect new Firefox window: "
              +:+ "timeout waiting for new Firefox window")
     ∧ db (world d') = db (world d)).
Proof.
  intros H. apply handleSearch_cases in H as (x & Hx & Hcases).
  assert (Hone : ∀ args input x d0,
            ∃ evs, events (world (asked args input x d0)) = events (world d0) ++ evs
                   ∧ Forall isDmenuRun evs).
  { intros args input x0 d0. exists [Ran ("dmenu" :: args)]. split; [reflexivity|].
    constructor; [|constructor]. exists args. reflexivity. }
  destruct Hcases as [(e & [= ->] & -> & Hform)
                     |(engine & Hin & Hfail & Hkey & [[Hq Hl]|(-> & x2 & Hx2 & Hrest)])].
  - left. split.
    + destruct Hform as [(e' & ->)|[->| ->]].
      * left. exists e'. reflexivity.
      * right. left. reflexivity.
      * right. right. left. eexists. reflexivity.
    + split; [reflexivity|]. split; [reflexivity|]. apply Hone.
  - right. apply launched_result in Hl as (_ & _ & _ & Hr). exact Hr.
  - destruct Hrest as [(e & Hfail2 & [= ->] & ->)
                      |[(Hfail2 & Hempty & [= ->] & ->)|(Hfail2 & Hne & Hl)]].
    + left. split; [right; right; right; left; exists e; reflexivity|].
      split; [reflexivity|]. split; [reflexivity|].
      exists [Ran ("dmenu" :: menuArgs DmenuArgs); Ran ("dmenu" :: promptArgs DmenuArgs)].
      split.
      * cbn [asked world events record advance]. rewrite <- app_assoc. reflexivity.
      * repeat constructor; eexists; reflexivity.
    + left. split; [right; right; right; right; reflexivity|].
      split; [reflexivity|]. split; [reflexivity|].
      exists [Ran ("dmenu" :: menuArgs DmenuArgs); Ran ("dmenu" :: promptArgs DmenuArgs)].
      split.
      * cbn [asked world events record advance]. rewrite <- app_assoc. reflexivity.
      * repeat constructor; eexists; reflexivity.
    + right. apply launched_result in Hl as (_ & _ & _ & Hr). exact Hr.
Qed.

(** What [handleSearch] writes to the table [searches]: at most one row,
    and a row it writes names an engine of the configuration, carries the
    trigger method it was given and a query that is not empty: the query it
    was given, or else the trimmed text typed at the prompt.  With a
    database that works the row is written whenever the menu and the prompt
    were answered, also when the browser then fails to open. *)
Theorem search_logs_one_row (query triggerMethod : string) (d d' : Desk) (r : error) :
  handleSearch E config Sscanf_dimensions SearchEngines DmenuArgs dmenu insertFault
               Format_date query triggerMethod d = Some (r, d') →
  (searches d' = searches d
   ∨ ∃ row engine,
       searches d' = searches d ++ [row]
       ∧ engine ∈ SearchEngines
       ∧ engine_name row = Name engine ∧ engine_url row = URL engine
       ∧ trigger_method row = triggerMethod
       ∧ Search.query row ≠ ""
       ∧ (query ≠ "" → Search.query row = query)
       ∧ (query = "" → ∃ h x2, dmenu h (promptArgs DmenuArgs) "" = Some x2
                               ∧ Search.query row = TrimSpace (stdout x2)))
  ∧ (db (world d) ≠ None → (∀ h row, insertFault h row = None) →
     (r = None ∨ ∃ e, r = Some ("failed to open browser: " +:+ e)) →
     ∃ row, searches d' = searches d ++ [row]).
Proof.
  intros H. apply handleSearch_cases in H as (x & Hx & Hcases).
  destruct Hcases as [(e & -> & -> & Hform)
                     |(engine & Hin & Hfail & Hkey & [[Hq Hl]|(-> & x2 & Hx2 & Hrest)])].
  - split; [left; reflexivity|]. intros _ _ [Hr|(e' & Hr)]; [discriminate|].
    injection Hr as Hr. sapp. discriminate.
  - apply launched_result in Hl as (_ & Hs & Hdb & _). cbn [asked searches world] in *.
    split.
    + destruct Hs as [->| ->]; [left; reflexivity|]. right.
      eexists _, engine. split; [reflexivity|]. cbn [rowOf engine_name engine_url
        trigger_method Search.query]. repeat split; try done.
    + intros Hnil Hins _. eexists. apply Hdb; assumption.
  - destruct Hrest as [(e & Hfail2 & -> & ->)
                      |[(Hfail2 & Hempty & -> & ->)|(Hfail2 & Hne & Hl)]].
    + split; [left; reflexivity|]. intros _ _ [Hr|(e' & Hr)]; [discriminate|].
      injection Hr as Hr. sapp. discriminate.
    + split; [left; reflexivity|]. intros _ _ [Hr|(e' & Hr)]; [discriminate|].
      injection Hr as Hr. sapp. discriminate.
    + apply launched_result in Hl as (_ & Hs & Hdb & _). cbn [asked searches world] in *.
      split.
      * destruct Hs as [->| ->]; [left; reflexivity|]. right.
        eexists _, engine. split; [reflexivity|]. cbn [rowOf engine_name engine_url
          trigger_method Search.query]. repeat split; try done.
        intros _. eauto.
      * intros Hnil Hins _. eexists. apply Hdb; assumption.
Qed.

(** The menu, by the answer of [dmenu]. *)
Lemma showSearchMenu_run (query : string) (d : Desk) (x : Exit) :
  dmenu (events (world d)) (menuArgs DmenuArgs) (menuInput SearchEngines) = Some x →
  failure x = None → TrimSpace (stdout x) ≠ "" →
  showSearchMenu SearchEngines DmenuArgs dmenu query d
  = Some (match last (filter (λ e, Key e = chosenKey (stdout x)) SearchEngines) with
          | Some engine => (engine, TrimSpace (stdout x), None)
          | None => (noEngine, "", Some ("invalid selection: " +:+ TrimSpace (stdout x)))
          end,
          asked (menuArgs DmenuArgs) (menuInput SearchEngines) x d).
Proof.
  intros Hx Hfail Hsel. unfold showSearchMenu. cbv zeta. rewrite dm_bind_run.
  fold (menuArgs DmenuArgs). fold (menuInput SearchEngines).
  destruct (dmenuOutput_cases (menuArgs DmenuArgs) (menuInput SearchEngines) d)
    as [[Hnone _]|(x' & Hx' & ->)]; [congruence|].
  assert (x' = x) as -> by congruence.
  rewrite Hfail. destruct (String.eqb_spec (TrimSpace (stdout x)) "") as [?|_]; [done|].
  rewrite engineMap_lookup, lookup_empty. fold (chosenKey (stdout x)).
  destruct (last _); reflexivity.
Qed.

Lemma spaceWidth_colon r : spaceWidth (String ":" r) = 0.
Proof. destruct r as [|c1 [|c2 r]]; reflexivity. Qed.

Lemma TrimSpace_byte c : isAsciiSpace c = false → TrimSpace (String c "") = String c "".
Proof.
  intros Hsp. unfold TrimSpace. cbn [trimLeftFrom spaceWidth]. rewrite Hsp.
  unfold revString. cbn [revOnto trimLeftFrom spaceWidthRev]. rewrite Hsp. reflexivity.
Qed.

(** An engine whose key is one byte that is neither white space nor a
    colon is what the menu returns when [dmenu] prints the engine's line,
    whatever the engine's name, provided the keys are unique. *)
Theorem menu_returns_chosen_engine (query : string) (d : Desk) (x : Exit)
    (engine : SearchEngine) (c : ascii) :
  NoDup (Key <$> SearchEngines) →
  engine ∈ SearchEngines →
  Key engine = String c "" → isAsciiSpace c = false → c ≠ ":"%char →
  dmenu (events (world d)) (menuArgs DmenuArgs) (menuInput SearchEngines) = Some x →
  failure x = None →
  stdout x = line (Key engine +:+ ": " +:+ Name engine) →
  ∃ selected,
    showSearchMenu SearchEngines DmenuArgs dmenu query d
    = Some ((engine, selected, None),
            asked (menuArgs DmenuArgs) (menuInput SearchEngines) x d)
    ∧ HasPrefix selected (Key engine +:+ ":") = true.
Proof.
  intros Hnd Hin Hkey Hsp Hcolon Hx Hfail Hout.
  assert (Htrim : ∃ r', TrimSpace (stdout x) = String c (String ":" r')).
  { rewrite Hout, Hkey. unfold line. sapp.
    apply (TrimSpace_keeps_prefix (String c "") ":"); [|reflexivity|reflexivity].
    sapp. cbn [spaceWidth]. rewrite Hsp.
    destruct (byte c =? 194)%N, (byte c =? 225)%N, (byte c =? 226)%N, (byte c =? 227)%N;
      reflexivity. }
  destruct Htrim as [r' Htrim].
  assert (Hchosen : chosenKey (stdout x) = Key engine).
  { unfold chosenKey. rewrite Htrim.
    change (String c (String ":" r')) with (String c "" +:+ String ":" r').
    rewrite SplitN2_at_colon.
    - cbn [hd]. rewrite Hkey. apply TrimSpace_byte. exact Hsp.
    - cbn [Contains HasPrefix]. rewrite andb_true_r, orb_false_r.
      apply Ascii.eqb_neq. exact Hcolon. }
  exists (TrimSpace (stdout x)). split.
  - rewrite (showSearchMenu_run query d x Hx Hfail) by (rewrite Htrim; discriminate).
    rewrite Hchosen, (last_filter_unique _ _ Hnd Hin). reflexivity.
  - rewrite Htrim, Hkey. sapp. cbn [HasPrefix]. rewrite !Ascii.eqb_refl. reflexivity.
Qed.

(** An engine whose key is a white-space byte or a colon cannot be chosen
    from the menu: its line is read as the empty key, and the menu fails
    with "invalid selection" unless some engine has the empty key.
    [add-engine] accepts such a key. *)
Theorem menu_rejects_space_or_colon_key (query : string) (d : Desk) (x : Exit)
    (engine : SearchEngine) (c : ascii) :
  (∀ e, e ∈ SearchEngines → Key e ≠ "") →
  Key engine = String c "" → isAsciiSpace c = true ∨ c = ":"%char →
  dmenu (events (world d)) (menuArgs DmenuArgs) (menuInput SearchEngines) = Some x →
  failure x = None →
  stdout x = line (Key engine +:+ ": " +:+ Name engine) →
  showSearchMenu SearchEngines DmenuArgs dmenu query d
  = Some ((noEngine, "", Some ("invalid selection: " +:+ TrimSpace (stdout x))),
          asked (menuArgs DmenuArgs) (menuInput SearchEngines) x d)
  ∧ ∀ saveFault name url,
      saveFault (SearchEngines ++ [{| Name := name; URL := url; Key := String c "" |}]) = None →
      Contains url "%s" = true → (String c "" ∉ Key <$> SearchEngines) →
      result (addEngine saveFault SearchEngines name url (String c "")) = None.
Proof.
  intros Hkeys Hkey Hc Hx Hfail Hout.
  assert (Htrim : ∃ r', TrimSpace (stdout x) = String ":" r').
  { rewrite Hout, Hkey. unfold line. repeat (progress sapp). destruct Hc as [Hsp| ->].
    - assert (Hcut : ∀ r, TrimSpace (String c (String ":" r)) = TrimSpace (String ":" r)).
      { intros r. unfold TrimSpace. cbn [trimLeftFrom spaceWidth]. rewrite Hsp.
        reflexivity. }
      rewrite Hcut.
      apply (TrimSpace_keeps_prefix "" ":"); [apply spaceWidth_colon|reflexivity..].
    - apply (TrimSpace_keeps_prefix "" ":"); [apply spaceWidth_colon|reflexivity..]. }
  destruct Htrim as [r' Htrim].
  assert (Hchosen : chosenKey (stdout x) = "").
  { unfold chosenKey. rewrite Htrim. reflexivity. }
  split.
  - rewrite (showSearchMenu_run query d x Hx Hfail) by (rewrite Htrim; discriminate).
    rewrite Hchosen.
    assert (Hnone : filter (λ e, Key e = "") SearchEngines = []).
    { apply filter_none. apply Forall_forall. exact Hkeys. }
    rewrite Hnone. reflexivity.
  - intros saveFault name url Hsave Hurl Hnew.
    apply (add_engine_core saveFault SearchEngines name url (String c "")).
    repeat split; assumption.
Qed.

Lemma launched_trace engine query triggerMethod d2 r d' :
  launched E config Sscanf_dimensions insertFault Format_date engine query triggerMethod
           d2 r d' →
  ∃ outcome,
    launchedWith E config (URL engine) query outcome (world d2) (world d')
    ∧ match outcome with
      | Some e => r = Some ("failed to open browser: "
                            +:+ "failed to start firefox (is it installed?): " +:+ e)
      | None => r = None
                ∨ r = Some ("failed to open browser: "
                            +:+ "failed to detect new Firefox window: "
                            +:+ "timeout waiting for new Firefox window")
      end.
Proof.
  intros (d3 & ro & w' & [Hm Hlog] & Hopen & -> & ->). cbn [world].
  destruct (open_trace E config Sscanf_dimensions _ _ _ _ _ Hopen)
    as (rest & Hev & Hq & Hverdict).
  assert (Hr : match start E (events (world d3) ++ [Ran ["wmctrl"; "-l"]])
                     ("firefox" :: firefoxArgsOf config (URL engine) query) with
               | Some e => match ro with
                           | Some e0 => Some ("failed to open browser: " +:+ e0)
                           | None => None
                           end
                           = Some ("failed to open browser: "
                                   +:+ "failed to start firefox (is it installed?): " +:+ e)
               | None => match ro with
                         | Some e0 => Some ("failed to open browser: " +:+ e0)
                         | None => None
                         end = None
                         ∨ match ro with
                           | Some e0 => Some ("failed to open browser: " +:+ e0)
                           | None => None
                           end
                           = Some ("failed to open browser: "
                                   +:+ "failed to detect new Firefox window: "
                                   +:+ "timeout waiting for new Firefox window")
               end).
  { destruct (start E _ _) as [e|].
    - destruct Hverdict as [-> _]. reflexivity.
    - destruct Hverdict as [-> | ->]; [by left | by right]. }
  eexists. split; [|exact Hr].
  destruct Hlog as [(_ & _ & Hw & _)|(e & _ & Hw & _)]; rewrite Hw in Hev |- *.
  - exists [Ran ["wmctrl"; "-l"]], rest. split; [exact Hev|].
    split; [repeat constructor |]. split; [exact Hq | reflexivity].
  - exists [Logged ("Failed to log search: " +:+ e); Ran ["wmctrl"; "-l"]], rest.
    split; [|split; [repeat constructor | split; [exact Hq|]]].
    + rewrite Hev. cbn [events record]. rewrite <- !app_assoc. reflexivity.
    + cbn [events record]. rewrite <- !app_assoc. reflexivity.
Qed.

Lemma launchedWith_after_dmenu url query outcome args input x d w' :
  launchedWith E config url query outcome (world (asked args input x d)) w' →
  launchedWith E config url query outcome (world d) w'.
Proof.
  intros (pre & rest & Hev & Hpre & Hrest & Hstart).
  exists (Ran ("dmenu" :: args) :: pre), rest. split; [|split; [|split; [exact Hrest|]]].
  - rewrite Hev. cbn [asked world events record advance]. rewrite <- !app_assoc.
    reflexivity.
  - constructor; [reflexivity | exact Hpre].
  - rewrite <- Hstart. cbn [asked world events record advance]. rewrite <- !app_assoc.
    reflexivity.
Qed.

Lemma app_one_inv {A} (l : list A) (a b : A) : l ++ [a] = l ++ [b] → a = b.
Proof. intros H. apply app_inv_head in H. congruence. Qed.

Lemma app_one_neq {A} (l : list A) (a : A) : l ≠ l ++ [a].
Proof.
  intros H. apply (f_equal length) in H. rewrite length_app in H. cbn in H. lia.
Qed.

(** The row [handleSearch] has written, when it has written one. *)
Lemma handleSearch_row (query triggerMethod : string) (d d' : Desk) (r : error)
    (row : SearchRow) :
  handleSearch E config Sscanf_dimensions SearchEngines DmenuArgs dmenu insertFault
               Format_date query triggerMethod d = Some (r, d') →
  searches d' = searches d ++ [row] →
  trigger_method row = triggerMethod
  ∧ ((query ≠ "" ∧ Search.query row = query
      ∧ menus d' = menus d ++ [(menuArgs DmenuArgs, menuInput SearchEngines)])
     ∨ (query = ""
        ∧ (∃ h x2, dmenu h (promptArgs DmenuArgs) "" = Some x2 ∧ failure x2 = None
                   ∧ Search.query row = TrimSpace (stdout x2))
        ∧ menus d' = menus d ++ [(menuArgs DmenuArgs, menuInput SearchEngines);
                                 (promptArgs DmenuArgs, "")])).
Proof.
  intros H Hrow. apply handleSearch_cases in H as (x & Hx & Hcases).
  destruct Hcases as [(e & -> & -> & Hform)
                     |(engine & Hin & Hfail & Hkey & [[Hq Hl]|(-> & x2 & Hx2 & Hrest)])].
  - cbn [asked searches] in Hrow. destruct (app_one_neq _ _ Hrow).
  - apply launched_result in Hl as (Hm & Hs & _). cbn [asked searches menus] in *.
    destruct Hs as [Hs|Hs]; rewrite Hs in Hrow; [destruct (app_one_neq _ _ Hrow)|].
    apply app_one_inv in Hrow as <-. split; [reflexivity|]. left. auto.
  - destruct Hrest as [(e & Hfail2 & -> & ->)
                      |[(Hfail2 & Hempty & -> & ->)|(Hfail2 & Hne & Hl)]].
    + cbn [asked searches] in Hrow. destruct (app_one_neq _ _ Hrow).
    + cbn [asked searches] in Hrow. destruct (app_one_neq _ _ Hrow).
    + apply launched_result in Hl as (Hm & Hs & _). cbn [asked searches menus] in *.
      destruct Hs as [Hs|Hs]; rewrite Hs in Hrow; [destruct (app_one_neq _ _ Hrow)|].
      apply app_one_inv in Hrow as <-. split; [reflexivity|]. right.
      split; [reflexivity|]. split; [eauto|]. rewrite Hm, <- app_assoc. reflexivity.
Qed.

(** The command [search] records how the query came about.  A row it
    writes has the trigger method "selection" only when the flag [--empty]
    was not given and the query is the trimmed output of an [xsel] that
    succeeded, and then only the engine menu was shown.  Otherwise the
    trigger method is "manual" and the query is the trimmed text typed at
    the prompt that followed the menu: a selection that cannot be captured
    makes the command ask, not fail. *)
Theorem search_command_trigger (empty : bool) (d d' : Desk) (r : error) (row : SearchRow) :
  searchRun E config Sscanf_dimensions SearchEngines DmenuArgs dmenu insertFault
            Format_date empty d = Some (r, d') →
  searches d' = searches d ++ [row] →
  (trigger_method row = "selection" ∧ empty = false
   ∧ (∃ x h flag, run E h ["xsel"; flag] = Some x ∧ failure x = None
                  ∧ Search.query row = TrimSpace (stdout x))
   ∧ menus d' = menus d ++ [(menuArgs DmenuArgs, menuInput SearchEngines)])
  ∨ (trigger_method row = "manual"
     ∧ (∃ h x2, dmenu h (promptArgs DmenuArgs) "" = Some x2 ∧ failure x2 = None
                ∧ Search.query row = TrimSpace (stdout x2))
     ∧ menus d' = menus d ++ [(menuArgs DmenuArgs, menuInput SearchEngines);
                              (promptArgs DmenuArgs, "")]).
Proof.
  unfold searchRun. rewrite dm_bind_run. destruct empty.
  - rewrite dm_ret_run. intros H Hrow.
    destruct (handleSearch_row _ _ _ _ _ _ H Hrow) as [Ht [(Hq & _)|(_ & Hp & Hm)]];
      [done|]. right. auto.
  - rewrite dm_bind_run, lift_run.
    destruct (captureSelectionSafely E config (world d)) as [[[text err] w1]|] eqn:Hcap;
      [|discriminate].
    destruct err as [err|].
    + rewrite dm_bind_run, lift_run. cbn [logPrintf]. rewrite dm_ret_run.
      intros H Hrow.
      destruct (handleSearch_row _ _ _ _ _ _ H Hrow) as [Ht [(Hq & _)|(_ & Hp & Hm)]];
        [done|]. right. auto.
    + rewrite dm_ret_run. intros H Hrow.
      destruct (captureSelectionSafely_text E config _ _ _ Hcap)
        as (Hne & _ & _ & Hxsel & _).
      destruct (handleSearch_row _ _ _ _ _ _ H Hrow) as [Ht [(Hq & Hrq & Hm)|(Hq & _)]];
        [|done]. left. rewrite Hrq. auto.
Qed.

(** What [handleSearch] launches is what it logs.  If it has written a
    row, it has called [Start] for Firefox, once, for the URL and the query
    of that row, and has started no other process.  The row is written also
    when that call fails and Firefox is not running: the result is then the
    error "failed to start firefox"; when the call succeeds the result is
    nil or the detection timeout.  If [handleSearch] returns nil, Firefox
    has started, for the URL of an engine of the configuration and a query
    that is not empty. *)
Theorem search_launches_what_it_logs (query triggerMethod : string) (d d' : Desk)
    (r : error) :
  handleSearch E config Sscanf_dimensions SearchEngines DmenuArgs dmenu insertFault
               Format_date query triggerMethod d = Some (r, d') →
  (∀ row, searches d' = searches d ++ [row] →
     ∃ outcome,
       launchedWith E config (engine_url row) (Search.query row) outcome
                    (world d) (world d')
       ∧ match outcome with
         | Some e => r = Some ("failed to open browser: "
                               +:+ "failed to start firefox (is it installed?): " +:+ e)
         | None => r = None
                   ∨ r = Some ("failed to open browser: "
                               +:+ "failed to detect new Firefox window: "
                               +:+ "timeout waiting for new Firefox window")
         end)
  ∧ (r = None →
     ∃ engine query', engine ∈ SearchEngines ∧ query' ≠ ""
       ∧ (query ≠ "" → query' = query)
       ∧ launchedWith E config (URL engine) query' None (world d) (world d')).
Proof.
  intros H. apply handleSearch_cases in H as (x & Hx & Hcases).
  assert (Hnil : ∀ engine q d2,
            launched E config Sscanf_dimensions insertFault Format_date engine q
                     triggerMethod d2 r d' →
            r = None → launchedWith E config (URL engine) q None (world d2) (world d')).
  { intros engine q d2 Hl Hr. destruct (launched_trace _ _ _ _ _ _ Hl) as ([e|] & Ht & Hv).
    - rewrite Hr in Hv. discriminate.
    - exact Ht. }
  destruct Hcases as [(e & -> & -> & Hform)
                     |(engine & Hin & Hfail & Hkey & [[Hq Hl]|(-> & x2 & Hx2 & Hrest)])].
  - split; [|discriminate]. intros row Hrow. cbn [asked searches] in Hrow.
    destruct (app_one_neq _ _ Hrow).
  - destruct (launched_trace _ _ _ _ _ _ Hl) as (outcome & Htrace & Hv).
    pose proof (launchedWith_after_dmenu _ _ _ _ _ _ _ _ Htrace) as Htrace1.
    pose proof (Hnil _ _ _ Hl) as Hstarted.
    apply launched_result in Hl as (_ & Hs & _). cbn [asked searches] in Hs.
    split.
    + intros row Hrow. destruct Hs as [Hs|Hs]; rewrite Hs in Hrow;
        [destruct (app_one_neq _ _ Hrow)|].
      apply app_one_inv in Hrow as <-. by exists outcome.
    + intros Hr. exists engine, query. split; [exact Hin|]. split; [exact Hq|].
      split; [done|]. exact (launchedWith_after_dmenu _ _ _ _ _ _ _ _ (Hstarted Hr)).
  - destruct Hrest as [(e & Hfail2 & -> & ->)
                      |[(Hfail2 & Hempty & -> & ->)|(Hfail2 & Hne & Hl)]].
    + split; [|discriminate]. intros row Hrow. cbn [asked searches] in Hrow.
      destruct (app_one_neq _ _ Hrow).
    + split; [|discriminate]. intros row Hrow. cbn [asked searches] in Hrow.
      destruct (app_one_neq _ _ Hrow).
    + destruct (launched_trace _ _ _ _ _ _ Hl) as (outcome & Htrace & Hv).
      pose proof (launchedWith_after_dmenu _ _ _ _ _ _ _ _
                    (launchedWith_after_dmenu _ _ _ _ _ _ _ _ Htrace)) as Htrace1.
      pose proof (Hnil _ _ _ Hl) as Hstarted.
      apply launched_result in Hl as (_ & Hs & _). cbn [asked searches] in Hs.
      split.
      * intros row Hrow. destruct Hs as [Hs|Hs]; rewrite Hs in Hrow;
          [destruct (app_one_neq _ _ Hrow)|].
        apply app_one_inv in Hrow as <-. by exists outcome.
      * intros Hr. exists engine, (TrimSpace (stdout x2)). split; [exact Hin|].
        split; [exact Hne|]. split; [done|].
        exact (launchedWith_after_dmenu _ _ _ _ _ _ _ _
                 (launchedWith_after_dmenu _ _ _ _ _ _ _ _ (Hstarted Hr))).
Qed.

End SearchResults.

(** ** The theorems at work *)

Lemma add_then_remove_engine_witness :
  ∃ content,
    file (addEngine saveWorks enginesThree "Startpage"
                    "https://www.startpage.com/do/search?q=%s" (String "s" "")) = Holds content
    ∧ ((byte "s" < 128)%N → saveWorks enginesThree = None →
       let o := removeEngine saveWorks content (String "s" "") in
       result o = None ∧ engines o = enginesThree ∧ file o = Holds enginesThree)
    ∧ ((128 ≤ byte "s")%N →
       let o := removeEngine saveWorks content (String "s" "") in
       result o = Some ("no search engine found with key '" +:+ String "s" "" +:+ "'")
       ∧ file o = Untouched
       ∧ Key <$> content = (Key <$> enginesThree) ++ [replacementChar]).
Proof.
  apply (add_then_remove_engine saveWorks saveWorks enginesThree "Startpage"
           "https://www.startpage.com/do/search?q=%s" "s"); reflexivity.
Defined.

Lemma open_launches_firefox_once_witness :
  let w' := after (openBrowserInSideWindow envNewWindow configDefault sscanfFullHD
                     "https://kagi.com/search?q=%s" "rocq prover") worldEmpty in
  (∃ rest,
     events w' = events worldEmpty
                 ++ [Ran ["wmctrl"; "-l"];
                     Started ("firefox" :: firefoxArgsOf configDefault
                                             "https://kagi.com/search?q=%s" "rocq prover")]
                 ++ rest
     ∧ Forall (λ e, isStarted e = false) rest
     ∧ match start envNewWindow (events worldEmpty ++ [Ran ["wmctrl"; "-l"]])
                   ("firefox" :: firefoxArgsOf configDefault
                                   "https://kagi.com/search?q=%s" "rocq prover") with
       | Some e => (None : error) = Some ("failed to start firefox (is it installed?): " +:+ e)
                   ∧ rest = []
       | None => (None : error) = None
                 ∨ (None : error) = Some ("failed to detect new Firefox window: "
                                          +:+ "timeout waiting for new Firefox window")
       end)
  ∧ last (firefoxArgsOf configDefault "https://kagi.com/search?q=%s" "rocq prover")
    = Some (ReplaceAllPercentS "https://kagi.com/search?q=%s" (QueryEscape "rocq prover"))
  ∧ (∀ pre post, "https://kagi.com/search?q=%s" = pre +:+ "%s" +:+ post →
       Contains post "%s" = false →
       ReplaceAllPercentS "https://kagi.com/search?q=%s" (QueryEscape "rocq prover")
       = ReplaceAllPercentS pre (QueryEscape "rocq prover") +:+ QueryEscape "rocq prover"
         +:+ post)
  ∧ (Contains "https://kagi.com/search?q=%s" "%s" = false →
       ReplaceAllPercentS "https://kagi.com/search?q=%s" (QueryEscape "rocq prover")
       = "https://kagi.com/search?q=%s").
Proof.
  intros w'.
  apply (open_launches_firefox_once envNewWindow configDefault sscanfFullHD
           "https://kagi.com/search?q=%s" "rocq prover" worldEmpty w' None).
  vm_compute. reflexivity.
Defined.

Lemma menu_returns_chosen_engine_witness :
  ∃ selected,
    showSearchMenu enginesThree [] dmenuPicksW "monads" deskEmpty
    = Some ((wikipedia, selected, None),
            asked (menuArgs []) (menuInput enginesThree) pickedW deskEmpty)
    ∧ HasPrefix selected (Key wikipedia +:+ ":") = true.
Proof.
  apply (menu_returns_chosen_engine enginesThree [] dmenuPicksW "monads" deskEmpty pickedW
           wikipedia "w").
  - apply (bool_decide_unpack _). vm_compute. reflexivity.
  - right. left.
  - reflexivity.
  - reflexivity.
  - discriminate.
  - reflexivity.
  - reflexivity.
  - reflexivity.
Defined.

Lemma menu_rejects_space_or_colon_key_witness :
  showSearchMenu enginesColon [] dmenuPicksColon "monads" deskEmpty
  = Some ((noEngine, "", Some ("invalid selection: " +:+ TrimSpace (stdout pickedColon))),
          asked (menuArgs []) (menuInput enginesColon) pickedColon deskEmpty)
  ∧ ∀ saveFault name url,
      saveFault (enginesColon ++ [{| Name := name; URL := url; Key := String ":" "" |}]) = None →
      Contains url "%s" = true → (String ":" "" ∉ Key <$> enginesColon) →
      result (addEngine saveFault enginesColon name url (String ":" "")) = None.
Proof.
  apply (menu_rejects_space_or_colon_key enginesColon [] dmenuPicksColon "monads" deskEmpty
           pickedColon {| Name := "Colon"; URL := "https://example.org/?q=%s"; Key := ":" |}
           ":").
  - intros e He. apply elem_of_cons in He as [->|He]; [discriminate|].
    apply list_elem_of_singleton in He as ->. discriminate.
  - reflexivity.
  - right. reflexivity.
  - reflexivity.
  - reflexivity.
  - reflexivity.
Defined.

Lemma search_fails_before_launch_or_in_open_witness :
  let d' := afterDesk (handleSearch envQuiet configDefault sscanfFullHD enginesThree []
                         dmenuEmptyQuery insertWorks dateFixed "" "manual") deskEmpty in
  (((∃ e, "empty query, aborting" = "menu selection failed: dmenu failed: " +:+ e)
    ∨ "empty query, aborting" = "menu selection failed: no selection made"
    ∨ (∃ s, "empty query, aborting" = "menu selection failed: invalid selection: " +:+ s)
    ∨ (∃ e, "empty query, aborting" = "query input failed: " +:+ e)
    ∨ "empty query, aborting" = "empty query, aborting")
   ∧ searches d' = searches deskEmpty
   ∧ db (world d') = db (world deskEmpty)
   ∧ ∃ evs, events (world d') = events (world deskEmpty) ++ evs ∧ Forall isDmenuRun evs)
  ∨ (((∃ e, "empty query, aborting"
            = "failed to open browser: failed to start firefox (is it installed?): " +:+ e)
      ∨ "empty query, aborting"
        = "failed to open browser: failed to detect new Firefox window: "
          +:+ "timeout waiting for new Firefox window")
     ∧ db (world d') = db (world deskEmpty)).
Proof.
  intros d'.
  apply (search_fails_before_launch_or_in_open envQuiet configDefault sscanfFullHD
           enginesThree [] dmenuEmptyQuery insertWorks dateFixed "" "manual" deskEmpty d'
           "empty query, aborting").
  vm_compute. reflexivity.
Defined.

Lemma search_logs_one_row_witness :
  let d' := afterDesk (handleSearch envSelection configDefault sscanfFullHD enginesThree []
                         dmenuPicksW insertWorks dateFixed "monads" "selection") deskEmpty in
  (searches d' = searches deskEmpty
   ∨ ∃ row engine,
       searches d' = searches deskEmpty ++ [row]
       ∧ engine ∈ enginesThree
       ∧ engine_name row = Name engine ∧ engine_url row = URL engine
       ∧ trigger_method row = "selection"
       ∧ Search.query row ≠ ""
       ∧ ("monads" ≠ "" → Search.query row = "monads")
       ∧ ("monads" = "" → ∃ h x2, dmenuPicksW h (promptArgs []) "" = Some x2
                                  ∧ Search.query row = TrimSpace (stdout x2)))
  ∧ (db (world deskEmpty) ≠ None → (∀ h row, insertWorks h row = None) →
     ((None : error) = None ∨ ∃ e, (None : error) = Some ("failed to open browser: " +:+ e)) →
     ∃ row, searches d' = searches deskEmpty ++ [row]).
Proof.
  intros d'.
  apply (search_logs_one_row envSelection configDefault sscanfFullHD enginesThree []
           dmenuPicksW insertWorks dateFixed "monads" "selection" deskEmpty d' None).
  vm_compute. reflexivity.
Defined.

Lemma search_launches_what_it_logs_witness :
  let d' := afterDesk (handleSearch envSelection configDefault sscanfFullHD enginesThree []
                         dmenuPicksW insertWorks dateFixed "monads" "selection") deskEmpty in
  (∀ row, searches d' = searches deskEmpty ++ [row] →
     ∃ outcome,
       launchedWith envSelection configDefault (engine_url row) (Search.query row) outcome
                    (world deskEmpty) (world d')
       ∧ match outcome with
         | Some e => (None : error)
                     = Some ("failed to open browser: "
                             +:+ "failed to start firefox (is it installed?): " +:+ e)
         | None => (None : error) = None
                   ∨ (None : error)
                     = Some ("failed to open browser: "
                             +:+ "failed to detect new Firefox window: "
                             +:+ "timeout waiting for new Firefox window")
         end)
  ∧ ((None : error) = None →
     ∃ engine query', engine ∈ enginesThree ∧ query' ≠ ""
       ∧ ("monads" ≠ "" → query' = "monads")
       ∧ launchedWith envSelection configDefault (URL engine) query' None
                      (world deskEmpty) (world d')).
Proof.
  intros d'.
  apply (search_launches_what_it_logs envSelection configDefault sscanfFullHD enginesThree []
           dmenuPicksW insertWorks dateFixed "monads" "selection" deskEmpty d' None).
  vm_compute. reflexivity.
Defined.

Lemma search_command_trigger_witness :
  let d' := afterDesk (searchRun envSelection configDefault sscanfFullHD enginesThree []
                         dmenuPicksW insertWorks dateFixed false) deskEmpty in
  (trigger_method rowMonads = "selection" ∧ false = false
   ∧ (∃ x h flag, run envSelection h ["xsel"; flag] = Some x ∧ failure x = None
                  ∧ Search.query rowMonads = TrimSpace (stdout x))
   ∧ menus d' = menus deskEmpty ++ [(menuArgs [], menuInput enginesThree)])
  ∨ (trigger_method rowMonads = "manual"
     ∧ (∃ h x2, dmenuPicksW h (promptArgs []) "" = Some x2 ∧ failure x2 = None
                ∧ Search.query rowMonads = TrimSpace (stdout x2))
     ∧ menus d' = menus deskEmpty ++ [(menuArgs [], menuInput enginesThree);
                                      (promptArgs [], "")]).
Proof.
  intros d'.
  apply (search_command_trigger envSelection configDefault sscanfFullHD enginesThree []
           dmenuPicksW insertWorks dateFixed false deskEmpty d' None rowMonads).
  - vm_compute. reflexivity.
  - vm_compute. reflexivity.
Defined.

Lemma distinct_queries_open_distinct_urls_witness :
  last (firefoxArgsOf configDefault ("https://kagi.com/search?q=" +:+ "%s" +:+ "&r=no")
                      "rocq prover")
  = Some ("https://kagi.com/search?q=" +:+ QueryEscape "rocq prover" +:+ "&r=no")
  ∧ allOf isEscaped (QueryEscape "rocq prover") = true
  ∧ (firefoxArgsOf configDefault ("https://kagi.com/search?q=" +:+ "%s" +:+ "&r=no")
                   "rocq prover"
     = firefoxArgsOf configDefault ("https://kagi.com/search?q=" +:+ "%s" +:+ "&r=no")
                     "rocq+prover"
     ↔ "rocq prover" = "rocq+prover").
Proof.
  apply (distinct_queries_open_distinct_urls configDefault "https://kagi.com/search?q="
           "&r=no" "rocq prover" "rocq+prover"); reflexivity.
Defined.
